(** * cookie-app: the consent store, the banner controller and the
      consent-mode bootstrap script

    A shallow embedding of [src/defaults.ts], [src/CookieConsent.tsx],
    [src/use-consent.ts] and [src/consent-mode.ts]; the JavaScript that
    [getConsentModeScript] emits is embedded twice, as the computation
    [run_script] and as a program with its concrete syntax and an
    interpreter (module [Script]), and the two are proved to agree.

    Conventions of the embedding.
    - JavaScript strings are [string]; [string | null] is [option string].
    - [Date.now()] is the integer [clock] of the world (milliseconds).
    - [parseInt(d, 10)] returns [option Z], the integer that was read:
      [None] is NaN.  The arithmetic on it is that of IEEE 754 doubles: the
      integer, the difference and the quotient are each rounded to the
      nearest double, a finite double being the rational of [Q] it denotes;
      a comparison with NaN is false, as in JavaScript.
    - [localStorage] is a finite map together with a fault oracle saying
      which of its operations throw; [try { .. } catch { .. }] is a
      combinator of a small state-and-exception monad. *)

From Stdlib Require Import Ascii String QArith SpecFloat.
From stdpp Require Import base option gmap strings list pretty.

Open Scope Z_scope.
Open Scope string_scope.
Open Scope list_scope.

(** ** defaults.ts *)

Definition STORAGE_KEY : string := "loi25-consent".
Definition STORAGE_DATE_KEY : string := "loi25-consent-date".
Definition CONSENT_CHANGE_EVENT : string := "loi25-consent-change".
Definition DEFAULT_EXPIRY_DAYS : Z := 365.
Definition DEFAULT_WAIT_FOR_UPDATE : Z := 500.

(** ** types.ts *)

(** [type ConsentLevel = "all" | "necessary"] *)
Inductive ConsentLevel : Type := all | necessary.

Definition level_str (l : ConsentLevel) : string :=
  match l with all => "all" | necessary => "necessary" end.

#[global] Instance ConsentLevel_eq_dec : EqDecision ConsentLevel.
Proof. solve_decision. Defined.

(** ** JavaScript primitives used by the sources *)

Module Js.

(** Truthiness of a [string | null] value: [null] and the empty string are
    falsy. *)
Definition truthy (v : option string) : bool :=
  match v with
  | None => false
  | Some EmptyString => false
  | Some (String _ _) => true
  end.

(** White space skipped by [parseInt] (code units below 256): TAB, LF, VT,
    FF, CR, SP and NBSP. *)
Definition is_space (a : ascii) : bool :=
  let n := nat_of_ascii a in
  bool_decide (n = 9 ∨ n = 10 ∨ n = 11 ∨ n = 12 ∨ n = 13 ∨ n = 32 ∨ n = 160)%nat.

Fixpoint skip_space (s : string) : string :=
  match s with
  | String a r => if is_space a then skip_space r else s
  | EmptyString => s
  end.

Definition digit (a : ascii) : option Z :=
  let n := Z.of_nat (nat_of_ascii a) in
  if bool_decide (48 ≤ n ≤ 57)%Z then Some (n - 48) else None.

(** The longest prefix of decimal digits, [acc] being the value read so
    far ([None] when no digit has been read yet). *)
Fixpoint digits (s : string) (acc : option Z) : option Z :=
  match s with
  | String a r =>
      match digit a with
      | Some d => digits r (Some (10 * default 0 acc + d))
      | None => acc
      end
  | EmptyString => acc
  end.

(** [parseInt(s, 10)]; [None] is NaN. *)
Definition parseInt (s : string) : option Z :=
  match skip_space s with
  | String "-" r => Z.opp <$> digits r None
  | String "+" r => digits r None
  | r => digits r None
  end.

(** [n.toString()] for an integer [n] below 10^21 in magnitude, which
    JavaScript prints with all its digits (a time value is below 10^16). *)
Definition toString (n : Z) : string := pretty n.

(** *** Numbers

    A Number is an IEEE 754 double; the results of [+], [-], [*] and [/]
    are rounded to the nearest double, a tie going to the double whose
    last bit is 0.  A finite double is the rational it denotes. *)

(** The integer nearest to [p / q], for [0 < q]; of two nearest integers,
    the even one. *)
Definition round_half_even (p q : Z) : Z :=
  let d := p / q in
  match 2 * (p mod q) ?= q with
  | Lt => d
  | Gt => d + 1
  | Eq => if Z.even d then d else d + 1
  end.

(** The integer part of the binary logarithm of [p / q], for [0 < p] and
    [0 < q]. *)
Definition floor_log2 (p q : Z) : Z :=
  let l := Z.log2 p - Z.log2 q in
  if (if 0 <=? l then q * 2 ^ l <=? p else q <=? p * 2 ^ (- l))%Z
  then l else l - 1.

(** The double nearest to [p / q], for [0 < q]: a multiple of [2 ^ e], the
    unit in the last place of a significand of 53 bits, and of 2^-1074 for
    a subnormal number. *)
Definition round_ratio (p q : Z) : Q :=
  if (p =? 0)%Z then 0%Q
  else
    let e := Z.max (floor_log2 (Z.abs p) q - 52) (-1074) in
    if (0 <=? e)%Z then inject_Z (round_half_even p (q * 2 ^ e) * 2 ^ e)
    else Qmake (round_half_even (p * 2 ^ (- e)) q) (Z.to_pos (2 ^ (- e))).

(** A result of this magnitude or more is an infinity.  [Infinity] and
    [-Infinity] are written [INFINITY] and [- INFINITY]: they compare with
    every double as the infinities do. *)
Definition INFINITY : Z := 2 ^ 1024.

Definition infinite (x : Q) : bool :=
  (INFINITY * Z.pos (Qden x) <=? Z.abs (Qnum x))%Z.

(** The Number nearest to the rational [q], in lowest terms: the result of
    an operation whose exact value is [q]. *)
Definition rounded (q : Q) : Q :=
  let r := Qred (round_ratio (Qnum q) (Z.pos (Qden q))) in
  if infinite r then inject_Z (Z.sgn (Qnum r) * INFINITY) else r.

(** The Number of an integer. *)
Definition number_of_Z (n : Z) : Q := rounded (inject_Z n).

(** [a - b], [a * b] and [a / b] on Numbers, [None] being NaN; the divisor
    of [/] is not zero (the sign of a zero is not kept). *)
Definition num_sub (a b : option Q) : option Q :=
  match a, b with
  | Some x, Some y =>
      if infinite x
      then (if infinite y && bool_decide (Z.sgn (Qnum x) = Z.sgn (Qnum y))
            then None else Some x)
      else if infinite y then Some (- y)%Q
      else Some (rounded (x - y))
  | _, _ => None
  end.


Definition num_div (a b : option Q) : option Q :=
  match a, b with
  | Some x, Some y =>
      if infinite x
      then (if infinite y then None
            else Some (inject_Z (Z.sgn (Qnum x) * Z.sgn (Qnum y) * INFINITY)))
      else if infinite y then Some 0%Q
      else Some (rounded (x / y))
  | _, _ => None
  end.

(** [a > b] on numbers, where [a] may be NaN. *)
Definition gt (a : option Q) (b : Q) : bool :=
  match a with
  | Some x => negb (Qle_bool x b)
  | None => false
  end.

(** [a <= b] on numbers, where [a] may be NaN. *)
Definition le (a : option Q) (b : Q) : bool :=
  match a with
  | Some x => Qle_bool x b
  | None => false
  end.

(** Completion of a computation: a value, or a thrown exception. *)
Inductive completion (A : Type) : Type :=
| Normal (a : A)
| Thrown.
Arguments Normal {A} a.
Arguments Thrown {A}.

(** Computations over a mutable state [S] that may throw. *)
Definition js (S A : Type) : Type := S → completion A * S.

Definition ret {S A} (a : A) : js S A := λ s, (Normal a, s).

Definition bind {S A B} (m : js S A) (k : A → js S B) : js S B :=
  λ s, match m s with
       | (Normal a, s') => k a s'
       | (Thrown, s') => (Thrown, s')
       end.

(** [try { m } catch { h }] *)
Definition try_catch {S A} (m h : js S A) : js S A :=
  λ s, match m s with
       | (Normal a, s') => (Normal a, s')
       | (Thrown, s') => h s'
       end.

(** State reached by a computation, whatever its completion. *)
Definition exec {S A} (m : js S A) (s : S) : S := snd (m s).

(** A computation returns normally in every state. *)
Definition total {S A} (m : js S A) : Prop :=
  ∀ s, ∃ a s', m s = (Normal a, s').

End Js.

Import Js.

Notation "'let*' x ':=' m 'in' k" := (bind m (λ x, k))
  (at level 10, x name, m at level 100, k at level 200).
Notation "m '>>' k" := (bind m (λ _, k))
  (at level 100, k at level 200, right associativity).

(** ** localStorage *)

(** The entries and a fault oracle: the [n]-th operation performed on the
    store throws when [throws n] holds ([SecurityError] when storage is
    disabled, [QuotaExceededError] on a write, [ReferenceError] outside a
    browser). *)
Record Storage : Type := {
  items : gmap string string;
  ops : nat;
  throws : nat → bool
}.

Definition next_op (s : Storage) : Storage :=
  {| items := items s; ops := S (ops s); throws := throws s |}.

Definition with_items (m : gmap string string) (s : Storage) : Storage :=
  {| items := m; ops := ops s; throws := throws s |}.

Definition getItem (k : string) : js Storage (option string) :=
  λ s, if throws s (ops s) then (Thrown, next_op s)
       else (Normal (items s !! k), next_op s).

Definition setItem (k v : string) : js Storage unit :=
  λ s, if throws s (ops s) then (Thrown, next_op s)
       else (Normal (), next_op (with_items (<[k:=v]> (items s)) s)).

Definition removeItem (k : string) : js Storage unit :=
  λ s, if throws s (ops s) then (Thrown, next_op s)
       else (Normal (), next_op (with_items (delete k (items s)) s)).

(** No operation of the store throws. *)
Definition reliable (s : Storage) : Prop := ∀ n, throws s n = false.

(** Every operation of the store throws. *)
Definition unavailable (s : Storage) : Prop := ∀ n, throws s n = true.

(** A store that never throws, holding [m]. *)
Definition store_of (m : gmap string string) : Storage :=
  {| items := m; ops := 0; throws := λ _, false |}.

(** A store all of whose operations throw. *)
Definition broken_store (m : gmap string string) : Storage :=
  {| items := m; ops := 0; throws := λ _, true |}.

(** ** The consent store accessor (CookieConsent.tsx, use-consent.ts) *)

Definition MS_PER_DAY : positive := (1000 * 60 * 60 * 24)%positive.

(** [(now - t) / (1000 * 60 * 60 * 24)] for the time value [now] of
    [Date.now()] and the integer [t] read by [parseInt]: the Numbers of
    both, their difference and its quotient.  (The difference is a NaN only
    if the clock itself overflows, which a time value does not.) *)
Definition days_since (now t : Z) : Q :=
  default 0%Q
    (num_div (num_sub (Some (number_of_Z now)) (Some (number_of_Z t)))
             (Some (inject_Z (Z.pos MS_PER_DAY)))).

(** The same quotient with the binary64 operations of the Standard
    Library ([SpecFloat]), for comparison. *)
Definition binary64_of_Z (n : Z) : spec_float :=
  binary_normalize 53 1024 n 0 false.

Definition binary64_days (now t : Z) : spec_float :=
  SFdiv 53 1024 (SFsub 53 1024 (binary64_of_Z now) (binary64_of_Z t))
    (binary64_of_Z 86400000).

Definition binary64_value (f : spec_float) : option Q :=
  match f with
  | S754_zero _ => Some 0%Q
  | S754_finite s m e =>
      let v := if s then Z.neg m else Z.pos m in
      Some (if (0 <=? e)%Z then inject_Z (v * 2 ^ e)
            else Qmake v (Z.to_pos (2 ^ (- e))))
  | S754_infinity s => Some (inject_Z (if s then - INFINITY else INFINITY))
  | S754_nan => None
  end.

(** [(Date.now() - parseInt(d, 10)) / (1000 * 60 * 60 * 24)] *)
Definition age_days (now : Z) (d : string) : option Q :=
  days_since now <$> parseInt d.

(** [isExpired], defined with the same body in CookieConsent.tsx and in
    use-consent.ts. *)
Definition isExpired (expiryDays : Q) (now : Z) : js Storage bool :=
  try_catch
    (let* d := getItem STORAGE_DATE_KEY in
     if negb (truthy d) then ret true
     else ret (gt (age_days now (default "" d)) expiryDays))
    (ret true).

(** [getStoredConsent] of CookieConsent.tsx. *)
Definition getStoredConsent (expiryDays : Q) (now : Z)
  : js Storage (option string) :=
  try_catch
    (let* stored := getItem STORAGE_KEY in
     let* valid := (if truthy stored
                    then let* expired := isExpired expiryDays now in
                         ret (negb expired)
                    else ret false) in
     if valid then ret stored
     else
       let* _ := (if truthy stored
                  then (removeItem STORAGE_KEY >> removeItem STORAGE_DATE_KEY)
                  else ret ()) in
       ret None)
    (ret None).

(** [getSnapshot] of use-consent.ts. *)
Definition getSnapshot : js Storage (option string) :=
  try_catch (getItem STORAGE_KEY) (ret None).

(** The [consent] value computed by a render of [useConsent(expiryDays)]
    from the snapshot [raw] ([window] is defined in a browser). *)
Definition useConsent_consent (expiryDays : Q) (now : Z) (raw : option string)
  : js Storage (option string) :=
  let* isValid := (if negb (truthy raw) then ret false
                   else let* expired := isExpired expiryDays now in
                        ret (negb expired)) in
  ret (if isValid then raw else None).

(** ** The page and the banner instance *)

(** Values of the objects handed to [gtag]. *)
Inductive jsval : Type :=
| VStr (s : string)
| VNum (n : Z)
| VBool (b : bool)
| VArr (l : list string).

(** An object literal: its keys in insertion order. *)
Definition jsobj : Type := list (string * jsval).

Inductive garg : Type :=
| AStr (s : string)
| ABool (b : bool)
| AObj (o : jsobj).

(** The [arguments] of one call of [gtag]. *)
Definition gcall : Type := list garg.

(** What [window.gtag] is bound to: a function of the host page, or the
    closure installed by the banner, which pushes its arguments on
    [window.dataLayer]. *)
Inductive gtag_fn : Type := HostGtag | OwnGtag.

(** Effects on the host page, in the order they happen. *)
Inductive event : Type :=
| EvGtag (args : gcall)           (* window.gtag(...args) *)
| EvCallback (level : ConsentLevel) (* onConsent(level) *)
| EvDispatch (name : string)      (* window.dispatchEvent(new Event(name)) *)
| EvInject (markup : string)      (* the scripts of markup appended to head *)
| EvReload.                       (* window.location.reload() *)

(** Subscribers of the "storage" and consent-change events of [window], in
    registration order: the banner's handler and [useConsent] consumers,
    each with its expiry window and the snapshot its change callback last
    read (the render that follows reads the store again). *)
Inductive listener : Type :=
| LBanner
| LHook (expiry : Q) (raw : option string).

Definition is_banner (l : listener) : bool :=
  if l is LBanner then true else false.

(** React state of the banner ([useState]). *)
Record BannerState : Type := {
  mounted : bool;
  showBanner : bool;
  isVisible : bool;
  consent : option string
}.

#[global] Instance BannerState_eq_dec : EqDecision BannerState.
Proof. solve_decision. Defined.

Definition initial_state : BannerState :=
  {| mounted := false; showBanner := false; isVisible := false;
     consent := None |}.

Record World : Type := {
  clock : Z;                       (* Date.now() *)
  storage : Storage;               (* localStorage *)
  dataLayer : option (list gcall); (* window.dataLayer *)
  gtag : option gtag_fn;           (* window.gtag *)
  listeners : list listener;
  timers : list ConsentLevel;      (* pending exit timeouts of handleConsent *)
  trace : list event;
  st : BannerState;                (* state of the last committed render *)
  pending : BannerState;           (* st with the queued updates applied *)
  scriptsInjectedRef : bool;
  consentModeInitRef : bool
}.

Definition set_clock (v : Z) (w : World) : World :=
  {| clock := v; storage := storage w; dataLayer := dataLayer w;
     gtag := gtag w; listeners := listeners w; timers := timers w;
     trace := trace w; st := st w; pending := pending w;
     scriptsInjectedRef := scriptsInjectedRef w;
     consentModeInitRef := consentModeInitRef w |}.

Definition set_storage (v : Storage) (w : World) : World :=
  {| clock := clock w; storage := v; dataLayer := dataLayer w;
     gtag := gtag w; listeners := listeners w; timers := timers w;
     trace := trace w; st := st w; pending := pending w;
     scriptsInjectedRef := scriptsInjectedRef w;
     consentModeInitRef := consentModeInitRef w |}.

Definition set_dataLayer (v : option (list gcall)) (w : World) : World :=
  {| clock := clock w; storage := storage w; dataLayer := v;
     gtag := gtag w; listeners := listeners w; timers := timers w;
     trace := trace w; st := st w; pending := pending w;
     scriptsInjectedRef := scriptsInjectedRef w;
     consentModeInitRef := consentModeInitRef w |}.

Definition set_gtag (v : option gtag_fn) (w : World) : World :=
  {| clock := clock w; storage := storage w; dataLayer := dataLayer w;
     gtag := v; listeners := listeners w; timers := timers w;
     trace := trace w; st := st w; pending := pending w;
     scriptsInjectedRef := scriptsInjectedRef w;
     consentModeInitRef := consentModeInitRef w |}.

Definition set_listeners (v : list listener) (w : World) : World :=
  {| clock := clock w; storage := storage w; dataLayer := dataLayer w;
     gtag := gtag w; listeners := v; timers := timers w;
     trace := trace w; st := st w; pending := pending w;
     scriptsInjectedRef := scriptsInjectedRef w;
     consentModeInitRef := consentModeInitRef w |}.

Definition set_timers (v : list ConsentLevel) (w : World) : World :=
  {| clock := clock w; storage := storage w; dataLayer := dataLayer w;
     gtag := gtag w; listeners := listeners w; timers := v;
     trace := trace w; st := st w; pending := pending w;
     scriptsInjectedRef := scriptsInjectedRef w;
     consentModeInitRef := consentModeInitRef w |}.

Definition set_trace (v : list event) (w : World) : World :=
  {| clock := clock w; storage := storage w; dataLayer := dataLayer w;
     gtag := gtag w; listeners := listeners w; timers := timers w;
     trace := v; st := st w; pending := pending w;
     scriptsInjectedRef := scriptsInjectedRef w;
     consentModeInitRef := consentModeInitRef w |}.

Definition set_st (v : BannerState) (w : World) : World :=
  {| clock := clock w; storage := storage w; dataLayer := dataLayer w;
     gtag := gtag w; listeners := listeners w; timers := timers w;
     trace := trace w; st := v; pending := pending w;
     scriptsInjectedRef := scriptsInjectedRef w;
     consentModeInitRef := consentModeInitRef w |}.

Definition set_pending (v : BannerState) (w : World) : World :=
  {| clock := clock w; storage := storage w; dataLayer := dataLayer w;
     gtag := gtag w; listeners := listeners w; timers := timers w;
     trace := trace w; st := st w; pending := v;
     scriptsInjectedRef := scriptsInjectedRef w;
     consentModeInitRef := consentModeInitRef w |}.

Definition set_scriptsInjectedRef (v : bool) (w : World) : World :=
  {| clock := clock w; storage := storage w; dataLayer := dataLayer w;
     gtag := gtag w; listeners := listeners w; timers := timers w;
     trace := trace w; st := st w; pending := pending w;
     scriptsInjectedRef := v;
     consentModeInitRef := consentModeInitRef w |}.

Definition set_consentModeInitRef (v : bool) (w : World) : World :=
  {| clock := clock w; storage := storage w; dataLayer := dataLayer w;
     gtag := gtag w; listeners := listeners w; timers := timers w;
     trace := trace w; st := st w; pending := pending w;
     scriptsInjectedRef := scriptsInjectedRef w;
     consentModeInitRef := v |}.

(** Reading and writing the world from a computation. *)
Definition gets {A} (f : World → A) : js World A := λ w, (Normal (f w), w).
Definition modify (f : World → World) : js World unit := λ w, (Normal (), f w).

(** [Date.now()] *)
Definition Date_now : js World Z := gets clock.

(** An operation on [localStorage]. *)
Definition localStorage {A} (m : js Storage A) : js World A :=
  λ w, let '(r, s) := m (storage w) in (r, set_storage s w).

Definition emit (e : event) : js World unit :=
  modify (λ w, set_trace (trace w ++ [e]) w).

(** A call [gtag(...args)] through the binding [f] of [window.gtag].  The
    banner's own closure pushes [arguments] on [window.dataLayer], which the
    consent-mode effect has established before installing it. *)
Definition call_gtag (f : gtag_fn) (args : gcall) : js World unit :=
  emit (EvGtag args) >>
  match f with
  | OwnGtag => modify (λ w, set_dataLayer ((λ q, q ++ [args]) <$> dataLayer w) w)
  | HostGtag => ret ()
  end.

(** The state setters of [useState]: updates are queued, and the last
    value set for a variable wins at the next render. *)
Definition setMounted (b : bool) : js World unit :=
  modify (λ w, set_pending
    {| mounted := b; showBanner := showBanner (pending w);
       isVisible := isVisible (pending w); consent := consent (pending w) |} w).

Definition setShowBanner (b : bool) : js World unit :=
  modify (λ w, set_pending
    {| mounted := mounted (pending w); showBanner := b;
       isVisible := isVisible (pending w); consent := consent (pending w) |} w).

Definition setIsVisible (b : bool) : js World unit :=
  modify (λ w, set_pending
    {| mounted := mounted (pending w); showBanner := showBanner (pending w);
       isVisible := b; consent := consent (pending w) |} w).

Definition setConsentState (c : option string) : js World unit :=
  modify (λ w, set_pending
    {| mounted := mounted (pending w); showBanner := showBanner (pending w);
       isVisible := isVisible (pending w); consent := c |} w).

(** ** CookieConsent.tsx: the banner component *)

(** The props the behaviour depends on, with their defaults resolved
    (presentation props are left out).  [onConsent] says whether the host
    supplied the callback. *)
Record Props : Type := {
  expiryDays : Q;
  showReconsent : bool;
  onConsent : bool;
  consentMode : bool;
  adsDataRedaction : bool;
  urlPassthrough : bool;
  consentModeRegion : option (list string);
  waitForUpdate : Z;
  scripts : string;
  reloadOnConsent : bool
}.

(** The defaults of the destructured props. *)
Definition default_props : Props :=
  {| expiryDays := inject_Z DEFAULT_EXPIRY_DAYS; showReconsent := true;
     onConsent := false; consentMode := false; adsDataRedaction := false;
     urlPassthrough := false; consentModeRegion := None;
     waitForUpdate := DEFAULT_WAIT_FOR_UPDATE; scripts := "";
     reloadOnConsent := false |}.

Definition granted_or_denied (granted : bool) : jsval :=
  VStr (if granted then "granted" else "denied").

(** The object of the "update" call: the four tracking categories. *)
Definition update_payload (granted : bool) : jsobj :=
  [ ("ad_storage", granted_or_denied granted);
    ("ad_user_data", granted_or_denied granted);
    ("ad_personalization", granted_or_denied granted);
    ("analytics_storage", granted_or_denied granted) ].

Definition consent_update (granted : bool) : gcall :=
  [AStr "consent"; AStr "update"; AObj (update_payload granted)].

(** [defaultConsent] of the consent-mode effect: [region] is assigned last,
    and only for a non-empty list. *)
Definition defaultConsent (p : Props) : jsobj :=
  [ ("ad_storage", VStr "denied");
    ("ad_user_data", VStr "denied");
    ("ad_personalization", VStr "denied");
    ("analytics_storage", VStr "denied");
    ("functionality_storage", VStr "granted");
    ("personalization_storage", VStr "granted");
    ("security_storage", VStr "granted");
    ("wait_for_update", VNum (waitForUpdate p)) ]
  ++ match consentModeRegion p with
     | Some (r :: rs) => [("region", VArr (r :: rs))]
     | _ => []
     end.

(** The handler the banner subscribes to the consent-change and "storage"
    events; [showBanner] is the value of the render that subscribed it. *)
Definition banner_listener (p : Props) : js World unit :=
  let* now := Date_now in
  let* stored := localStorage (getStoredConsent (expiryDays p) now) in
  setConsentState stored >>
  let* cur := gets st in
  if negb (truthy stored) && negb (showBanner cur)
  then setIsVisible false >> setShowBanner true
  else ret ().

(** Listeners run in registration order; the change callback of a
    [useConsent] consumer reads a fresh snapshot. *)
Fixpoint notify (p : Props) (ls : list listener) : js World (list listener) :=
  match ls with
  | [] => ret []
  | LBanner :: r =>
      banner_listener p >>
      let* r' := notify p r in ret (LBanner :: r')
  | LHook e _ :: r =>
      let* raw := localStorage getSnapshot in
      let* r' := notify p r in ret (LHook e raw :: r')
  end.

Definition fire (p : Props) : js World unit :=
  let* ls := gets listeners in
  let* ls' := notify p ls in
  modify (set_listeners ls').

(** [window.dispatchEvent(new Event(name))] *)
Definition dispatchEvent (p : Props) (name : string) : js World unit :=
  emit (EvDispatch name) >>
  if bool_decide (name = CONSENT_CHANGE_EVENT) then fire p else ret ().

(** "Initialize on mount", dependencies [expiryDays]. *)
Definition effect_init (p : Props) : js World unit :=
  setMounted true >>
  let* now := Date_now in
  let* stored := localStorage (getStoredConsent (expiryDays p) now) in
  setConsentState stored >>
  if negb (truthy stored) then setShowBanner true else ret ().

(** [removeEventListener] of the handler the banner subscribed last. *)
Fixpoint unsubscribe (ls : list listener) : list listener :=
  match ls with
  | [] => []
  | l :: r =>
      if is_banner l && negb (existsb is_banner r) then r
      else l :: unsubscribe r
  end.

(** "Sync with external consent changes", dependencies [mounted, expiryDays,
    showBanner].  The cleanup of the previous run comes first: it removes
    the handler that run subscribed, which it did when the render was
    mounted; there is no cleanup before the first run.  The handler is then
    subscribed when mounted. *)
Definition effect_sync (first : bool) (prev : BannerState) : js World unit :=
  (if negb first && mounted prev
   then modify (λ w, set_listeners (unsubscribe (listeners w)) w)
   else ret ()) >>
  let* cur := gets st in
  if negb (mounted cur) then ret ()
  else modify (λ w, set_listeners (listeners w ++ [LBanner]) w).

(** "Google Consent Mode v2", dependencies [consentMode, consent, mounted,
    waitForUpdate, consentModeRegion, adsDataRedaction, urlPassthrough]. *)
Definition effect_consentMode (p : Props) : js World unit :=
  let* cur := gets st in
  if negb (consentMode p) || negb (mounted cur) then ret ()
  else
    modify (λ w, set_dataLayer (Some (default [] (dataLayer w))) w) >>
    let* g := gets gtag in
    (if g is None then modify (set_gtag (Some OwnGtag)) else ret ()) >>
    let* g := gets gtag in
    let gtag := call_gtag (default OwnGtag g) in
    let* init := gets consentModeInitRef in
    if init then ret ()
    else
      modify (set_consentModeInitRef true) >>
      gtag [AStr "consent"; AStr "default"; AObj (defaultConsent p)] >>
      (if adsDataRedaction p
       then gtag [AStr "set"; AStr "ads_data_redaction"; ABool true]
       else ret ()) >>
      (if urlPassthrough p
       then gtag [AStr "set"; AStr "url_passthrough"; ABool true]
       else ret ()) >>
      (if bool_decide (consent cur = Some "all")
       then gtag (consent_update true)
       else ret ()).

(** "Script Vault", dependencies [scripts, consent, mounted]. *)
Definition effect_scripts (p : Props) : js World unit :=
  let* cur := gets st in
  let* injected := gets scriptsInjectedRef in
  if negb (truthy (Some (scripts p)))
     || negb (bool_decide (consent cur = Some "all"))
     || negb (mounted cur) || injected
  then ret ()
  else modify (set_scriptsInjectedRef true) >> emit (EvInject (scripts p)).

(** [handleConsent] *)
Definition handleConsent (p : Props) (level : ConsentLevel) : js World unit :=
  try_catch
    (localStorage (setItem STORAGE_KEY (level_str level)) >>
     let* now := Date_now in
     localStorage (setItem STORAGE_DATE_KEY (toString now)))
    (ret ()) >>
  setConsentState (Some (level_str level)) >>
  setIsVisible false >>
  (if consentMode p then
     let* g := gets gtag in
     match g with
     | Some f => call_gtag f (consent_update (bool_decide (level = all)))
     | None => ret ()
     end
   else ret ()) >>
  (if onConsent p then emit (EvCallback level) else ret ()) >>
  dispatchEvent p CONSENT_CHANGE_EVENT >>
  modify (λ w, set_timers (timers w ++ [level]) w).

(** The callback [handleConsent] schedules with [setTimeout(.., 400)]. *)
Definition exit_timeout (p : Props) (level : ConsentLevel) : js World unit :=
  setShowBanner false >>
  if reloadOnConsent p && bool_decide (level = all)
     && truthy (Some (scripts p))
  then emit EvReload else ret ().

(** [handleReconsent] *)
Definition handleReconsent (p : Props) : js World unit :=
  try_catch
    (localStorage (removeItem STORAGE_KEY) >>
     localStorage (removeItem STORAGE_DATE_KEY))
    (ret ()) >>
  setConsentState None >>
  setIsVisible false >>
  setShowBanner true >>
  modify (set_scriptsInjectedRef false) >>
  dispatchEvent p CONSENT_CHANGE_EVENT.

(** ** use-consent.ts: [resetConsent] and [setConsent] of the hook *)

Definition resetConsent (p : Props) : js World unit :=
  try_catch
    (localStorage (removeItem STORAGE_KEY) >>
     localStorage (removeItem STORAGE_DATE_KEY))
    (ret ()) >>
  dispatchEvent p CONSENT_CHANGE_EVENT.

Definition setConsent (p : Props) (level : ConsentLevel) : js World unit :=
  try_catch
    (localStorage (setItem STORAGE_KEY (level_str level)) >>
     let* now := Date_now in
     localStorage (setItem STORAGE_DATE_KEY (toString now)))
    (ret ()) >>
  dispatchEvent p CONSENT_CHANGE_EVENT.

(** [subscribe] of a new [useConsent(expiry)] consumer, with its first
    snapshot. *)
Definition subscribe (expiry : Q) : js World unit :=
  let* raw := localStorage getSnapshot in
  modify (λ w, set_listeners (listeners w ++ [LHook expiry raw]) w).

(** ** Renders and effects *)

Definition changed {A} `{EqDecision A} (f : BannerState → A)
    (prev cur : BannerState) : bool :=
  bool_decide (f prev ≠ f cur).

(** The effects of a committed render, in source order; an effect runs on
    the first render and whenever one of its dependencies differs from the
    previous render (the props are those of the mount). *)
Definition run_effects (p : Props) (first : bool) (prev : BannerState)
  : js World unit :=
  let* cur := gets st in
  (if first then effect_init p else ret ()) >>
  (if first || changed mounted prev cur || changed showBanner prev cur
   then effect_sync first prev else ret ()) >>
  (if first || changed consent prev cur || changed mounted prev cur
   then effect_consentMode p else ret ()) >>
  (if first || changed consent prev cur || changed mounted prev cur
   then effect_scripts p else ret ()).

(** The queued state updates are rendered and committed; only
    [effect_init], which runs on the first render alone, sets state. *)
Definition commit (p : Props) : js World unit :=
  let* prev := gets st in
  let* next := gets pending in
  if bool_decide (prev = next) then ret ()
  else modify (set_st next) >> run_effects p false prev.

(** What can happen to a mounted page. *)
Inductive action : Type :=
| ActMount                                (* first render of the banner *)
| ActClick (level : ConsentLevel)         (* accept-all / necessary-only *)
| ActEscape                               (* keydown Escape *)
| ActReconsent                            (* the reconsent button *)
| ActExitTimer                            (* the oldest exit timeout fires *)
| ActAnimFrame                            (* the second animation frame *)
| ActClock (t : Z)                        (* time passes *)
| ActStorageEvent (m : gmap string string) (* another tab changed the store *)
| ActHookSubscribe (expiry : Q)           (* a useConsent consumer mounts *)
| ActHookSet (level : ConsentLevel)       (* useConsent().setConsent(level) *)
| ActHookReset.                           (* useConsent().resetConsent() *)

(** An action can happen when the element or callback it goes through
    exists in the last committed render. *)
Definition enabled (p : Props) (a : action) (w : World) : bool :=
  match a with
  | ActMount => negb (mounted (st w))
  | ActClick _ | ActEscape | ActAnimFrame =>
      mounted (st w) && showBanner (st w)
  | ActReconsent =>
      mounted (st w) && negb (showBanner (st w))
      && bool_decide (consent (st w) ≠ None) && showReconsent p
  | ActExitTimer => bool_decide (timers w ≠ [])
  | _ => true
  end.

Definition handle (p : Props) (a : action) : js World unit :=
  match a with
  | ActMount => run_effects p true initial_state
  | ActClick level => handleConsent p level
  | ActEscape => handleConsent p necessary
  | ActReconsent => handleReconsent p
  | ActExitTimer =>
      let* ts := gets timers in
      match ts with
      | level :: rest => modify (set_timers rest) >> exit_timeout p level
      | [] => ret ()
      end
  | ActAnimFrame => setIsVisible true
  | ActClock t => modify (set_clock t)
  | ActStorageEvent m =>
      modify (λ w, set_storage (with_items m (storage w)) w) >> fire p
  | ActHookSubscribe expiry => subscribe expiry
  | ActHookSet level => setConsent p level
  | ActHookReset => resetConsent p
  end.

Definition step (p : Props) (a : action) (w : World) : World :=
  if enabled p a w then exec (handle p a >> commit p) w else w.

Definition run (p : Props) (acts : list action) (w : World) : World :=
  foldl (λ w a, step p a w) w acts.

(** A page before the banner's first render. *)
Definition page (now : Z) (s : Storage) (dl : option (list gcall))
    (g : option gtag_fn) (ls : list listener) : World :=
  {| clock := now; storage := s; dataLayer := dl; gtag := g;
     listeners := ls; timers := []; trace := [];
     st := initial_state; pending := initial_state;
     scriptsInjectedRef := false; consentModeInitRef := false |}.

(** Observations on a trace. *)
Definition gtag_calls (tr : list event) : list gcall :=
  omap (λ e, if e is EvGtag c then Some c else None) tr.

Definition is_inject (e : event) : bool :=
  if e is EvInject _ then true else false.

Definition injections (tr : list event) : nat :=
  length (List.filter is_inject tr).

(** * consent-mode.ts *)

(** ** [JSON.stringify] on the values the generator serializes

    Strings are sequences of code units below 256; numbers are integers
    (below 10^21 in magnitude, where JavaScript prints all their digits). *)

Definition dquote : string := String "034"%char EmptyString.
Definition backslash : string := String "092"%char EmptyString.
Definition newline : string := String "010"%char EmptyString.

Definition hex_digit (n : N) : ascii :=
  match n with
  | 0 => "0" | 1 => "1" | 2 => "2" | 3 => "3" | 4 => "4" | 5 => "5"
  | 6 => "6" | 7 => "7" | 8 => "8" | 9 => "9" | 10 => "a" | 11 => "b"
  | 12 => "c" | 13 => "d" | 14 => "e" | _ => "f"
  end%char%N.

(** The escape of one code unit ([QuoteJSONString]). *)
Definition json_escape (a : ascii) : string :=
  let n := N_of_ascii a in
  if (n =? 34)%N then backslash +:+ dquote
  else if (n =? 92)%N then backslash +:+ backslash
  else if (n =? 8)%N then backslash +:+ "b"
  else if (n =? 12)%N then backslash +:+ "f"
  else if (n =? 10)%N then backslash +:+ "n"
  else if (n =? 13)%N then backslash +:+ "r"
  else if (n =? 9)%N then backslash +:+ "t"
  else if (n <? 32)%N
       then backslash +:+ "u00"
            +:+ String (hex_digit (n / 16)) (String (hex_digit (n mod 16)) "")
  else String a "".

Fixpoint json_escape_all (s : string) : string :=
  match s with
  | EmptyString => ""
  | String a r => json_escape a +:+ json_escape_all r
  end.

Definition json_string (s : string) : string :=
  dquote +:+ json_escape_all s +:+ dquote.

Definition json_value (v : jsval) : string :=
  match v with
  | VStr s => json_string s
  | VNum n => toString n
  | VBool b => if b then "true" else "false"
  | VArr l => "[" +:+ String.concat "," (json_string <$> l) +:+ "]"
  end.

Definition JSON_stringify (o : jsobj) : string :=
  "{" +:+ String.concat ","
            ((λ kv, json_string kv.1 +:+ ":" +:+ json_value kv.2) <$> o)
  +:+ "}".

(** ** The options and the generator *)

(** ['granted' | 'denied'] *)
Inductive consent_value : Type := granted | denied.

Definition consent_value_str (v : consent_value) : string :=
  match v with granted => "granted" | denied => "denied" end.

(** [interface ConsentModeDefaults]: every field is optional. *)
Record ConsentModeDefaults : Type := {
  analytics_storage : option consent_value;
  ad_storage : option consent_value;
  ad_user_data : option consent_value;
  ad_personalization : option consent_value;
  functionality_storage : option consent_value;
  personalization_storage : option consent_value;
  security_storage : option consent_value;
  wait_for_update : option Z;
  region : option (list string);
  ads_data_redaction : option bool;
  url_passthrough : option bool;
  expiry_days : option Z
}.

(** The empty options object. *)
Definition no_options : ConsentModeDefaults :=
  {| analytics_storage := None; ad_storage := None; ad_user_data := None;
     ad_personalization := None; functionality_storage := None;
     personalization_storage := None; security_storage := None;
     wait_for_update := None; region := None; ads_data_redaction := None;
     url_passthrough := None; expiry_days := None |}.

(** [defaultObj]: [region] is assigned last, and only for a non-empty
    list. *)
Definition defaultObj (opts : ConsentModeDefaults) : jsobj :=
  [ ("ad_storage", VStr (consent_value_str (default denied (ad_storage opts))));
    ("ad_user_data",
       VStr (consent_value_str (default denied (ad_user_data opts))));
    ("ad_personalization",
       VStr (consent_value_str (default denied (ad_personalization opts))));
    ("analytics_storage",
       VStr (consent_value_str (default denied (analytics_storage opts))));
    ("functionality_storage",
       VStr (consent_value_str (default granted (functionality_storage opts))));
    ("personalization_storage",
       VStr (consent_value_str
               (default granted (personalization_storage opts))));
    ("security_storage",
       VStr (consent_value_str (default granted (security_storage opts))));
    ("wait_for_update", VNum (default 500 (wait_for_update opts))) ]
  ++ match region opts with
     | Some (r :: rs) => [("region", VArr (r :: rs))]
     | _ => []
     end.

Definition setCalls (opts : ConsentModeDefaults) : list string :=
  (if default false (ads_data_redaction opts)
   then ["gtag('set','ads_data_redaction',true);"] else [])
  ++ (if default false (url_passthrough opts)
      then ["gtag('set','url_passthrough',true);"] else []).

(** The lines of the check of the stored record, for the resolved expiry
    window. *)
Definition check_lines (expiry : Z) : list string :=
  [ "(function(){";
    "  try{";
    "    var c=localStorage.getItem(" +:+ json_string STORAGE_KEY +:+ ");";
    "    var d=localStorage.getItem(" +:+ json_string STORAGE_DATE_KEY +:+ ");";
    "    if(c&&d){";
    "      var age=(Date.now()-parseInt(d,10))/(1000*60*60*24);";
    "      if(age<=" +:+ toString expiry +:+ "&&c==='all'){";
    "        gtag('consent','update',{";
    "          'ad_storage':'granted',";
    "          'ad_user_data':'granted',";
    "          'ad_personalization':'granted',";
    "          'analytics_storage':'granted'";
    "        });";
    "      }";
    "    }";
    "  }catch(e){}";
    "})();" ].

(** The array the generator joins. *)
Definition script_lines (options : option ConsentModeDefaults) : list string :=
  let opts := default no_options options in
  let expiryDays := default DEFAULT_EXPIRY_DAYS (expiry_days opts) in
  [ "window.dataLayer=window.dataLayer||[];";
    "function gtag(){dataLayer.push(arguments);}";
    "gtag('consent','default'," +:+ JSON_stringify (defaultObj opts) +:+ ");" ]
  ++ setCalls opts
  ++ check_lines expiryDays.

(** [getConsentModeScript(options?)] *)
Definition getConsentModeScript (options : option ConsentModeDefaults)
  : string :=
  String.concat newline (script_lines options).

(** ** The program the generated text denotes

    The embedding of the emitted JavaScript, statement by statement: the
    queue, the declaration of [gtag] (which pushes its arguments on the
    queue), the "default" call with the serialized object, the optional
    "set" calls, and the check of the stored record. *)

Definition inline_check (expiry : Z) : js World unit :=
  try_catch
    (let* c := localStorage (getItem STORAGE_KEY) in
     let* d := localStorage (getItem STORAGE_DATE_KEY) in
     if truthy c && truthy d then
       let* now := Date_now in
       let age := age_days now (default "" d) in
       if le age (inject_Z expiry) && bool_decide (c = Some "all")
       then call_gtag OwnGtag
              [ AStr "consent"; AStr "update";
                AObj [ ("ad_storage", VStr "granted");
                       ("ad_user_data", VStr "granted");
                       ("ad_personalization", VStr "granted");
                       ("analytics_storage", VStr "granted") ] ]
       else ret ()
     else ret ())
    (ret ()).

Definition run_script (options : option ConsentModeDefaults) : js World unit :=
  let opts := default no_options options in
  let expiryDays := default DEFAULT_EXPIRY_DAYS (expiry_days opts) in
  modify (λ w, set_dataLayer (Some (default [] (dataLayer w))) w) >>
  modify (set_gtag (Some OwnGtag)) >>
  call_gtag OwnGtag [AStr "consent"; AStr "default"; AObj (defaultObj opts)] >>
  (if default false (ads_data_redaction opts)
   then call_gtag OwnGtag [AStr "set"; AStr "ads_data_redaction"; ABool true]
   else ret ()) >>
  (if default false (url_passthrough opts)
   then call_gtag OwnGtag [AStr "set"; AStr "url_passthrough"; ABool true]
   else ret ()) >>
  inline_check expiryDays.

(** ** The JavaScript of the generated text

    The text [getConsentModeScript] returns is a program: its abstract
    syntax, the concrete syntax it is written in, and an interpreter. *)

Module Script.

#[local] Unset Elimination Schemes.

(** Data written as JSON text. *)
Inductive json : Type :=
| JString (s : string)
| JNumber (n : Z)
| JBoolean (b : bool)
| JArray (l : list json)
| JObject (fields : list (string * json)).



(** *** Concrete syntax *)

Definition quote_char (a : ascii) : string :=
  match N_of_ascii a with
  | 8 => backslash +:+ "b"
  | 9 => backslash +:+ "t"
  | 10 => backslash +:+ "n"
  | 12 => backslash +:+ "f"
  | 13 => backslash +:+ "r"
  | 34 => backslash +:+ dquote
  | 92 => backslash +:+ backslash
  | n =>
      if (n <? 32)%N
      then backslash +:+ "u00"
           +:+ String (hex_digit (n / 16)) (String (hex_digit (n mod 16)) "")
      else String a ""
  end%N.

Fixpoint quote_chars (s : string) : string :=
  match s with
  | EmptyString => ""
  | String a r => quote_char a +:+ quote_chars r
  end.

(** A JSON string. *)
Definition quoted (s : string) : string := dquote +:+ quote_chars s +:+ dquote.

Fixpoint print_json (j : json) : string :=
  match j with
  | JString s => quoted s
  | JNumber n => pretty n
  | JBoolean b => if b then "true" else "false"
  | JArray l => "[" +:+ String.concat "," (print_json <$> l) +:+ "]"
  | JObject fs =>
      "{" +:+ String.concat ","
                ((λ kv, quoted kv.1 +:+ ":" +:+ print_json kv.2) <$> fs)
      +:+ "}"
  end.








(** *** The program of [getConsentModeScript] *)

Definition category (v : consent_value) : json :=
  JString (match v with granted => "granted" | denied => "denied" end).

(** The data of the "default" call: the seven categories and the grace
    period, then the region list when it is not empty. *)
Definition settings (opts : ConsentModeDefaults) : list (string * json) :=
  [ ("ad_storage", category (default denied (ad_storage opts)));
    ("ad_user_data", category (default denied (ad_user_data opts)));
    ("ad_personalization",
       category (default denied (ad_personalization opts)));
    ("analytics_storage",
       category (default denied (analytics_storage opts)));
    ("functionality_storage",
       category (default granted (functionality_storage opts)));
    ("personalization_storage",
       category (default granted (personalization_storage opts)));
    ("security_storage",
       category (default granted (security_storage opts)));
    ("wait_for_update", JNumber (default 500 (wait_for_update opts))) ].

Definition region_field (r : option (list string)) : list (string * json) :=
  match r with
  | Some (x :: l) => [("region", JArray (JString <$> x :: l))]
  | _ => []
  end.

Definition payload (opts : ConsentModeDefaults) : json :=
  JObject (settings opts ++ region_field (region opts)).






(** *** Meaning

    An interpreter for the constructs above, on the page of the banner.
    The names [window], [dataLayer], [gtag], [localStorage], [Date] and
    [parseInt] are those of the page; a function declaration takes effect
    where it stands (no program here calls a function before declaring
    it).  [None] is returned for what is outside this fragment. *)


#[local] Set Elimination Schemes.





















End Script.

(** The safe integers: the doubles that are integers with every digit
    exact, which JavaScript prints with all their digits. *)
Definition safe_integer (n : Z) : Prop := (Z.abs n ≤ 2 ^ 53)%Z.


(** ** CookieConsent.tsx: language and texts *)

(** [type Language = "fr" | "en" | "auto"] *)
Inductive Language : Type := fr | en | auto.

#[global] Instance Language_eq_dec : EqDecision Language.
Proof. solve_decision. Defined.

(** [detectLanguage]: [navigator] is [None] where it is not defined, and
    [navigator.language] may be undefined; the result is "fr" or "en". *)
Definition detectLanguage (navigator : option (option string)) : Language :=
  match navigator with
  | None => fr
  | Some language =>
      let lang := String.substring 0 2 <$> language in
      if bool_decide (lang = Some "en") then en else fr
  end.

(** [resolvedLang] of a render. *)
Definition resolvedLang (lang : Language) (mounted : bool)
    (navigator : option (option string)) : Language :=
  if bool_decide (lang = auto)
  then (if mounted then detectLanguage navigator else fr)
  else lang.

(** The six texts of the banner: [interface ConsentTexts] when every field
    is optional ([F := option string]), an entry of [DEFAULT_TEXTS] and the
    [texts] of a render when every field is a string. *)
Record TextsOf (F : Type) : Type := {
  title : F;
  message : F;
  accept : F;
  reject : F;
  privacy : F;
  powered : F
}.
Arguments title {F} _.
Arguments message {F} _.
Arguments accept {F} _.
Arguments reject {F} _.
Arguments privacy {F} _.
Arguments powered {F} _.

Definition ConsentTexts : Type := TextsOf (option string).

(** The code units U+00E9 and U+00E0. *)
Definition e_acute : string := String "233"%char EmptyString.
Definition a_grave : string := String "224"%char EmptyString.

(** [DEFAULT_TEXTS] of defaults.ts. *)
Definition DEFAULT_TEXTS_fr : TextsOf string :=
  {| title := "Respect de votre vie priv" +:+ e_acute +:+ "e";
     message :=
       "Ce site utilise des t" +:+ e_acute
       +:+ "moins (cookies) pour am" +:+ e_acute
       +:+ "liorer votre exp" +:+ e_acute
       +:+ "rience. Conform" +:+ e_acute +:+ "ment " +:+ a_grave
       +:+ " la Loi 25 du Qu" +:+ e_acute
       +:+ "bec, nous demandons votre consentement.";
     accept := "Tout accepter";
     reject := "N" +:+ e_acute +:+ "cessaires seulement";
     privacy := "Politique de confidentialit" +:+ e_acute;
     powered := "Propuls" +:+ e_acute +:+ " par" |}.

Definition DEFAULT_TEXTS_en : TextsOf string :=
  {| title := "Your Privacy Matters";
     message :=
       "This website uses cookies to improve your experience. In compliance with Quebec's Law 25, we ask for your consent.";
     accept := "Accept All";
     reject := "Necessary Only";
     privacy := "Privacy Policy";
     powered := "Powered by" |}.

(** [DEFAULT_TEXTS[l]]: the object has the keys "fr" and "en". *)
Definition DEFAULT_TEXTS (l : Language) : option (TextsOf string) :=
  match l with
  | fr => Some DEFAULT_TEXTS_fr
  | en => Some DEFAULT_TEXTS_en
  | auto => None
  end.

(** [a || b] on an optional string [a]. *)
Definition or_else (a : option string) (b : string) : string :=
  if truthy a then default "" a else b.

(** The [texts] of a render whose resolved language is [l]. *)
Definition resolve_texts (l : Language) (textsFr textsEn : option ConsentTexts)
  : TextsOf string :=
  let defaults := default DEFAULT_TEXTS_fr (DEFAULT_TEXTS l) in
  let customTexts := if bool_decide (l = fr) then textsFr else textsEn in
  {| title := or_else (customTexts ≫= title) (title defaults);
     message := or_else (customTexts ≫= message) (message defaults);
     accept := or_else (customTexts ≫= accept) (accept defaults);
     reject := or_else (customTexts ≫= reject) (reject defaults);
     privacy := or_else (customTexts ≫= privacy) (privacy defaults);
     powered := or_else (customTexts ≫= powered) (powered defaults) |}.

(** ** CookieConsent.tsx: the injected style sheet *)

(** [String.prototype.trim] on code units below 256: the white space and
    line terminators removed are those [parseInt] skips. *)
Fixpoint trim_end (s : string) : string :=
  match s with
  | EmptyString => EmptyString
  | String a r =>
      match trim_end r with
      | EmptyString => if is_space a then EmptyString else String a EmptyString
      | r' => String a r'
      end
  end.

Definition trim (s : string) : string := trim_end (skip_space s).

(** The rules of the template of [buildInjectCss], up to the line of the
    custom rules. *)
Definition css_rules (brandColor : string) (glassmorphism : bool) : string :=
  "#loi25-banner *{box-sizing:border-box;margin:0;padding:0;}" +:+ newline
  +:+ "#loi25-banner button{cursor:pointer;transition:transform .15s,opacity .15s;}"
  +:+ newline
  +:+ "#loi25-banner button:hover{transform:translateY(-1px);opacity:.9;}"
  +:+ newline
  +:+ "#loi25-banner button:focus-visible,#loi25-banner a:focus-visible{outline:2px solid "
  +:+ brandColor +:+ ";outline-offset:2px;}" +:+ newline
  +:+ (if glassmorphism
       then "#loi25-banner.loi25-glass{backdrop-filter:blur(16px) saturate(1.8);-webkit-backdrop-filter:blur(16px) saturate(1.8);}"
       else "")
  +:+ newline
  +:+ "#loi25-reconsent{transition:transform .2s,opacity .3s;}" +:+ newline
  +:+ "#loi25-reconsent:hover{transform:scale(1.1)!important;}" +:+ newline
  +:+ "@media(max-width:600px){" +:+ newline
  +:+ "  #loi25-banner .loi25-inner{padding:16px!important;}" +:+ newline
  +:+ "  #loi25-banner .loi25-btns{flex-direction:column!important;}"
  +:+ newline
  +:+ "  #loi25-banner .loi25-btns button{width:100%!important;}" +:+ newline
  +:+ "}".

(** [buildInjectCss]: the template literal opens with a line break and
    ends with the custom rules on a line of their own. *)
Definition buildInjectCss (brandColor : string) (glassmorphism : bool)
    (customCss : string) : string :=
  trim (newline +:+ css_rules brandColor glassmorphism +:+ newline
        +:+ customCss).

(** ** use-consent.ts: what a render of the hook returns *)

(** [getServerSnapshot] *)
Definition getServerSnapshot : option string := None.

(** The [consent] and [hasConsent] fields of [ConsentState]. *)
Record ConsentState : Type := {
  cs_consent : option string;
  hasConsent : bool
}.

(** A render of [useConsent(expiryDays)] in a browser: the snapshot is
    read through [getSnapshot] and validated against [isExpired]. *)
Definition useConsent (expiryDays : Q) (now : Z) : js Storage ConsentState :=
  let* raw := getSnapshot in
  let* consent := useConsent_consent expiryDays now raw in
  ret {| cs_consent := consent;
         hasConsent := bool_decide (consent ≠ None) |}.

(** * Properties *)

(** ** Rounding to doubles *)

Section Rounding.
Local Open Scope Z_scope.



Lemma round_half_even_nonneg p q : 0 < q → 0 ≤ p → 0 ≤ round_half_even p q.
Proof.
  intros Hq Hp. unfold round_half_even.
  pose proof (Z.div_pos p q Hp Hq).
  destruct (_ ?= _); [destruct (Z.even _)| |]; lia.
Qed.



Lemma INFINITY_pos : 0 < INFINITY.
Proof. reflexivity. Qed.







(** A record read at the instant of its timestamp has no age. *)
Lemma days_since_same now E : (0 <= E)%Q → (days_since now now <= E)%Q.
Proof.
  intros HE. unfold days_since, num_sub.
  destruct (infinite (number_of_Z now)) eqn:Hi.
  - by rewrite bool_decide_eq_true_2 by done.
  - assert (rounded (number_of_Z now - number_of_Z now) = 0%Q) as ->.
    { unfold rounded. unfold Qminus, Qplus, Qopp. cbn [Qnum Qden].
      replace (Qnum (number_of_Z now) * Z.pos (Qden (number_of_Z now))
               + - Qnum (number_of_Z now) * Z.pos (Qden (number_of_Z now)))
        with 0 by lia.
      reflexivity. }
    exact HE.
Qed.

(** [days_since] computes what the binary64 operations of the Standard
    Library compute: on instants a day, an hour or a millisecond apart, on
    timestamps beyond 2^53, at the ends of the range of time values, and on
    timestamps that overflow. *)
Example days_since_binary64 :
  forallb (λ '(now, t),
             match binary64_value (binary64_days now t) with
             | Some q => Qeq_bool q (days_since now t)
             | None => false
             end)
    [ (1700000000000, 1690000000000); (1700003600000, 1700000000000);
      (1700000000000, 1700000000001); (1700000000000, 1668464000000);
      (1700000000000, 1668463999999); (31536000001, 0); (1, 0); (0, 1);
      (1700000000000, -9005499308800001); (1700000000123, 2 ^ 60 + 12345);
      (8640000000000000, -8640000000000000);
      (1700000000000, 10 ^ 308); (1700000000000, 2 ^ 1024 - 2 ^ 970 - 1);
      (1700000000000, 2 ^ 1024 - 2 ^ 970); (1700000000000, 10 ^ 400);
      (1700000000000, - 10 ^ 400) ]
  = true.
Proof. vm_compute. reflexivity. Qed.

End Rounding.

(** ** A program logic for [js] computations *)

Section Logic.
Context {S : Type}.

(** From a state satisfying [P], [m] ends in a state satisfying [Q] when
    it returns and [E] when it throws. *)
Definition triple {A} (P : S → Prop) (m : js S A)
    (Q : A → S → Prop) (E : S → Prop) : Prop :=
  ∀ s, P s →
    match m s with
    | (Normal a, s') => Q a s'
    | (Thrown, s') => E s'
    end.

(** [m] keeps [I], whether it returns or throws. *)
Definition stable {A} (I : S → Prop) (m : js S A) : Prop :=
  triple I m (λ _, I) I.

Lemma triple_ret {A} (P : S → Prop) (a : A) (Q : A → S → Prop) E :
  (∀ s, P s → Q a s) → triple P (ret a) Q E.
Proof. intros H s Hs. cbn. auto. Qed.

Lemma triple_bind {A B} P (m : js S A) (k : A → js S B) Q1 Q E :
  triple P m Q1 E → (∀ a, triple (Q1 a) (k a) Q E) →
  triple P (bind m k) Q E.
Proof.
  intros Hm Hk s Hs. specialize (Hm s Hs). unfold bind.
  destruct (m s) as [[a|] s']; [by apply Hk | done].
Qed.

Lemma triple_try_catch {A} P (m h : js S A) Q E1 E :
  triple P m Q E1 → triple E1 h Q E → triple P (try_catch m h) Q E.
Proof.
  intros Hm Hh s Hs. specialize (Hm s Hs). unfold try_catch.
  destruct (m s) as [[a|] s']; [done | by apply Hh].
Qed.

Lemma triple_conseq {A} (P P' : S → Prop) (m : js S A)
    (Q Q' : A → S → Prop) (E E' : S → Prop) :
  triple P' m Q' E' → (∀ s, P s → P' s) →
  (∀ a s, Q' a s → Q a s) → (∀ s, E' s → E s) → triple P m Q E.
Proof.
  intros Hm HP HQ HE s Hs. specialize (Hm s (HP s Hs)).
  destruct (m s) as [[a|] s']; auto.
Qed.

Lemma stable_ret {A} I (a : A) : stable I (ret a).
Proof. by apply triple_ret. Qed.

Lemma stable_bind {A B} I (m : js S A) (k : A → js S B) :
  stable I m → (∀ a, stable I (k a)) → stable I (bind m k).
Proof. intros Hm Hk. eapply triple_bind; [exact Hm | exact Hk]. Qed.

Lemma stable_try_catch {A} I (m h : js S A) :
  stable I m → stable I h → stable I (try_catch m h).
Proof. intros Hm Hh. eapply triple_try_catch; [exact Hm | exact Hh]. Qed.

Lemma stable_exec {A} I (m : js S A) s : stable I m → I s → I (exec m s).
Proof.
  intros Hm Hs. specialize (Hm s Hs). unfold exec.
  by destruct (m s) as [[a|] s'].
Qed.

Lemma total_ret {A} (a : A) : total (ret (S:=S) a).
Proof. intros s. by eexists _, _. Qed.

Lemma total_bind {A B} (m : js S A) (k : A → js S B) :
  total m → (∀ a, total (k a)) → total (bind m k).
Proof.
  intros Hm Hk s. destruct (Hm s) as (a & s' & Heq).
  unfold bind. rewrite Heq. apply Hk.
Qed.

(** A [try] whose handler returns normally returns normally, whatever
    its body does. *)
Lemma total_try_catch {A} (m h : js S A) : total h → total (try_catch m h).
Proof.
  intros Hh s. unfold try_catch.
  destruct (m s) as [[a|] s']; [by eexists _, _ | apply Hh].
Qed.

Lemma total_exec {A} (m : js S A) s :
  total m → ∃ a, m s = (Normal a, exec m s).
Proof. intros Hm. destruct (Hm s) as (a & s' & Heq). exists a. unfold exec. by rewrite Heq. Qed.

End Logic.

(** ** The store *)

Lemma reliable_next_op s : reliable s → reliable (next_op s).
Proof. intros H n. apply H. Qed.

Lemma reliable_with_items m s : reliable s → reliable (with_items m s).
Proof. intros H n. apply H. Qed.

Lemma reliable_store_of m : reliable (store_of m).
Proof. by intros n. Qed.

Lemma unavailable_broken_store m : unavailable (broken_store m).
Proof. by intros n. Qed.

Lemma getItem_reliable k s :
  reliable s → getItem k s = (Normal (items s !! k), next_op s).
Proof. intros H. unfold getItem. by rewrite H. Qed.

Lemma setItem_reliable k v s :
  reliable s →
  setItem k v s = (Normal (), next_op (with_items (<[k:=v]> (items s)) s)).
Proof. intros H. unfold setItem. by rewrite H. Qed.

Lemma removeItem_reliable k s :
  reliable s →
  removeItem k s = (Normal (), next_op (with_items (delete k (items s)) s)).
Proof. intros H. unfold removeItem. by rewrite H. Qed.

Lemma getItem_unavailable k s : unavailable s → getItem k s = (Thrown, next_op s).
Proof. intros H. unfold getItem. by rewrite H. Qed.

Lemma setItem_unavailable k v s :
  unavailable s → setItem k v s = (Thrown, next_op s).
Proof. intros H. unfold setItem. by rewrite H. Qed.

Lemma removeItem_unavailable k s :
  unavailable s → removeItem k s = (Thrown, next_op s).
Proof. intros H. unfold removeItem. by rewrite H. Qed.

(** Both entries removed. *)
Definition cleared (m : gmap string string) : gmap string string :=
  delete STORAGE_DATE_KEY (delete STORAGE_KEY m).

(** Both entries written. *)
Definition written (level : ConsentLevel) (now : Z) (m : gmap string string)
  : gmap string string :=
  <[STORAGE_DATE_KEY := toString now]> (<[STORAGE_KEY := level_str level]> m).

Lemma truthy_Some (v : string) : v ≠ "" → truthy (Some v) = true.
Proof. by destruct v. Qed.

Ltac run_store H :=
  unfold getStoredConsent, isExpired, getSnapshot, useConsent_consent,
    try_catch, bind, getItem, setItem, removeItem, ret;
  repeat (cbn [throws ops items next_op with_items fst snd negb andb orb
               from_option id];
          rewrite ?H).

Lemma getStoredConsent_valid E now s lv d :
  reliable s →
  items s !! STORAGE_KEY = Some lv → lv ≠ "" →
  items s !! STORAGE_DATE_KEY = Some d → d ≠ "" →
  gt (age_days now d) E = false →
  getStoredConsent E now s = (Normal (Some lv), next_op (next_op s)).
Proof.
  intros H Hk Hlv Hd Hne Hgt. run_store H. rewrite Hk.
  rewrite truthy_Some by done. run_store H. rewrite Hd.
  rewrite truthy_Some by done. run_store H. rewrite Hgt. done.
Qed.

Lemma getStoredConsent_expired E now s lv :
  reliable s →
  items s !! STORAGE_KEY = Some lv → lv ≠ "" →
  match items s !! STORAGE_DATE_KEY with
  | Some d => d = "" ∨ gt (age_days now d) E = true
  | None => True
  end →
  ∃ s', getStoredConsent E now s = (Normal None, s') ∧
        reliable s' ∧ items s' = cleared (items s).
Proof.
  intros H Hk Hlv Hd. run_store H. rewrite Hk.
  rewrite !truthy_Some by done. run_store H.
  destruct (items s !! STORAGE_DATE_KEY) as [d|].
  - destruct Hd as [->|Hgt].
    + cbn. run_store H. eexists; split_and!; [done| |done].
      intros n. apply H.
    + destruct d as [|a d]; cbn [truthy]; run_store H; [|rewrite Hgt];
        run_store H; (eexists; split_and!; [done| |done]); intros n; apply H.
  - cbn. run_store H. eexists; split_and!; [done| |done]. intros n; apply H.
Qed.

Lemma getStoredConsent_absent E now s :
  reliable s → truthy (items s !! STORAGE_KEY) = false →
  getStoredConsent E now s = (Normal None, next_op s).
Proof. intros H Hk. run_store H. rewrite Hk. done. Qed.


(** A read never raises. *)
Lemma getStoredConsent_total E now : total (getStoredConsent E now).
Proof. apply total_try_catch, total_ret. Qed.

Lemma getSnapshot_total : total getSnapshot.
Proof. apply total_try_catch, total_ret. Qed.

Lemma isExpired_total E now : total (isExpired E now).
Proof. apply total_try_catch, total_ret. Qed.

(** When one of the first two accesses of a read throws, the read returns
    [null]: the level access throwing is caught by [getStoredConsent], the
    timestamp access throwing makes [isExpired] answer true. *)
Lemma getStoredConsent_throws_null E now s :
  throws s (ops s) = true ∨ throws s (S (ops s)) = true →
  fst (getStoredConsent E now s) = Normal None.
Proof.
  intros Hthrow. run_store Hthrow.
  destruct (throws s (ops s)) eqn:H0; [done|].
  destruct Hthrow as [|H1]; [done|].
  destruct (truthy (items s !! STORAGE_KEY)); run_store H1; [|done].
  destruct (throws s (S (S (ops s)))); cbn; [done|].
  by destruct (throws s (S (S (S (ops s))))).
Qed.

(** A record without timestamp entry reads as [null] on every store. *)
Lemma getStoredConsent_missing_timestamp E now s :
  items s !! STORAGE_DATE_KEY = None →
  fst (getStoredConsent E now s) = Normal None.
Proof.
  intros Hd. run_store Hd.
  destruct (throws s (ops s)) eqn:H0; [done|].
  destruct (truthy (items s !! STORAGE_KEY)); run_store Hd; [|done].
  destruct (throws s (S (ops s))); cbn; rewrite ?Hd; cbn;
  (destruct (throws s (S (S (ops s)))); cbn; [done|]);
  by destruct (throws s (S (S (S (ops s))))).
Qed.

(** [parseInt] of the empty string is NaN. *)
Lemma parseInt_Some_nonempty t T : parseInt t = Some T → t ≠ "".
Proof. by intros H ->. Qed.

(** ** C1: reading a stored record *)

(** A record whose timestamp parses and whose age is within the window
    is returned as it is, and the read only consumes two operations. *)
Lemma getStoredConsent_within E now s lv t T :
  reliable s →
  items s !! STORAGE_KEY = Some lv → lv ≠ "" →
  items s !! STORAGE_DATE_KEY = Some t →
  parseInt t = Some T → (days_since now T <= E)%Q →
  getStoredConsent E now s = (Normal (Some lv), next_op (next_op s)).
Proof.
  intros H Hk Hlv Hd HT Hle.
  apply (getStoredConsent_valid E now s lv t); [done..| |].
  - by eapply parseInt_Some_nonempty.
  - unfold age_days. rewrite HT. cbn.
    apply negb_false_iff, Qle_bool_iff, Hle.
Qed.

(** The contract as the specification words it: a record is valid when its
    level is one of the two consent levels and its age in days is within
    the expiry window. *)
Definition well_formed_level (lv : string) : Prop :=
  lv = "all" ∨ lv = "necessary".

Definition record_valid (E : Q) (now : Z) (lv t : string) : Prop :=
  well_formed_level lv ∧
  ∃ T, parseInt t = Some T ∧ (Qmake (now - T) MS_PER_DAY <= E)%Q.

(** "Reading returns the level of a valid record, and otherwise returns
    null and deletes both entries". *)
Definition read_contract (E : Q) (now : Z) (m : gmap string string) : Prop :=
  ∀ lv t, m !! STORAGE_KEY = Some lv → m !! STORAGE_DATE_KEY = Some t →
    let '(r, s') := getStoredConsent E now (store_of m) in
    (record_valid E now lv t → r = Normal (Some lv)) ∧
    (¬ record_valid E now lv t →
       r = Normal None ∧ items s' !! STORAGE_KEY = None
       ∧ items s' !! STORAGE_DATE_KEY = None).

(** A fresh record whose level is neither "all" nor "necessary". *)
Definition unknown_level_record : gmap string string :=
  <[STORAGE_KEY := "maybe"]> (<[STORAGE_DATE_KEY := "1690000000000"]> ∅).

(** C1, counterexample: the level entry is not validated.  A record
    ("maybe", 1690000000000) read at 1700000000000 with a window of 365
    days is returned as it is, and nothing is deleted. *)
Lemma read_contract_unknown_level :
  ¬ read_contract 365 1700000000000 unknown_level_record.
Proof.
  intros H.
  specialize (H "maybe" "1690000000000" eq_refl eq_refl).
  assert (Hr : fst (getStoredConsent 365 1700000000000
                      (store_of unknown_level_record))
               = Normal (Some "maybe")) by (vm_compute; reflexivity).
  destruct (getStoredConsent 365 1700000000000 (store_of unknown_level_record))
    as [r s']. cbn [fst] in Hr. subst r. destruct H as [_ H].
  assert (Hinv : ¬ record_valid 365 1700000000000 "maybe" "1690000000000").
  { intros [[?|?] _]; discriminate. }
  destruct (H Hinv) as [? _]. discriminate.
Qed.

(** C1, as the code has it.  On a store that does not throw, holding a
    non-empty level entry [lv] and a timestamp entry [t]: when [t] parses
    to the instant [T], the read returns [lv], whatever string it is, and
    leaves the entries in place if the age in days is at most the expiry
    window, and returns null and removes both entries if it exceeds the
    window, the age being the double [days_since now T] the code computes;
    when [t] is empty the read returns null and removes both
    entries. *)
Theorem getStoredConsent_reads_record (E : Q) (now : Z) (s : Storage)
    (lv t : string) :
  reliable s →
  items s !! STORAGE_KEY = Some lv → lv ≠ "" →
  items s !! STORAGE_DATE_KEY = Some t →
  (∀ T, parseInt t = Some T → (days_since now T <= E)%Q →
     fst (getStoredConsent E now s) = Normal (Some lv)
     ∧ items (exec (getStoredConsent E now) s) = items s)
  ∧ (∀ T, parseInt t = Some T → (E < days_since now T)%Q →
     fst (getStoredConsent E now s) = Normal None
     ∧ items (exec (getStoredConsent E now) s) = cleared (items s))
  ∧ (t = "" →
     fst (getStoredConsent E now s) = Normal None
     ∧ items (exec (getStoredConsent E now) s) = cleared (items s)).
Proof.
  intros H Hk Hlv Hd. split_and!.
  - intros T HT Hle. unfold exec.
    by rewrite (getStoredConsent_within E now s lv t T).
  - intros T HT Hlt.
    destruct (getStoredConsent_expired E now s lv) as (s' & Heq & _ & Hs');
      [done..| |by unfold exec; rewrite Heq].
    rewrite Hd. right. unfold age_days. rewrite HT. cbn.
    apply negb_true_iff. apply not_true_iff_false.
    rewrite Qle_bool_iff. by apply Qlt_not_le.
  - intros ->.
    destruct (getStoredConsent_expired E now s lv) as (s' & Heq & _ & Hs');
      [done..| |by unfold exec; rewrite Heq].
    rewrite Hd. by left.
Qed.

(** The record ("all", 1690000000000). *)
Definition sample_record : gmap string string :=
  <[STORAGE_KEY := "all"]> (<[STORAGE_DATE_KEY := "1690000000000"]> ∅).

Lemma getStoredConsent_reads_record_witness :
  fst (getStoredConsent 365 1700000000000 (store_of sample_record))
    = Normal (Some "all")
  ∧ items (exec (getStoredConsent 365 1700000000000) (store_of sample_record))
    = sample_record.
Proof.
  refine (proj1 (getStoredConsent_reads_record 365 1700000000000
            (store_of sample_record) "all" "1690000000000" _ _ _ _)
          1690000000000 _ _).
  - intros n. reflexivity.
  - reflexivity.
  - discriminate.
  - reflexivity.
  - reflexivity.
  - vm_compute. discriminate.
Defined.

(** An empty level entry reads as null and nothing is removed. *)
Lemma getStoredConsent_empty_level E now s :
  reliable s → items s !! STORAGE_KEY = Some "" →
  getStoredConsent E now s = (Normal None, next_op s).
Proof. intros H Hk. apply getStoredConsent_absent; [done|by rewrite Hk]. Qed.

(** ** C8: degraded stores *)

(** The record ("all", "abc"): its timestamp does not parse. *)
Definition unparsable_record : gmap string string :=
  <[STORAGE_KEY := "all"]> (<[STORAGE_DATE_KEY := "abc"]> ∅).

(** C8, at the failing input: with an unparsable timestamp the age is NaN,
    [age > expiryDays] is false, and both the banner's read and the hook
    report the stored level instead of null. *)
Theorem unparsable_timestamp_reads_valid :
  fst (getStoredConsent 365 1700000000000 (store_of unparsable_record))
    = Normal (Some "all")
  ∧ fst (useConsent_consent 365 1700000000000 (Some "all")
           (store_of unparsable_record)) = Normal (Some "all").
Proof. split; reflexivity. Qed.

(** ** Computations on the world *)

Lemma stable_gets {A} (I : World → Prop) (f : World → A) : stable I (gets f).
Proof. by intros w Hw. Qed.

Lemma stable_modify (I : World → Prop) (f : World → World) :
  (∀ w, I w → I (f w)) → stable I (modify f).
Proof. intros Hf w Hw. by apply Hf. Qed.

Lemma stable_localStorage {A} (I : World → Prop) (m : js Storage A) :
  (∀ w s, I w → I (set_storage s w)) → stable I (localStorage m).
Proof.
  intros Hf w Hw. unfold localStorage.
  destruct (m (storage w)) as [[a|] s]; by apply Hf.
Qed.

(** An invariant of the store is an invariant of the world. *)
Lemma stable_localStorage_store {A} (J : Storage → Prop) (m : js Storage A) :
  stable J m → stable (λ w, J (storage w)) (localStorage m).
Proof.
  intros Hm w Hw. unfold localStorage. specialize (Hm _ Hw).
  by destruct (m (storage w)) as [[a|] s].
Qed.

Lemma triple_gets {A} (P : World → Prop) (f : World → A) Q E :
  (∀ w, P w → Q (f w) w) → triple P (gets f) Q E.
Proof. intros H w Hw. by apply H. Qed.

Lemma triple_modify (P : World → Prop) (f : World → World) Q E :
  (∀ w, P w → Q () (f w)) → triple P (modify f) Q E.
Proof. intros H w Hw. by apply H. Qed.

Lemma total_gets {A} (f : World → A) : total (gets f).
Proof. intros w. by eexists _, _. Qed.

Lemma total_modify (f : World → World) : total (modify f).
Proof. intros w. by eexists _, _. Qed.

Lemma total_localStorage {A} (m : js Storage A) :
  total m → total (localStorage m).
Proof.
  intros Hm w. unfold localStorage.
  destruct (Hm (storage w)) as (a & s & ->). by eexists _, _.
Qed.

Lemma total_if {S A} (b : bool) (m1 m2 : js S A) :
  total m1 → total m2 → total (if b then m1 else m2).
Proof. by destruct b. Qed.

Lemma stable_if {S A} (I : S → Prop) (b : bool) (m1 m2 : js S A) :
  stable I m1 → stable I m2 → stable I (if b then m1 else m2).
Proof. by destruct b. Qed.

(** Decomposition of a goal [stable I m] or [total m] along the syntax of
    [m]. *)
Ltac js_step :=
  lazymatch goal with
  | |- stable _ (bind _ _) => apply stable_bind; [|intros ?]
  | |- stable _ (try_catch _ _) => apply stable_try_catch
  | |- stable _ (ret _) => apply stable_ret
  | |- stable _ (gets _) => apply stable_gets
  | |- stable _ (Date_now) => apply stable_gets
  | |- stable _ (match ?x with _ => _ end) =>
      first [apply stable_if | destruct x]
  | |- total (bind _ _) => apply total_bind; [|intros ?]
  | |- total (try_catch _ _) => apply total_try_catch
  | |- total (ret _) => apply total_ret
  | |- total (gets _) => apply total_gets
  | |- total (Date_now) => apply total_gets
  | |- total (modify _) => apply total_modify
  | |- total (emit _) => apply total_modify
  | |- total (match ?x with _ => _ end) =>
      first [apply total_if | destruct x]
  end.

(** *** Invariants of the handlers, effects and steps

    The handlers and effects keep every invariant [I] of the world that
    the state setters, the listener and timer bookkeeping, the storage
    blocks and the events they emit keep. *)
Section Invariants.
Variable p : Props.
Variable I : World → Prop.
Variable ok : event → bool.

Hypothesis I_clock : ∀ w v, I w → I (set_clock v w).
Hypothesis I_dataLayer : ∀ w v, I w → I (set_dataLayer v w).
Hypothesis I_gtag : ∀ w v, I w → I (set_gtag v w).
Hypothesis I_listeners : ∀ w v, I w → I (set_listeners v w).
Hypothesis I_timers : ∀ w v, I w → I (set_timers v w).
Hypothesis I_st : ∀ w v, I w → I (set_st v w).
Hypothesis I_pending : ∀ w v, I w → I (set_pending v w).
Hypothesis I_emit : ∀ w e, ok e = true → I w → I (set_trace (trace w ++ [e]) w).

Hypothesis I_read : ∀ E now, stable I (localStorage (getStoredConsent E now)).
Hypothesis I_snapshot : stable I (localStorage getSnapshot).
Hypothesis I_write : ∀ level,
  stable I (try_catch
    (localStorage (setItem STORAGE_KEY (level_str level)) >>
     let* now := Date_now in
     localStorage (setItem STORAGE_DATE_KEY (toString now)))
    (ret ())).
Hypothesis I_clear :
  stable I (try_catch
    (localStorage (removeItem STORAGE_KEY) >>
     localStorage (removeItem STORAGE_DATE_KEY))
    (ret ())).

Hypothesis ok_update : ∀ b, ok (EvGtag (consent_update b)) = true.
Hypothesis ok_callback : ∀ l, ok (EvCallback l) = true.
Hypothesis ok_dispatch : ∀ n, ok (EvDispatch n) = true.
Hypothesis ok_reload : ok EvReload = true.

Lemma stable_emit e : ok e = true → stable I (emit e).
Proof. intros He. apply stable_modify. intros w. by apply I_emit. Qed.

Lemma stable_setMounted b : stable I (setMounted b).
Proof. apply stable_modify. intros w. apply I_pending. Qed.

Lemma stable_setShowBanner b : stable I (setShowBanner b).
Proof. apply stable_modify. intros w. apply I_pending. Qed.

Lemma stable_setIsVisible b : stable I (setIsVisible b).
Proof. apply stable_modify. intros w. apply I_pending. Qed.

Lemma stable_setConsentState c : stable I (setConsentState c).
Proof. apply stable_modify. intros w. apply I_pending. Qed.

Local Ltac go :=
  repeat first
    [ apply I_read | apply I_snapshot | apply I_write | apply I_clear
    | js_step
    | apply stable_setMounted | apply stable_setShowBanner
    | apply stable_setIsVisible | apply stable_setConsentState
    | apply stable_emit; solve [auto]
    | apply stable_modify; intros ?; solve [auto] ].

Lemma stable_call_gtag f args :
  ok (EvGtag args) = true → stable I (call_gtag f args).
Proof. intros Hok. unfold call_gtag. go. Qed.

Lemma stable_banner_listener : stable I (banner_listener p).
Proof. unfold banner_listener. go. Qed.

Lemma stable_notify ls : stable I (notify p ls).
Proof.
  induction ls as [|[|e raw] ls IH]; cbn [notify]; go;
    auto using stable_banner_listener.
Qed.

Lemma stable_fire : stable I (fire p).
Proof. unfold fire. go. apply stable_notify. Qed.

Lemma stable_dispatchEvent n : stable I (dispatchEvent p n).
Proof. unfold dispatchEvent. go. apply stable_fire. Qed.

Lemma stable_handleConsent level : stable I (handleConsent p level).
Proof.
  unfold handleConsent. go;
    auto using stable_dispatchEvent, stable_call_gtag.
Qed.

Lemma stable_exit_timeout level : stable I (exit_timeout p level).
Proof. unfold exit_timeout. go. Qed.

Lemma stable_resetConsent : stable I (resetConsent p).
Proof. unfold resetConsent. go. apply stable_dispatchEvent. Qed.

Lemma stable_setConsent level : stable I (setConsent p level).
Proof. unfold setConsent. go. apply stable_dispatchEvent. Qed.

Lemma stable_subscribe e : stable I (subscribe e).
Proof. unfold subscribe. go. Qed.

Lemma stable_effect_init : stable I (effect_init p).
Proof. unfold effect_init. go. Qed.

Lemma stable_effect_sync first prev : stable I (effect_sync first prev).
Proof. unfold effect_sync. go. Qed.

(** [handleReconsent] also clears the one-shot guard of the scripts. *)
Lemma stable_handleReconsent :
  (∀ w, I w → I (set_scriptsInjectedRef false w)) →
  stable I (handleReconsent p).
Proof.
  intros Hreset. unfold handleReconsent. go. apply stable_dispatchEvent.
Qed.

(** The consent-mode effect also sets its own guard and issues calls. *)
Lemma stable_effect_consentMode :
  (∀ w, I w → I (set_consentModeInitRef true w)) →
  (∀ c, ok (EvGtag c) = true) →
  stable I (effect_consentMode p).
Proof.
  intros Hinit Hany. unfold effect_consentMode. go;
    auto using stable_call_gtag.
Qed.

(** The actions of a mounted banner run no effect by themselves. *)
Lemma stable_handle_mounted a :
  a ≠ ActMount →
  (a = ActReconsent → ∀ w, I w → I (set_scriptsInjectedRef false w)) →
  (∀ m, a = ActStorageEvent m →
     ∀ w, I w → I (set_storage (with_items m (storage w)) w)) →
  stable I (handle p a).
Proof.
  intros Hmount Hreset Hforeign. destruct a; cbn [handle].
  - done.
  - apply stable_handleConsent.
  - apply stable_handleConsent.
  - apply stable_handleReconsent. by apply Hreset.
  - go. apply stable_exit_timeout.
  - apply stable_setIsVisible.
  - go.
  - go. apply stable_fire.
  - apply stable_subscribe.
  - apply stable_setConsent.
  - apply stable_resetConsent.
Qed.

Hypothesis I_consentMode : stable I (effect_consentMode p).
Hypothesis I_scripts : stable I (effect_scripts p).

Lemma stable_run_effects first prev : stable I (run_effects p first prev).
Proof.
  unfold run_effects. go;
    auto using stable_effect_init, stable_effect_sync.
Qed.

Lemma stable_commit : stable I (commit p).
Proof. unfold commit. go. apply stable_run_effects. Qed.

(** Every action but the reconsent button and a foreign change of the
    store keeps [I]. *)
Lemma stable_handle a :
  (a = ActReconsent → ∀ w, I w → I (set_scriptsInjectedRef false w)) →
  (∀ m, a = ActStorageEvent m →
     ∀ w, I w → I (set_storage (with_items m (storage w)) w)) →
  stable I (handle p a).
Proof.
  intros Hreset Hforeign.
  destruct a; first [apply stable_run_effects | by apply stable_handle_mounted].
Qed.

Lemma step_invariant a w :
  (a = ActReconsent → ∀ w, I w → I (set_scriptsInjectedRef false w)) →
  (∀ m, a = ActStorageEvent m →
     ∀ w, I w → I (set_storage (with_items m (storage w)) w)) →
  I w → I (step p a w).
Proof.
  intros Hreset Hforeign Hw. unfold step.
  destruct (enabled p a w); [|done].
  apply stable_exec; [|done].
  apply stable_bind; [by apply stable_handle | intros _; apply stable_commit].
Qed.

End Invariants.

(** A computation that changes nothing but the store. *)
Definition storage_only {A} (m : js World A) (w : World) : Prop :=
  ∃ s, snd (m w) = set_storage s w.

Lemma storage_only_localStorage {A} (m : js Storage A) w :
  storage_only (localStorage m) w.
Proof.
  unfold storage_only, localStorage.
  destruct (m (storage w)) as [r s]. by exists s.
Qed.

Lemma set_storage_twice s1 s2 w :
  set_storage s2 (set_storage s1 w) = set_storage s2 w.
Proof. done. Qed.

Lemma storage_only_write level w :
  storage_only
    (try_catch
      (localStorage (setItem STORAGE_KEY (level_str level)) >>
       let* now := Date_now in
       localStorage (setItem STORAGE_DATE_KEY (toString now)))
      (ret ())) w.
Proof.
  unfold storage_only, try_catch, bind, localStorage, Date_now, gets, ret.
  destruct (setItem _ _ (storage w)) as [[[]|] s1]; cbn; [|by eexists].
  destruct (setItem _ _ s1) as [[[]|] s2]; cbn; by eexists.
Qed.

Lemma storage_only_clear w :
  storage_only
    (try_catch
      (localStorage (removeItem STORAGE_KEY) >>
       localStorage (removeItem STORAGE_DATE_KEY))
      (ret ())) w.
Proof.
  unfold storage_only, try_catch, bind, localStorage, ret.
  destruct (removeItem _ (storage w)) as [[[]|] s1]; cbn; [|by eexists].
  destruct (removeItem _ s1) as [[[]|] s2]; cbn; by eexists.
Qed.

(** Invariants that do not depend on the store, on the binding of [gtag],
    on the two guards or on the events recorded, except for the events
    [ok] rules out. *)
Record quiet (ok : event → bool) (I : World → Prop) : Prop := {
  quiet_clock : ∀ w v, I w → I (set_clock v w);
  quiet_storage : ∀ w v, I w → I (set_storage v w);
  quiet_dataLayer : ∀ w v, I w → I (set_dataLayer v w);
  quiet_listeners : ∀ w v, I w → I (set_listeners v w);
  quiet_timers : ∀ w v, I w → I (set_timers v w);
  quiet_pending : ∀ w v, I w → I (set_pending v w);
  quiet_emit : ∀ w e, ok e = true → I w → I (set_trace (trace w ++ [e]) w)
}.

Definition not_inject (e : event) : bool := negb (is_inject e).

Lemma injections_app tr1 tr2 :
  injections (tr1 ++ tr2) = (injections tr1 + injections tr2)%nat.
Proof. unfold injections. by rewrite List.filter_app, length_app. Qed.

Lemma injections_snoc_other tr e :
  not_inject e = true → injections (tr ++ [e]) = injections tr.
Proof.
  intros He. rewrite injections_app.
  destruct e; try discriminate; cbn; lia.
Qed.

(** What the script effect does: nothing, or one injection that sets the
    guard, and then only if the rendered level is "all". *)
Lemma effect_scripts_cases p w :
  exec (effect_scripts p) w = w
  ∨ (scripts p ≠ "" ∧ scriptsInjectedRef w = false
     ∧ mounted (st w) = true ∧ consent (st w) = Some "all"
     ∧ exec (effect_scripts p) w =
         set_trace (trace w ++ [EvInject (scripts p)])
           (set_scriptsInjectedRef true w)).
Proof.
  unfold effect_scripts, exec, bind, gets. cbn.
  destruct (scripts p) as [|a r] eqn:Hs; cbn; [by left|].
  case_bool_decide as Hc; cbn; [|by left].
  destruct (mounted (st w)) eqn:Hm; cbn; [|by left].
  destruct (scriptsInjectedRef w) eqn:Hr; cbn; [by left|].
  right. by split_and!.
Qed.

Lemma effect_scripts_guarded p w :
  scriptsInjectedRef w = true → exec (effect_scripts p) w = w.
Proof.
  intros Hr. destruct (effect_scripts_cases p w) as [|(_ & Hf & _)]; [done|].
  congruence.
Qed.

Lemma effect_scripts_total p : total (effect_scripts p).
Proof. unfold effect_scripts. repeat js_step. Qed.

Lemma stable_of_exec {A} (I : World → Prop) (m : js World A) :
  (∀ w, I w → I (exec m w)) → stable I m.
Proof.
  intros H w Hw. specialize (H w Hw). unfold exec in H.
  by destruct (m w) as [[a|] w'].
Qed.

(** Storage blocks keep an invariant that does not mention the store. *)
Section Quiet.
Variable p : Props.
Variable I : World → Prop.
Variable ok : event → bool.
Hypothesis HI : quiet ok I.

Lemma quiet_block {A} (m : js World A) :
  (∀ w, storage_only m w) → stable I m.
Proof.
  intros Hm w Hw. destruct (Hm w) as (s & Heq).
  destruct (m w) as [[a|] w']; cbn in Heq; subst w';
    by apply (quiet_storage _ _ HI).
Qed.
End Quiet.

Ltac quiet_side HI :=
  first
    [ exact (quiet_clock _ _ HI) | exact (quiet_storage _ _ HI)
    | exact (quiet_dataLayer _ _ HI)
    | exact (quiet_listeners _ _ HI) | exact (quiet_timers _ _ HI)
    | exact (quiet_pending _ _ HI) | exact (quiet_emit _ _ HI)
    | intros; apply (quiet_block _ _ HI); intros;
      first [ apply storage_only_localStorage | apply storage_only_write
            | apply storage_only_clear ]
    | intros; apply (quiet_storage _ _ HI); assumption
    | assumption
    | done ].

Lemma triple_exec {S A} (P : S → Prop) (m : js S A) Q E (R : S → Prop) s :
  triple P m Q E → P s →
  (∀ a s', Q a s' → R s') → (∀ s', E s' → R s') → R (exec m s).
Proof.
  intros Hm Hs HQ HE. specialize (Hm s Hs). unfold exec.
  destruct (m s) as [[a|] s']; cbn; eauto.
Qed.

Lemma run_invariant (p : Props) (I : World → Prop) (acts : list action) w :
  (∀ a w, a ∈ acts → I w → I (step p a w)) → I w → I (run p acts w).
Proof.
  unfold run. revert w. induction acts as [|a acts IH]; intros w Hstep Hw.
  - done.
  - cbn. apply IH.
    + intros a' w' Ha'. apply Hstep. by right.
    + apply Hstep; [by left | done].
Qed.

(** ** C2: script gating *)

(** Injections recorded so far, plus the one the guard still allows. *)
Definition budget (w : World) : nat :=
  (injections (trace w) + (if scriptsInjectedRef w then 0 else 1))%nat.

Lemma quiet_budget c : quiet not_inject (λ w, (budget w ≤ c)%nat).
Proof.
  split; try done.
  intros w e He. unfold budget. cbn [trace set_trace scriptsInjectedRef].
  by rewrite injections_snoc_other.
Qed.

Lemma quiet_guarded n :
  quiet not_inject
    (λ w, scriptsInjectedRef w = true ∧ injections (trace w) = n).
Proof.
  split; try done.
  intros w e He. cbn [trace set_trace scriptsInjectedRef].
  by rewrite injections_snoc_other.
Qed.

Lemma effect_scripts_budget p c :
  stable (λ w, (budget w ≤ c)%nat) (effect_scripts p).
Proof.
  apply stable_of_exec. intros w Hw.
  destruct (effect_scripts_cases p w) as [->|(_ & Hr & _ & _ & ->)]; [done|].
  revert Hw. unfold budget.
  cbn [trace set_trace scriptsInjectedRef set_scriptsInjectedRef].
  rewrite Hr, injections_app. cbn. lia.
Qed.

Lemma effect_scripts_keeps_guarded p n :
  stable (λ w, scriptsInjectedRef w = true ∧ injections (trace w) = n)
    (effect_scripts p).
Proof.
  apply stable_of_exec. intros w [Hr Hn].
  by rewrite effect_scripts_guarded.
Qed.

(** Every action but the reconsent button keeps the budget. *)
Lemma step_budget p a w c :
  a ≠ ActReconsent → (budget w ≤ c)%nat → (budget (step p a w) ≤ c)%nat.
Proof.
  intros Ha Hw. pose proof (quiet_budget c) as HI.
  apply (step_invariant p (λ w, (budget w ≤ c)%nat) not_inject);
    try quiet_side HI.
  - apply (stable_effect_consentMode p _ not_inject); quiet_side HI.
  - apply effect_scripts_budget.
Qed.

(** Once the guard is set, no action but the reconsent button injects or
    clears it. *)
Lemma step_guarded p a w n :
  a ≠ ActReconsent →
  scriptsInjectedRef w = true ∧ injections (trace w) = n →
  scriptsInjectedRef (step p a w) = true
  ∧ injections (trace (step p a w)) = n.
Proof.
  intros Ha Hw. pose proof (quiet_guarded n) as HI.
  apply (step_invariant p
    (λ w, scriptsInjectedRef w = true ∧ injections (trace w) = n)
    not_inject); try quiet_side HI.
  - apply (stable_effect_consentMode p _ not_inject); quiet_side HI.
  - apply effect_scripts_keeps_guarded.
Qed.

Lemma quiet_injections n : quiet not_inject (λ w, injections (trace w) = n).
Proof.
  split; try done.
  intros w e He. cbn [trace set_trace]. by rewrite injections_snoc_other.
Qed.

Lemma quiet_injections_unmounted n :
  quiet not_inject
    (λ w, injections (trace w) = n ∧ mounted (st w) = false).
Proof.
  split; try done.
  intros w e He. cbn [trace set_trace st]. by rewrite injections_snoc_other.
Qed.

(** The injections of a step happened under a rendered level "all". *)
Definition injected_under_all (n : nat) (w : World) : Prop :=
  injections (trace w) = n ∨ consent (st w) = Some "all".

Lemma quiet_injected_under_all n : quiet not_inject (injected_under_all n).
Proof.
  split; try done.
  intros w e He [Hn|Hc]; [left|by right].
  cbn [trace set_trace]. by rewrite injections_snoc_other.
Qed.

Lemma effect_scripts_under_all p n :
  stable (injected_under_all n) (effect_scripts p).
Proof.
  apply stable_of_exec. intros w Hw.
  destruct (effect_scripts_cases p w) as [->|(_ & _ & _ & Hc & ->)]; [done|].
  by right.
Qed.

Lemma effect_scripts_unmounted p n :
  stable (λ w, injections (trace w) = n ∧ mounted (st w) = false)
    (effect_scripts p).
Proof.
  apply stable_of_exec. intros w [Hn Hm].
  destruct (effect_scripts_cases p w) as [->|(_ & _ & Hm' & _)]; [done|].
  congruence.
Qed.

Lemma commit_under_all p n :
  triple (λ w, injections (trace w) = n) (commit p)
    (λ _, injected_under_all n) (injected_under_all n).
Proof.
  pose proof (quiet_injected_under_all n) as HI.
  unfold commit.
  eapply triple_bind with (Q1 := λ _ w, injections (trace w) = n);
    [by apply triple_gets|].
  intros prev.
  eapply triple_bind with (Q1 := λ _ w, injections (trace w) = n);
    [by apply triple_gets|].
  intros next. case_bool_decide.
  - apply triple_ret. intros w Hw. by left.
  - eapply triple_bind.
    + apply triple_modify with (Q := λ _, injected_under_all n).
      intros w Hw. by left.
    + intros u.
      apply (stable_run_effects p (injected_under_all n));
        try quiet_side HI.
      * apply (stable_effect_consentMode p _ not_inject); quiet_side HI.
      * apply effect_scripts_under_all.
Qed.

Lemma handle_keeps_injections p a w n :
  enabled p a w = true →
  triple (λ w', w' = w ∧ injections (trace w) = n) (handle p a)
    (λ _ w', injections (trace w') = n) (injected_under_all n).
Proof.
  intros Hen. destruct a.
  1: { (* mount: the banner is not mounted in the rendered state *)
    pose proof (quiet_injections_unmounted n) as HI.
    eapply triple_conseq.
    - apply (stable_run_effects p
        (λ w, injections (trace w) = n ∧ mounted (st w) = false));
        try quiet_side HI.
      + apply (stable_effect_consentMode p _ not_inject); quiet_side HI.
      + apply effect_scripts_unmounted.
    - intros w' [Heq Hn]. subst w'. split; [done|].
      cbn in Hen. by destruct (mounted (st w)).
    - by intros ? w' [Hn _].
    - intros w' [Hn _]. by left. }
  all: pose proof (quiet_injections n) as HI;
    (eapply triple_conseq;
     [ apply (stable_handle_mounted p (λ w, injections (trace w) = n)
                not_inject); try quiet_side HI
     | by intros w' [Heq Hn]; subst w' | by intros ? w' Hn
     | by intros w' Hn; left ]).
Qed.

Lemma step_injects_only_all p a w :
  injections (trace (step p a w)) ≠ injections (trace w) →
  consent (st (step p a w)) = Some "all".
Proof.
  unfold step. destruct (enabled p a w) eqn:Hen; [|done].
  intros Hne.
  assert (HK : injected_under_all (injections (trace w))
                 (exec (handle p a >> commit p) w)).
  { eapply (triple_exec _ (handle p a >> commit p)).
    - eapply triple_bind; [by apply handle_keeps_injections|].
      intros u. apply commit_under_all.
    - done.
    - by intros ? w' Hw'.
    - done. }
  by destruct HK.
Qed.

(** C2.  Whatever the world [w] a segment [seg] of actions starts from:
    a segment without the reconsent button injects the markup at most
    once; a step that injects ends with the rendered consent level "all";
    once the guard is set, a segment without the reconsent button injects
    nothing and leaves the guard set; and a step that clears the guard is
    the reconsent button. *)
Theorem scripts_injected_once (p : Props) (w : World) :
  (∀ seg, ActReconsent ∉ seg →
     (injections (trace (run p seg w)) ≤ injections (trace w) + 1)%nat)
  ∧ (∀ a, injections (trace (step p a w)) ≠ injections (trace w) →
     consent (st (step p a w)) = Some "all")
  ∧ (∀ seg, scriptsInjectedRef w = true → ActReconsent ∉ seg →
     injections (trace (run p seg w)) = injections (trace w)
     ∧ scriptsInjectedRef (run p seg w) = true)
  ∧ (∀ a, scriptsInjectedRef w = true →
     scriptsInjectedRef (step p a w) = false → a = ActReconsent).
Proof.
  split_and!.
  - intros seg Hseg.
    assert (Hb : (budget (run p seg w) ≤ budget w)%nat).
    { apply (run_invariant p (λ w', (budget w' ≤ budget w)%nat)); [|done].
      intros a w' Ha Hw'. apply step_budget; [|done]. by intros ->. }
    revert Hb. unfold budget.
    destruct (scriptsInjectedRef (run p seg w)), (scriptsInjectedRef w); lia.
  - intros a. apply step_injects_only_all.
  - intros seg Hr Hseg.
    enough (scriptsInjectedRef (run p seg w) = true
            ∧ injections (trace (run p seg w)) = injections (trace w))
      by tauto.
    apply (run_invariant p
      (λ w', scriptsInjectedRef w' = true
             ∧ injections (trace w') = injections (trace w))); [|done].
    intros a w' Ha Hw'. apply step_guarded; [|done]. by intros ->.
  - intros a Hr Hcleared.
    assert (Hkeep : a ≠ ActReconsent → scriptsInjectedRef (step p a w) = true).
    { intros Ha. by apply (step_guarded p a w (injections (trace w))). }
    destruct a; first [reflexivity | rewrite Hkeep in Hcleared; discriminate].
Qed.

(** A banner with consent mode, gated markup and the callback. *)
Definition sample_props : Props :=
  {| expiryDays := 365; showReconsent := true; onConsent := true;
     consentMode := true; adsDataRedaction := true; urlPassthrough := false;
     consentModeRegion := Some ["CA-QC"]; waitForUpdate := 500;
     scripts := "<script src='https://example.org/tag.js'></script>";
     reloadOnConsent := false |}.

(** A first visit: empty store, no queue, one [useConsent] consumer. *)
Definition first_visit : World :=
  page 1700000000000 (store_of ∅) None None [LHook 365 None].

Definition accept_twice : list action :=
  [ActMount; ActClick all; ActExitTimer; ActHookSet all; ActStorageEvent ∅;
   ActClick all].

Lemma scripts_injected_once_witness :
  (injections (trace (run sample_props accept_twice first_visit))
   ≤ injections (trace first_visit) + 1)%nat.
Proof.
  apply (proj1 (scripts_injected_once sample_props first_visit) accept_twice).
  unfold accept_twice. intros H.
  repeat (apply elem_of_cons in H as [H|H]; [discriminate|]).
  by apply elem_of_nil in H.
Defined.

(** The injection does happen on acceptance, and once more after a reset
    followed by a new acceptance. *)
Example accept_injects_once :
  injections (trace (run sample_props accept_twice first_visit)) = 1%nat.
Proof. vm_compute. reflexivity. Qed.

Example reset_allows_second_injection :
  injections (trace (run sample_props
    [ActMount; ActClick all; ActExitTimer; ActReconsent; ActClick all]
    first_visit)) = 2%nat.
Proof. vm_compute. reflexivity. Qed.

(** ** No handler, effect or hook function raises *)

Section Totality.
Variable p : Props.

Local Ltac go :=
  repeat first
    [ js_step
    | apply total_modify
    | apply total_localStorage;
      first [ apply getStoredConsent_total | apply getSnapshot_total ] ].

Lemma total_call_gtag f args : total (call_gtag f args).
Proof. unfold call_gtag. go. Qed.

Lemma total_banner_listener : total (banner_listener p).
Proof. unfold banner_listener, setConsentState, setIsVisible, setShowBanner. go. Qed.

Lemma total_notify ls : total (notify p ls).
Proof.
  induction ls as [|[|e raw] ls IH]; cbn [notify]; go;
    auto using total_banner_listener.
Qed.

Lemma total_fire : total (fire p).
Proof. unfold fire. go. apply total_notify. Qed.

Lemma total_dispatchEvent n : total (dispatchEvent p n).
Proof. unfold dispatchEvent. go. apply total_fire. Qed.

Lemma total_handleConsent level : total (handleConsent p level).
Proof.
  unfold handleConsent, setConsentState, setIsVisible. go;
    auto using total_call_gtag, total_dispatchEvent.
Qed.

Lemma total_exit_timeout level : total (exit_timeout p level).
Proof. unfold exit_timeout, setShowBanner. go. Qed.

Lemma total_handleReconsent : total (handleReconsent p).
Proof.
  unfold handleReconsent, setConsentState, setIsVisible, setShowBanner.
  go. apply total_dispatchEvent.
Qed.

Lemma total_resetConsent : total (resetConsent p).
Proof. unfold resetConsent. go. apply total_dispatchEvent. Qed.

Lemma total_setConsent level : total (setConsent p level).
Proof. unfold setConsent. go. apply total_dispatchEvent. Qed.

Lemma total_subscribe e : total (subscribe e).
Proof. unfold subscribe. go. Qed.

Lemma total_effect_init : total (effect_init p).
Proof. unfold effect_init, setMounted, setConsentState, setShowBanner. go. Qed.

Lemma total_effect_sync first prev : total (effect_sync first prev).
Proof. unfold effect_sync. go. Qed.

Lemma total_effect_consentMode : total (effect_consentMode p).
Proof. unfold effect_consentMode. go; auto using total_call_gtag. Qed.

Lemma total_run_effects first prev : total (run_effects p first prev).
Proof.
  unfold run_effects. go;
    auto using total_effect_init, total_effect_sync,
      total_effect_consentMode, effect_scripts_total.
Qed.

Lemma total_commit : total (commit p).
Proof. unfold commit. go. apply total_run_effects. Qed.

Lemma total_handle a : total (handle p a).
Proof.
  destruct a; cbn [handle]; unfold setIsVisible; go;
    auto using total_run_effects, total_handleConsent,
      total_handleReconsent, total_exit_timeout, total_fire,
      total_subscribe, total_setConsent, total_resetConsent.
Qed.

End Totality.

(** With a computation that returns normally, only the normal
    postcondition of a triple matters. *)
Lemma triple_exec_total {S A} (P : S → Prop) (m : js S A) Q E s :
  total m → triple P m Q E → P s → ∃ a, m s = (Normal a, exec m s) ∧ Q a (exec m s).
Proof.
  intros Ht Hm Hs. specialize (Hm s Hs).
  destruct (total_exec m s Ht) as (a & Heq). exists a. split; [done|].
  by rewrite Heq in Hm.
Qed.

Lemma stable_triple {S A} (I : S → Prop) (m : js S A) :
  stable I m → triple I m (λ _, I) (λ _, True).
Proof. intros H. eapply triple_conseq; [exact H|done..]. Qed.

Lemma stable_storage_only {A} (I : World → Prop) (m : js World A) :
  (∀ w, storage_only m w) → (∀ w s, I w → I (set_storage s w)) → stable I m.
Proof.
  intros Hm HI w Hw. destruct (Hm w) as (s & Heq).
  destruct (m w) as [[a|] w']; cbn in Heq; subst w'; by apply HI.
Qed.

(** ** C3: the "update" signal of a decision *)

Definition is_gtag (e : event) : bool :=
  if e is EvGtag _ then true else false.

Definition not_gtag (e : event) : bool := negb (is_gtag e).

Lemma gtag_calls_app tr1 tr2 :
  gtag_calls (tr1 ++ tr2) = gtag_calls tr1 ++ gtag_calls tr2.
Proof. unfold gtag_calls. apply omap_app. Qed.

Lemma gtag_calls_snoc_other tr e :
  not_gtag e = true → gtag_calls (tr ++ [e]) = gtag_calls tr.
Proof.
  intros He. rewrite gtag_calls_app.
  destruct e; try discriminate; cbn; by rewrite app_nil_r.
Qed.

Lemma quiet_gtag_calls c : quiet not_gtag (λ w, gtag_calls (trace w) = c).
Proof.
  split; try done.
  intros w e He. cbn [trace set_trace]. by rewrite gtag_calls_snoc_other.
Qed.

(** The "update" call with the four tracking categories set to [v]. *)
Definition update_signal (v : string) : gcall :=
  [ AStr "consent"; AStr "update";
    AObj [ ("ad_storage", VStr v); ("ad_user_data", VStr v);
           ("ad_personalization", VStr v); ("analytics_storage", VStr v) ] ].

Definition decision_value (level : ConsentLevel) : string :=
  match level with all => "granted" | necessary => "denied" end.

Lemma consent_update_signal level :
  consent_update (bool_decide (level = all))
  = update_signal (decision_value level).
Proof. by destruct level. Qed.

Lemma handleConsent_calls p level w c :
  consentMode p = true → gtag w ≠ None → gtag_calls (trace w) = c →
  gtag_calls (trace (exec (handleConsent p level) w))
  = c ++ [update_signal (decision_value level)].
Proof.
  intros Hcm Hg Hc.
  set (u := update_signal (decision_value level)).
  set (P0 := λ w' : World, gtag w' ≠ None ∧ gtag_calls (trace w') = c).
  set (P1 := λ w' : World, gtag_calls (trace w') = c ++ [u]).
  pose proof (quiet_gtag_calls (c ++ [u])) as HI.
  destruct (triple_exec_total P0 (handleConsent p level)
              (λ _, P1) (λ _, True) w) as (? & _ & HP1);
    [apply total_handleConsent| |done|exact HP1].
  unfold handleConsent.
  eapply triple_bind with (Q1 := λ _, P0).
  { apply stable_triple, stable_storage_only;
      [apply storage_only_write | done]. }
  intros ?. eapply triple_bind with (Q1 := λ _, P0).
  { by apply stable_triple, stable_modify. }
  intros ?. eapply triple_bind with (Q1 := λ _, P0).
  { by apply stable_triple, stable_modify. }
  intros ?. eapply triple_bind with (Q1 := λ _, P1).
  { rewrite Hcm.
    eapply triple_bind with (Q1 := λ g w', g = gtag w' ∧ P0 w');
      [by apply triple_gets|].
    intros [f|]; [|by intros w' [? [? _]]].
    rewrite consent_update_signal. fold u. unfold call_gtag.
    eapply triple_bind with (Q1 := λ _, P1).
    - apply triple_modify. intros w' [_ [_ Hw']]. unfold P1.
      cbn [trace set_trace]. rewrite gtag_calls_app, Hw'. done.
    - intros ?. destruct f; [by apply triple_ret|by apply triple_modify]. }
  intros ?. apply stable_triple.
  repeat first
    [ js_step
    | apply (stable_dispatchEvent p _ not_gtag); quiet_side HI
    | apply (stable_emit _ not_gtag); quiet_side HI
    | apply stable_modify; intros ?; quiet_side HI ].
Qed.

(** ** C4: activation of consent mode *)

(** The "default" call: tracking categories denied, the other categories
    granted, the grace period, and the region list when there is one. *)
Definition default_signal (wait : Z) (region : option (list string)) : gcall :=
  [ AStr "consent"; AStr "default";
    AObj ([ ("ad_storage", VStr "denied"); ("ad_user_data", VStr "denied");
            ("ad_personalization", VStr "denied");
            ("analytics_storage", VStr "denied");
            ("functionality_storage", VStr "granted");
            ("personalization_storage", VStr "granted");
            ("security_storage", VStr "granted");
            ("wait_for_update", VNum wait) ]
          ++ match region with
             | Some r => [("region", VArr r)]
             | None => []
             end) ].

(** A region list counts as provided when it is not empty. *)
Definition provided_region (r : option (list string)) : option (list string) :=
  match r with
  | Some (x :: l) => Some (x :: l)
  | _ => None
  end.

Definition set_signal (name : string) : gcall :=
  [AStr "set"; AStr name; ABool true].

(** The calls of the first activation, for the rendered level [c]. *)
Definition activation_calls (p : Props) (c : option string) : list gcall :=
  [default_signal (waitForUpdate p) (provided_region (consentModeRegion p))]
  ++ (if adsDataRedaction p then [set_signal "ads_data_redaction"] else [])
  ++ (if urlPassthrough p then [set_signal "url_passthrough"] else [])
  ++ (if bool_decide (c = Some "all") then [update_signal "granted"] else []).

Lemma defaultConsent_signal p :
  [AStr "consent"; AStr "default"; AObj (defaultConsent p)]
  = default_signal (waitForUpdate p) (provided_region (consentModeRegion p)).
Proof. unfold defaultConsent. by destruct (consentModeRegion p) as [[|r rs]|]. Qed.

(** The first run of the consent-mode effect in a mounted banner. *)
Lemma effect_consentMode_first p w :
  consentMode p = true → mounted (st w) = true →
  consentModeInitRef w = false →
  let w' := exec (effect_consentMode p) w in
  let f := default OwnGtag (gtag w) in
  trace w' = trace w ++ (EvGtag <$> activation_calls p (consent (st w)))
  ∧ gtag w' = Some f
  ∧ dataLayer w' =
      Some (default [] (dataLayer w)
            ++ (if f is OwnGtag then activation_calls p (consent (st w))
                else []))
  ∧ consentModeInitRef w' = true
  ∧ scriptsInjectedRef w' = scriptsInjectedRef w
  ∧ st w' = st w ∧ pending w' = pending w ∧ storage w' = storage w
  ∧ listeners w' = listeners w ∧ clock w' = clock w.
Proof.
  intros Hcm Hm Hinit. cbv zeta.
  unfold effect_consentMode, exec, bind, gets.
  rewrite Hcm, Hm. cbn [negb orb fst snd].
  rewrite defaultConsent_signal. unfold activation_calls, update_signal.
  unfold consent_update, update_payload, granted_or_denied.
  unfold call_gtag, emit, modify, bind, ret.
  destruct (gtag w) as [[|]|] eqn:Hg;
    destruct (adsDataRedaction p), (urlPassthrough p);
    case_bool_decide;
    repeat
      (cbn [set_gtag set_dataLayer set_trace trace gtag dataLayer
            consentModeInitRef scriptsInjectedRef st pending storage
            listeners clock set_consentModeInitRef from_option id fst snd
            fmap option_fmap option_map list_fmap app];
       rewrite ?Hg, ?Hinit);
    rewrite <- ?app_assoc; cbn [app]; rewrite ?app_nil_r;
    split_and!; reflexivity.
Qed.

(** Once its guard is set, the consent-mode effect issues no call. *)
Lemma effect_consentMode_inited p w :
  consentModeInitRef w = true →
  let w' := exec (effect_consentMode p) w in
  trace w' = trace w ∧ consentModeInitRef w' = true
  ∧ (gtag w ≠ None → gtag w' = gtag w)
  ∧ scriptsInjectedRef w' = scriptsInjectedRef w ∧ st w' = st w.
Proof.
  intros Hinit. cbv zeta.
  unfold effect_consentMode, exec, bind, gets, modify, ret.
  destruct (consentMode p), (mounted (st w)); cbn [negb orb fst snd]; try done.
  destruct (gtag w) as [f|] eqn:Hg;
    repeat (cbn [set_gtag set_dataLayer gtag consentModeInitRef fst snd];
            rewrite ?Hg, ?Hinit); done.
Qed.

(** In a banner that is not mounted the two gated effects do nothing. *)
Lemma effect_consentMode_unmounted p w :
  mounted (st w) = false → effect_consentMode p w = (Normal (), w).
Proof.
  intros Hm. unfold effect_consentMode, bind, gets. rewrite Hm.
  by rewrite orb_true_r.
Qed.

Lemma effect_scripts_unmounted_eq p w :
  mounted (st w) = false → effect_scripts p w = (Normal (), w).
Proof.
  intros Hm. unfold effect_scripts, bind, gets. rewrite Hm.
  cbn [negb]. by rewrite orb_true_r.
Qed.

(** The state rendered after the first effects, for a stored level [r]. *)
Definition rendered (r : option string) : BannerState :=
  {| mounted := true; showBanner := negb (truthy r); isVisible := false;
     consent := r |}.

Lemma effect_init_eq p w r s' :
  getStoredConsent (expiryDays p) (clock w) (storage w) = (Normal r, s') →
  effect_init p w =
    (Normal (),
     set_pending
       {| mounted := true;
          showBanner := if truthy r then showBanner (pending w) else true;
          isVisible := isVisible (pending w); consent := r |}
       (set_storage s' w)).
Proof.
  intros Heq.
  unfold effect_init, bind, setMounted, setConsentState, setShowBanner,
    modify, Date_now, gets, localStorage, ret.
  cbn [clock storage set_pending]. rewrite Heq.
  by destruct (truthy r).
Qed.

Lemma set_listeners_id w : set_listeners (listeners w) w = w.
Proof. by destruct w. Qed.

Lemma effect_sync_eq first prev w :
  effect_sync first prev w =
    (Normal (),
     set_listeners
       ((if negb first && mounted prev
         then unsubscribe (listeners w) else listeners w)
        ++ (if mounted (st w) then [LBanner] else [])) w).
Proof.
  unfold effect_sync, bind, modify, gets, ret.
  destruct (negb first && mounted prev); cbn [st set_listeners listeners];
    (destruct (mounted (st w)); cbn [negb];
     [done|by rewrite app_nil_r, ?set_listeners_id]).
Qed.

(** The cleanup removes at most the banner's handler. *)
Lemma Forall_unsubscribe (P : listener → Prop) ls :
  Forall P ls → Forall P (unsubscribe ls).
Proof.
  induction 1 as [|l r Hl Hr IH]; [done|]. cbn [unsubscribe].
  destruct (is_banner l && negb (existsb is_banner r)); [done|].
  by constructor.
Qed.

Lemma unsubscribe_hooks ls :
  filter (λ l, is_banner l = false) (unsubscribe ls)
  = filter (λ l, is_banner l = false) ls.
Proof.
  induction ls as [|l r IH]; [done|]. cbn [unsubscribe].
  destruct (is_banner l) eqn:Hl; cbn [andb].
  - rewrite (filter_cons_False _ l r) by congruence.
    destruct (negb (existsb is_banner r)); [done|].
    by rewrite filter_cons_False by congruence.
  - by rewrite !filter_cons_True, IH by done.
Qed.

Lemma commit_eq p w :
  st w ≠ pending w →
  commit p w = run_effects p false (st w) (set_st (pending w) w).
Proof.
  intros Hne. unfold commit, bind, gets, modify.
  by rewrite bool_decide_eq_false_2.
Qed.

Lemma commit_same p w : st w = pending w → commit p w = (Normal (), w).
Proof.
  intros Heq. unfold commit, bind, gets.
  by rewrite bool_decide_eq_true_2.
Qed.

(** The first render of a page: the mount effect reads the store, and the
    render it triggers runs the subscription, the consent-mode effect and
    the script effect. *)
Lemma mount_page p now s dl g ls r s' :
  getStoredConsent (expiryDays p) now s = (Normal r, s') →
  step p ActMount (page now s dl g ls) =
    exec (effect_scripts p)
      (exec (effect_consentMode p)
        {| clock := now; storage := s'; dataLayer := dl; gtag := g;
           listeners := ls ++ [LBanner];
           timers := []; trace := []; st := rendered r;
           pending := rendered r;
           scriptsInjectedRef := false; consentModeInitRef := false |}).
Proof.
  intros Heq.
  match goal with |- _ = exec _ (exec _ ?w) => set (W := w) end.
  unfold step, page.
  cbn [enabled st mounted initial_state negb].
  unfold exec at 1. unfold bind at 1. cbn [handle].
  unfold run_effects at 1. unfold bind, gets. cbn [orb fst snd].
  rewrite (effect_init_eq p _ r s') by exact Heq.
  rewrite effect_sync_eq. cbn [st set_pending set_storage mounted].
  rewrite effect_consentMode_unmounted by done.
  rewrite effect_scripts_unmounted_eq by done.
  rewrite commit_eq by (cbn; by intros H; apply (f_equal mounted) in H).
  unfold run_effects, bind, gets, ret.
  cbn [st pending set_st set_listeners set_pending set_storage mounted
       initial_state showBanner isVisible fst snd].
  assert (Hch : changed mounted initial_state
                  {| mounted := true;
                     showBanner := if truthy r then false else true;
                     isVisible := false; consent := r |} = true)
    by by apply bool_decide_eq_true_2.
  rewrite Hch. rewrite !orb_true_r. cbn [orb].
  rewrite effect_sync_eq.
  cbn [st pending set_st set_listeners set_pending set_storage mounted
       listeners clock storage dataLayer gtag timers trace
       scriptsInjectedRef consentModeInitRef app].
  rewrite app_nil_r. unfold exec, rendered.
  replace (negb (truthy r)) with (if truthy r then false else true)
    by by destruct (truthy r).
  match goal with
  | |- (let (_, _) := effect_consentMode p ?w in _).2 = _ =>
      change w with W
  end.
  destruct (total_effect_consentMode p W) as ([] & w1 & ->).
  cbn [fst snd].
  by destruct (effect_scripts p w1) as [[[]|] w2].
Qed.

Lemma gtag_calls_fmap (l : list gcall) : gtag_calls (EvGtag <$> l) = l.
Proof. induction l as [|c l IH]; [done|]. cbn. by f_equal. Qed.

(** "default" calls among the calls of a trace. *)
Definition is_default (c : gcall) : bool :=
  match c with
  | AStr a :: AStr b :: _ => String.eqb a "consent" && String.eqb b "default"
  | _ => false
  end.

Definition defaults (tr : list event) : nat :=
  length (List.filter is_default (gtag_calls tr)).

Definition not_default (e : event) : bool :=
  if e is EvGtag c then negb (is_default c) else true.

Lemma defaults_snoc_other tr e :
  not_default e = true → defaults (tr ++ [e]) = defaults tr.
Proof.
  intros He. unfold defaults. rewrite gtag_calls_app, List.filter_app, length_app.
  destruct e as [c| | | |]; cbn; try lia.
  cbn in He. destruct (is_default c); [done|]. cbn. lia.
Qed.

Lemma defaults_activation_calls p c :
  length (List.filter is_default (activation_calls p c)) = 1%nat.
Proof.
  unfold activation_calls.
  by destruct (adsDataRedaction p), (urlPassthrough p), (bool_decide _).
Qed.

Lemma quiet_inited n :
  quiet not_default
    (λ w, consentModeInitRef w = true ∧ defaults (trace w) = n).
Proof.
  split; try done.
  intros w e He. cbn [trace set_trace consentModeInitRef].
  by rewrite defaults_snoc_other.
Qed.

(** Once the guard of the consent-mode effect is set, no step issues
    another "default" call. *)
Lemma step_inited p a w n :
  consentModeInitRef w = true ∧ defaults (trace w) = n →
  consentModeInitRef (step p a w) = true ∧ defaults (trace (step p a w)) = n.
Proof.
  intros Hw. pose proof (quiet_inited n) as HI.
  apply (step_invariant p
    (λ w, consentModeInitRef w = true ∧ defaults (trace w) = n) not_default);
    try quiet_side HI.
  - apply stable_of_exec. intros w' [Hr Hn].
    destruct (effect_consentMode_inited p w' Hr) as (-> & -> & _). done.
  - apply stable_of_exec. intros w' [Hr Hn].
    destruct (effect_scripts_cases p w') as [->|(_ & _ & _ & _ & ->)]; [done|].
    cbn [trace set_trace consentModeInitRef set_scriptsInjectedRef].
    by rewrite defaults_snoc_other.
Qed.

(** What the first read of the store returns. *)
Definition stored_at_mount (p : Props) (now : Z) (s : Storage)
  : option string :=
  match fst (getStoredConsent (expiryDays p) now s) with
  | Normal r => r
  | Thrown => None
  end.

Lemma mount_consent_mode p now s dl g ls :
  consentMode p = true →
  let w := step p ActMount (page now s dl g ls) in
  let calls := activation_calls p (stored_at_mount p now s) in
  gtag_calls (trace w) = calls
  ∧ gtag w = Some (default OwnGtag g)
  ∧ dataLayer w =
      Some (default [] dl
            ++ (if default OwnGtag g is OwnGtag then calls else []))
  ∧ consentModeInitRef w = true.
Proof.
  intros Hcm. cbv zeta. unfold stored_at_mount.
  destruct (getStoredConsent_total (expiryDays p) now s) as (r & s' & Heq).
  rewrite (mount_page p now s dl g ls r s' Heq), Heq. cbn [fst].
  match goal with |- context [exec (effect_consentMode p) ?w] => set (W := w) end.
  destruct (effect_consentMode_first p W Hcm eq_refl eq_refl)
    as (Htr & Hg & Hdl & Hinit & _).
  cbn [trace gtag dataLayer st consent rendered W app] in Htr, Hg, Hdl.
  destruct (effect_scripts_cases p (exec (effect_consentMode p) W))
    as [->|(_ & _ & _ & _ & ->)].
  - rewrite Htr, gtag_calls_fmap. done.
  - cbn [trace set_trace gtag dataLayer consentModeInitRef
         set_scriptsInjectedRef].
    rewrite gtag_calls_snoc_other by done.
    rewrite Htr, gtag_calls_fmap. done.
Qed.

Lemma exec_bind_total {S A B} (m : js S A) (k : js S B) s :
  total m → exec (m >> k) s = exec k (exec m s).
Proof.
  intros Hm. destruct (Hm s) as (a & s' & Heq).
  unfold exec, bind. by rewrite Heq.
Qed.

Lemma run_cons p a acts w : run p (a :: acts) w = run p acts (step p a w).
Proof. done. Qed.

Definition always (e : event) : bool := true.

(** The consent-mode effect has run: its guard is set and [gtag] is
    bound.  No step undoes that. *)
Definition activated (w : World) : Prop :=
  consentModeInitRef w = true ∧ gtag w ≠ None.

Lemma quiet_activated : quiet always activated.
Proof. by split. Qed.

Lemma effect_consentMode_activated p :
  stable activated (effect_consentMode p).
Proof.
  apply stable_of_exec. intros w [Hr Hg].
  destruct (effect_consentMode_inited p w Hr) as (_ & Hr' & Hg' & _).
  split; [done|]. by rewrite Hg'.
Qed.

Lemma effect_scripts_activated p : stable activated (effect_scripts p).
Proof.
  apply stable_of_exec. intros w Hw.
  by destruct (effect_scripts_cases p w) as [->|(_ & _ & _ & _ & ->)].
Qed.

Lemma step_activated p a w : activated w → activated (step p a w).
Proof.
  intros Hw. pose proof quiet_activated as HI.
  apply (step_invariant p activated always); try quiet_side HI.
  - apply effect_consentMode_activated.
  - apply effect_scripts_activated.
Qed.

Lemma mounted_activated p now s dl g ls acts :
  consentMode p = true →
  activated (run p (ActMount :: acts) (page now s dl g ls)).
Proof.
  intros Hcm. rewrite run_cons.
  apply (run_invariant p activated).
  - intros a w _. apply step_activated.
  - destruct (mount_consent_mode p now s dl g ls Hcm) as (_ & Hg & _ & Hr).
    split; [done|]. by rewrite Hg.
Qed.

(** C4.  With consent mode enabled, the first render of a page leaves the
    call queue and [gtag] defined, an existing queue being kept; the calls
    issued are the "default" signal (tracking categories denied, the three
    other categories granted, [wait_for_update] the configured grace
    period, the region list attached when it is not empty), the optional
    "set" calls, and, when the store read at that time returns "all", the
    "update" signal granting the four tracking categories, last; a record
    ("all", t) within the expiry window on a working store is read as
    "all"; and whatever happens afterwards the trace holds exactly one
    "default" call. *)
Theorem consent_mode_first_activation (p : Props) (now : Z) (s : Storage)
    (dl : option (list gcall)) (g : option gtag_fn) (ls : list listener) :
  consentMode p = true →
  let w := step p ActMount (page now s dl g ls) in
  let stored := stored_at_mount p now s in
  is_Some (dataLayer w) ∧ is_Some (gtag w)
  ∧ (∀ q, dl = Some q → ∃ q', dataLayer w = Some (q ++ q'))
  ∧ gtag_calls (trace w) =
      [default_signal (waitForUpdate p)
         (provided_region (consentModeRegion p))]
      ++ (if adsDataRedaction p then [set_signal "ads_data_redaction"] else [])
      ++ (if urlPassthrough p then [set_signal "url_passthrough"] else [])
      ++ (if bool_decide (stored = Some "all")
          then [update_signal "granted"] else [])
  ∧ (∀ t T, reliable s →
       items s !! STORAGE_KEY = Some "all" →
       items s !! STORAGE_DATE_KEY = Some t → parseInt t = Some T →
       (days_since now T <= expiryDays p)%Q → stored = Some "all")
  ∧ (∀ acts, defaults (trace (run p acts w)) = 1%nat).
Proof.
  intros Hcm. cbv zeta.
  destruct (mount_consent_mode p now s dl g ls Hcm) as (Hc & Hg & Hdl & Hr).
  split_and!.
  - by rewrite Hdl.
  - by rewrite Hg.
  - intros q ->. rewrite Hdl. by eexists.
  - exact Hc.
  - intros t T Hs Hk Hd HT Hle. unfold stored_at_mount.
    by rewrite (getStoredConsent_within (expiryDays p) now s "all" t T).
  - intros acts.
    enough (consentModeInitRef (run p acts (step p ActMount (page now s dl g ls)))
              = true
            ∧ defaults (trace (run p acts (step p ActMount (page now s dl g ls))))
              = 1%nat) by tauto.
    apply (run_invariant p
      (λ w, consentModeInitRef w = true ∧ defaults (trace w) = 1%nat)).
    + intros a w _. apply step_inited.
    + split; [done|]. unfold defaults. rewrite Hc.
      apply defaults_activation_calls.
Qed.

(** A returning visitor who accepted everything ten days ago. *)
Definition returning_visit : World :=
  page 1700000000000
    (store_of (<[STORAGE_KEY := "all"]>
                (<[STORAGE_DATE_KEY := "1699136000000"]> ∅)))
    None None [].

Lemma consent_mode_first_activation_witness :
  gtag_calls (trace (step sample_props ActMount returning_visit)) =
    [ default_signal 500 (Some ["CA-QC"]);
      set_signal "ads_data_redaction";
      update_signal "granted" ].
Proof.
  pose proof (consent_mode_first_activation sample_props 1700000000000
    (store_of (<[STORAGE_KEY := "all"]>
                (<[STORAGE_DATE_KEY := "1699136000000"]> ∅)))
    None None [] eq_refl) as (_ & _ & _ & Hcalls & Hstored & _).
  rewrite (Hstored "1699136000000" 1699136000000) in Hcalls.
  - exact Hcalls.
  - intros n. reflexivity.
  - reflexivity.
  - reflexivity.
  - reflexivity.
  - vm_compute. discriminate.
Defined.

Lemma quiet_inited_calls c :
  quiet not_gtag
    (λ w, consentModeInitRef w = true ∧ gtag_calls (trace w) = c).
Proof.
  split; try done.
  intros w e He. cbn [trace set_trace consentModeInitRef].
  by rewrite gtag_calls_snoc_other.
Qed.

(** After the activation, a render issues no call. *)
Lemma commit_inited_calls p c :
  stable (λ w, consentModeInitRef w = true ∧ gtag_calls (trace w) = c)
    (commit p).
Proof.
  pose proof (quiet_inited_calls c) as HI.
  apply (stable_commit p
    (λ w, consentModeInitRef w = true ∧ gtag_calls (trace w) = c));
    try quiet_side HI.
  - apply stable_of_exec. intros w' [Hr Hn].
    destruct (effect_consentMode_inited p w' Hr) as (-> & -> & _). done.
  - apply stable_of_exec. intros w' [Hr Hn].
    destruct (effect_scripts_cases p w') as [->|(_ & _ & _ & _ & ->)]; [done|].
    cbn [trace set_trace consentModeInitRef set_scriptsInjectedRef].
    by rewrite gtag_calls_snoc_other.
Qed.

Lemma handleConsent_keeps_inited p level :
  stable (λ w, consentModeInitRef w = true) (handleConsent p level).
Proof.
  assert (HI : quiet always (λ w, consentModeInitRef w = true)) by by split.
  apply (stable_handleConsent p _ always); quiet_side HI.
Qed.

Lemma decision_step_calls p level w :
  consentMode p = true → activated w →
  gtag_calls (trace (exec (handleConsent p level >> commit p) w))
  = gtag_calls (trace w) ++ [update_signal (decision_value level)].
Proof.
  intros Hcm [Hr Hg].
  rewrite exec_bind_total by apply total_handleConsent.
  apply (stable_exec
    (λ w', consentModeInitRef w' = true
           ∧ gtag_calls (trace w')
             = gtag_calls (trace w) ++ [update_signal (decision_value level)])
    (commit p)); [apply commit_inited_calls|].
  split.
  - by apply (stable_exec _ _ _ (handleConsent_keeps_inited p level)).
  - by apply handleConsent_calls.
Qed.

(** C3.  With consent mode enabled: whenever [gtag] is defined,
    [handleConsent] issues exactly one call, the "update" signal with the
    four tracking categories granted for "all" and denied for
    "necessary"; and in every state a mounted page can reach (after any
    number of decisions and resets) a click on either button, or the
    Escape key for "necessary", issues exactly that call. *)
Theorem decision_issues_one_update (p : Props) (level : ConsentLevel) :
  consentMode p = true →
  (∀ w, gtag w ≠ None →
     gtag_calls (trace (exec (handleConsent p level) w))
     = gtag_calls (trace w) ++ [update_signal (decision_value level)])
  ∧ (∀ now s dl g ls acts a,
       let w := run p (ActMount :: acts) (page now s dl g ls) in
       a = ActClick level ∨ (a = ActEscape ∧ level = necessary) →
       enabled p a w = true →
       gtag_calls (trace (step p a w))
       = gtag_calls (trace w) ++ [update_signal (decision_value level)]).
Proof.
  intros Hcm. split.
  - intros w Hg. by apply handleConsent_calls.
  - intros now s dl g ls acts a w Ha Hen.
    pose proof (mounted_activated p now s dl g ls acts Hcm) as Hact.
    fold w in Hact. unfold step. rewrite Hen.
    destruct Ha as [->|[-> ->]]; cbn [handle]; by apply decision_step_calls.
Qed.

Lemma decision_issues_one_update_witness :
  gtag_calls (trace (step sample_props (ActClick necessary)
    (run sample_props [ActMount; ActClick all; ActExitTimer; ActReconsent]
       first_visit)))
  = gtag_calls (trace
      (run sample_props [ActMount; ActClick all; ActExitTimer; ActReconsent]
         first_visit))
    ++ [update_signal "denied"].
Proof.
  apply (proj2 (decision_issues_one_update sample_props necessary eq_refl)
    1700000000000 (store_of ∅) None None [LHook 365 None]
    [ActClick all; ActExitTimer; ActReconsent] (ActClick necessary)).
  - by left.
  - vm_compute. reflexivity.
Defined.

(** ** C7: the timestamp entry is present iff the level entry is *)

Definition consent_invariant (m : gmap string string) : Prop :=
  is_Some (m !! STORAGE_DATE_KEY) ↔ is_Some (m !! STORAGE_KEY).

(** A working store whose entries satisfy the invariant. *)
Definition store_ok (s : Storage) : Prop :=
  reliable s ∧ consent_invariant (items s).





(** The write block on a working store. *)
Lemma write_block_reliable level w :
  reliable (storage w) →
  try_catch
    (localStorage (setItem STORAGE_KEY (level_str level)) >>
     let* now := Date_now in
     localStorage (setItem STORAGE_DATE_KEY (toString now)))
    (ret ()) w
  = (Normal (),
     set_storage
       (next_op (next_op
          (with_items (written level (clock w) (items (storage w)))
             (storage w)))) w).
Proof.
  intros Hs. unfold try_catch, bind, localStorage, Date_now, gets.
  rewrite setItem_reliable by done. cbn [storage set_storage].
  rewrite setItem_reliable by by apply reliable_next_op, reliable_with_items.
  done.
Qed.

(** The clear block on a working store. *)
Lemma clear_block_reliable w :
  reliable (storage w) →
  try_catch
    (localStorage (removeItem STORAGE_KEY) >>
     localStorage (removeItem STORAGE_DATE_KEY))
    (ret ()) w
  = (Normal (),
     set_storage
       (next_op (next_op
          (with_items (cleared (items (storage w))) (storage w)))) w).
Proof.
  intros Hs. unfold try_catch, bind, localStorage.
  rewrite removeItem_reliable by done. cbn [storage set_storage].
  rewrite removeItem_reliable by by apply reliable_next_op, reliable_with_items.
  done.
Qed.

Section StoreInvariant.
Variable p : Props.

Let I (w : World) : Prop := store_ok (storage w).










End StoreInvariant.



(** A store whose second operation from now throws (the quota is reached
    by the first write). *)
Definition quota_after_one_write : Storage :=
  {| items := ∅; ops := 0; throws := λ n, bool_decide (n = 1%nat) |}.

(** The claim as it is worded: an operation keeps the invariant from any
    state that satisfies it. *)
Definition keeps_invariant (op : js World unit) : Prop :=
  ∀ w, consent_invariant (items (storage w)) →
       consent_invariant (items (storage (exec op w))).

(** C7, counterexample: the two entries are written by two calls of
    [setItem], and nothing undoes the first when the second throws.  On an
    empty store, which satisfies the invariant, whose quota is reached by
    the first write, [setConsent] and the decision handler of the banner
    leave a level entry without timestamp. *)
Lemma interrupted_write_breaks_invariant :
  ¬ keeps_invariant (setConsent default_props all)
  ∧ ¬ keeps_invariant (handleConsent default_props all).
Proof.
  assert (Hinv : consent_invariant
            (items (storage
               (page 1700000000000 quota_after_one_write None None []))))
    by (split; intros [? H]; discriminate H).
  split; intros H;
    specialize (H (page 1700000000000 quota_after_one_write None None [])
                  Hinv);
    destruct H as [_ H];
    (destruct H as [t Ht]; [by eexists; vm_compute|];
     vm_compute in Ht; discriminate Ht).
Qed.

(** Outside the working stores of C7: a write interrupted between its two
    [setItem] calls leaves a level entry without timestamp, which the next
    read removes. *)
Example interrupted_write :
  let w := exec (setConsent default_props all)
             (page 1700000000000 quota_after_one_write None None []) in
  items (storage w) !! STORAGE_KEY = Some "all"
  ∧ items (storage w) !! STORAGE_DATE_KEY = None
  ∧ fst (getStoredConsent 365 1700000000000 (storage w)) = Normal None
  ∧ items (exec (getStoredConsent 365 1700000000000) (storage w)) = ∅.
Proof. vm_compute. split_and!; reflexivity. Qed.

(** ** Decimal round trip of the timestamp *)

Lemma digit_pretty_N_char d :
  (d < 10)%N → digit (pretty_N_char d) = Some (Z.of_N d).
Proof.
  intros Hd.
  assert (d = 0 ∨ d = 1 ∨ d = 2 ∨ d = 3 ∨ d = 4 ∨ d = 5 ∨ d = 6 ∨ d = 7
          ∨ d = 8 ∨ d = 9)%N as Hcases by lia.
  repeat (destruct Hcases as [->|Hcases]; [reflexivity|]). by subst.
Qed.

Lemma digits_pretty_N_go x s :
  (0 < x)%N → digits (pretty_N_go x s) None = digits s (Some (Z.of_N x)).
Proof.
  revert s. induction (N.lt_wf_0 x) as [x _ IH]; intros s Hx.
  rewrite pretty_N_go_step by done.
  assert (Hd : (x `mod` 10 < 10)%N) by by apply N.mod_lt.
  destruct (decide (x `div` 10 = 0)%N) as [Hz|Hnz].
  - rewrite Hz, pretty_N_go_0. cbn [digits].
    rewrite digit_pretty_N_char by done. cbn [default from_option id].
    f_equal. f_equal.
    rewrite N.mod_small by (by apply N.div_small_iff). lia.
  - rewrite IH; [|apply N.div_lt; lia|by apply N.neq_0_lt_0]. cbn [digits].
    rewrite digit_pretty_N_char by done. cbn [from_option id].
    f_equal. f_equal.
    pose proof (N.div_mod x 10 ltac:(done)) as Hdm.
    apply (f_equal Z.of_N) in Hdm.
    rewrite N2Z.inj_add, N2Z.inj_mul in Hdm. lia.
Qed.

(** The first character of a positive number is a digit. *)
Lemma pretty_N_go_head x s :
  (0 < x)%N → ∃ d r, (d < 10)%N ∧ pretty_N_go x s = String (pretty_N_char d) r.
Proof.
  revert s. induction (N.lt_wf_0 x) as [x _ IH]; intros s Hx.
  rewrite pretty_N_go_step by done.
  destruct (decide (x `div` 10 = 0)%N) as [Hz|Hnz].
  - rewrite Hz, pretty_N_go_0. eexists _, _. split; [|done]. by apply N.mod_lt.
  - apply IH; [apply N.div_lt; lia|by apply N.neq_0_lt_0].
Qed.

Lemma parseInt_digit_head d r :
  (d < 10)%N →
  parseInt (String (pretty_N_char d) r) = digits (String (pretty_N_char d) r) None.
Proof.
  intros Hd.
  assert (d = 0 ∨ d = 1 ∨ d = 2 ∨ d = 3 ∨ d = 4 ∨ d = 5 ∨ d = 6 ∨ d = 7
          ∨ d = 8 ∨ d = 9)%N as Hcases by lia.
  repeat (destruct Hcases as [->|Hcases]; [reflexivity|]). by subst.
Qed.

(** [parseInt(n.toString(), 10)] is [n] for a timestamp [n]. *)
Lemma parseInt_toString (n : Z) :
  (0 ≤ n)%Z → parseInt (toString n) = Some n.
Proof.
  intros Hn. unfold toString, pretty, pretty_Z.
  destruct n as [|x|x]; [done| |lia].
  unfold pretty, pretty_positive, pretty, pretty_N. cbn [decide].
  destruct (decide (N.pos x = 0%N)) as [|_]; [done|].
  destruct (pretty_N_go_head (N.pos x) "") as (d & r & Hd & Heq); [lia|].
  rewrite Heq, parseInt_digit_head by done. rewrite <- Heq.
  by rewrite digits_pretty_N_go by lia.
Qed.

(** ** The decision handler up to its broadcast *)

(** The events a decision emits before it dispatches the change event. *)
Definition decision_events (p : Props) (level : ConsentLevel)
    (g : option gtag_fn) : list event :=
  (if consentMode p
   then if g is Some _
        then [EvGtag (consent_update (bool_decide (level = all)))] else []
   else [])
  ++ (if onConsent p then [EvCallback level] else []).

(** [handleConsent] is: the write block, the state updates, the optional
    "update" call and callback, and then the broadcast from the world [w1]
    so reached. *)
Lemma handleConsent_split p level w :
  ∃ w0 w1,
    try_catch
      (localStorage (setItem STORAGE_KEY (level_str level)) >>
       let* now := Date_now in
       localStorage (setItem STORAGE_DATE_KEY (toString now)))
      (ret ()) w = (Normal (), w0)
    ∧ handleConsent p level w =
        (dispatchEvent p CONSENT_CHANGE_EVENT >>
         modify (λ w, set_timers (timers w ++ [level]) w)) w1
    ∧ storage w1 = storage w0 ∧ listeners w1 = listeners w
    ∧ clock w1 = clock w ∧ st w1 = st w
    ∧ consent (pending w1) = Some (level_str level)
    ∧ trace w1 = trace w ++ decision_events p level (gtag w).
Proof.
  destruct (storage_only_write level w) as (s0 & Hs0).
  destruct (total_try_catch
    (localStorage (setItem STORAGE_KEY (level_str level)) >>
     let* now := Date_now in
     localStorage (setItem STORAGE_DATE_KEY (toString now)))
    (ret ()) (total_ret ()) w) as ([] & w0 & Hw0).
  rewrite Hw0 in Hs0. cbn [snd] in Hs0. subst w0.
  unfold decision_events.
  destruct (consentMode p) eqn:Hcm, (gtag w) as [[|]|] eqn:Hg,
    (onConsent p) eqn:Hcb;
    (eexists _, _; split; [exact Hw0|]; split;
     [ unfold handleConsent; rewrite Hcm, Hcb;
       unfold bind at 1; rewrite Hw0;
       cbv [bind setConsentState setIsVisible modify gets emit call_gtag ret];
       cbn [gtag set_pending set_storage set_trace set_dataLayer fst snd];
       rewrite ?Hg; cbn [fst snd]; reflexivity
     | cbn; rewrite ?app_nil_r, <- ?app_assoc; split_and!; reflexivity ]).
Qed.

(** ** Notification of the listeners *)

(** A [useConsent] consumer after it has read the snapshot [raw]. *)
Definition observe (raw : option string) (l : listener) : listener :=
  match l with
  | LBanner => LBanner
  | LHook e _ => LHook e raw
  end.

Lemma getSnapshot_reliable s :
  reliable s → getSnapshot s = (Normal (items s !! STORAGE_KEY), next_op s).
Proof. intros H. unfold getSnapshot, try_catch. by rewrite getItem_reliable. Qed.

Lemma getSnapshot_unavailable s :
  unavailable s → getSnapshot s = (Normal None, next_op s).
Proof. intros H. unfold getSnapshot, try_catch. by rewrite getItem_unavailable. Qed.

Lemma getStoredConsent_unavailable E now s :
  unavailable s → getStoredConsent E now s = (Normal None, next_op s).
Proof.
  intros H. unfold getStoredConsent, try_catch, bind.
  by rewrite getItem_unavailable.
Qed.

(** The listeners emit no event. *)
Lemma quiet_trace t : quiet (λ _, false) (λ w, trace w = t).
Proof. by split. Qed.

Lemma fire_trace p w : trace (exec (fire p) w) = trace w.
Proof.
  pose proof (quiet_trace (trace w)) as HI.
  apply (stable_exec (λ w', trace w' = trace w) (fire p)); [|done].
  apply (stable_fire p); quiet_side HI.
Qed.

Lemma fire_exec p w ls' w' :
  notify p (listeners w) w = (Normal ls', w') →
  exec (fire p) w = set_listeners ls' w'.
Proof. intros Heq. unfold exec, fire, bind, gets, modify. by rewrite Heq. Qed.

Lemma dispatchEvent_exec p w :
  exec (dispatchEvent p CONSENT_CHANGE_EVENT) w
  = exec (fire p) (set_trace (trace w ++ [EvDispatch CONSENT_CHANGE_EVENT]) w).
Proof. done. Qed.

(** Consumers subscribed ahead of the banner's handler read the level
    entry of a working store. *)
Lemma notify_hooks p hs rest w :
  reliable (storage w) →
  Forall (λ l, is_banner l = false) hs →
  ∃ rest' w',
    notify p (hs ++ rest) w
    = (Normal ((observe (items (storage w) !! STORAGE_KEY) <$> hs) ++ rest'), w').
Proof.
  intros Hs Hhs. revert w Hs.
  induction Hhs as [|[|e raw] hs Hh Hhs IH]; intros w Hs.
  - destruct (total_notify p rest w) as (ls' & w' & Heq).
    exists ls', w'. exact Heq.
  - done.
  - cbn [app notify fmap list_fmap observe].
    unfold bind at 1, localStorage at 1.
    rewrite getSnapshot_reliable by done.
    destruct (IH (set_storage (next_op (storage w)) w)) as (rest' & w' & Heq);
      [by apply reliable_next_op|].
    unfold bind. rewrite Heq. by eexists _, _.
Qed.

(** The banner's handler on a record just written, within a non-negative
    expiry window: it keeps the record and only confirms the level. *)
Lemma banner_listener_fresh p w lv :
  reliable (storage w) → lv ≠ "" → (0 ≤ clock w)%Z → (0 <= expiryDays p)%Q →
  items (storage w) !! STORAGE_KEY = Some lv →
  items (storage w) !! STORAGE_DATE_KEY = Some (toString (clock w)) →
  banner_listener p w =
    (Normal (),
     set_pending
       {| mounted := mounted (pending w); showBanner := showBanner (pending w);
          isVisible := isVisible (pending w); consent := Some lv |}
       (set_storage (next_op (next_op (storage w))) w)).
Proof.
  intros Hs Hlv Hnow HE Hk Hd.
  unfold banner_listener, bind, Date_now, gets, localStorage.
  rewrite (getStoredConsent_valid _ _ _ lv (toString (clock w))); try done.
  - cbn [st set_storage]. rewrite truthy_Some by done. done.
  - intros Hempty. pose proof (parseInt_toString _ Hnow) as Hp.
    by rewrite Hempty in Hp.
  - unfold age_days. rewrite parseInt_toString by done. cbn [fmap option_fmap option_map gt].
    by apply negb_false_iff, Qle_bool_iff, days_since_same.
Qed.

Lemma notify_fresh p ls w lv :
  reliable (storage w) → lv ≠ "" → (0 ≤ clock w)%Z → (0 <= expiryDays p)%Q →
  items (storage w) !! STORAGE_KEY = Some lv →
  items (storage w) !! STORAGE_DATE_KEY = Some (toString (clock w)) →
  ∃ w', notify p ls w = (Normal (observe (Some lv) <$> ls), w')
        ∧ items (storage w') = items (storage w)
        ∧ trace w' = trace w
        ∧ (consent (pending w) = Some lv ∨ LBanner ∈ ls →
           consent (pending w') = Some lv).
Proof.
  intros Hs Hlv Hnow HE. revert w Hs Hnow.
  induction ls as [|[|e raw] ls IH]; intros w Hs Hnow Hk Hd.
  - eexists. split_and!; [done..|]. by intros [?|?%elem_of_nil].
  - cbn [notify]. unfold bind at 1.
    rewrite (banner_listener_fresh p w lv) by done.
    cbv beta iota. unfold bind.
    match goal with
    | |- context [notify p ls ?w1] =>
        destruct (IH w1) as (w' & Heq & Hitems & Htrace & Hc);
          [by repeat apply reliable_next_op|done..|]
    end.
    rewrite Heq. eexists. split_and!; [done..|].
    intros _. apply Hc. by left.
  - cbn [notify fmap list_fmap observe]. unfold bind at 1, localStorage at 1.
    rewrite getSnapshot_reliable, Hk by done.
    destruct (IH (set_storage (next_op (storage w)) w))
      as (w' & Heq & Hitems & Htrace & Hc);
      [by apply reliable_next_op|done..|].
    unfold bind. rewrite Heq. eexists. split_and!; [done..|].
    intros [Hp|Hin]; apply Hc; [by left|].
    apply elem_of_cons in Hin as [|]; [done|by right].
Qed.

(** ** C6: a write sets both entries and broadcasts *)

Lemma level_str_nonempty level : level_str level ≠ "".
Proof. by destruct level. Qed.

Lemma written_level level now m :
  written level now m !! STORAGE_KEY = Some (level_str level).
Proof. unfold written. by rewrite lookup_insert_ne, lookup_insert_eq. Qed.

Lemma written_date level now m :
  written level now m !! STORAGE_DATE_KEY = Some (toString now).
Proof. unfold written. by rewrite lookup_insert_eq. Qed.

(** The broadcast from a world whose store holds the record just written. *)
Lemma broadcast_written p level now w1 :
  reliable (storage w1) →
  items (storage w1) !! STORAGE_KEY = Some (level_str level) →
  items (storage w1) !! STORAGE_DATE_KEY = Some (toString now) →
  clock w1 = now →
  let w2 := exec (dispatchEvent p CONSENT_CHANGE_EVENT) w1 in
  trace w2 = trace w1 ++ [EvDispatch CONSENT_CHANGE_EVENT]
  ∧ (∀ hs rest, listeners w1 = hs ++ rest →
       Forall (λ l, is_banner l = false) hs →
       ∃ rest', listeners w2
                = (observe (Some (level_str level)) <$> hs) ++ rest')
  ∧ ((0 ≤ now)%Z → (0 <= expiryDays p)%Q →
       listeners w2 = observe (Some (level_str level)) <$> listeners w1
       ∧ items (storage w2) = items (storage w1)).
Proof.
  intros Hs Hk Hd Hnow. cbv zeta. rewrite dispatchEvent_exec.
  set (w1' := set_trace (trace w1 ++ [EvDispatch CONSENT_CHANGE_EVENT]) w1).
  split_and!.
  - by rewrite fire_trace.
  - intros hs rest Hls Hhs.
    destruct (notify_hooks p hs rest w1' Hs Hhs) as (rest' & w' & Heq).
    rewrite (fire_exec p w1' _ w') by (by cbn [listeners w1' set_trace]; rewrite Hls).
    cbn [listeners set_listeners storage w1' set_trace]. rewrite Hk.
    by exists rest'.
  - intros H0 HE. subst now.
    destruct (notify_fresh p (listeners w1) w1' (level_str level))
      as (w' & Heq & Hitems & _); try done.
    { apply level_str_nonempty. }
    by rewrite (fire_exec p w1' _ w') by done.
Qed.

(** The claim as it is worded: after the write the store holds the level
    and the current time as timestamp, and the change event has been
    dispatched. *)
Definition write_contract (write : js World unit) (level : ConsentLevel)
    (w : World) : Prop :=
  let w' := exec write w in
  items (storage w') !! STORAGE_KEY = Some (level_str level)
  ∧ items (storage w') !! STORAGE_DATE_KEY = Some (toString (clock w))
  ∧ EvDispatch CONSENT_CHANGE_EVENT ∈ trace w'.

(** C6, counterexample: a write that throws is swallowed.  On a page whose
    storage is disabled, the decision handler of the banner and
    [setConsent] of the hook dispatch the change event although no entry
    was set. *)
Lemma write_swallowed_on_failing_store :
  ¬ write_contract (handleConsent default_props all) all
      (page 1700000000000 (broken_store ∅) None None [])
  ∧ ¬ write_contract (setConsent default_props all) all
      (page 1700000000000 (broken_store ∅) None None [])
  ∧ trace (exec (setConsent default_props all)
             (page 1700000000000 (broken_store ∅) None None []))
    = [EvDispatch CONSENT_CHANGE_EVENT].
Proof.
  split_and!; [intros [H _]; vm_compute in H; discriminate H..|].
  vm_compute. reflexivity.
Qed.



(** On a first visit the consumer mounted beside the banner reads "all"
    after the user accepts, and the store holds both entries. *)
Example accept_observed :
  let w := run sample_props [ActMount; ActClick all] first_visit in
  listeners w = [LHook 365 (Some "all"); LBanner]
  ∧ items (storage w) = written all 1700000000000 ∅
  ∧ consent (st w) = Some "all".
Proof. vm_compute. split_and!; reflexivity. Qed.

(** ** C9: a decision on a store that throws *)

Lemma unavailable_next_op s : unavailable s → unavailable (next_op s).
Proof. intros H n. apply H. Qed.

Lemma write_block_unavailable level w :
  unavailable (storage w) →
  try_catch
    (localStorage (setItem STORAGE_KEY (level_str level)) >>
     let* now := Date_now in
     localStorage (setItem STORAGE_DATE_KEY (toString now)))
    (ret ()) w
  = (Normal (), set_storage (next_op (storage w)) w).
Proof.
  intros Hs. unfold try_catch, bind, localStorage.
  by rewrite setItem_unavailable.
Qed.

(** The store stays unavailable and unchanged, and nothing is emitted,
    while the listeners run. *)
Definition failing (m : gmap string string) (t : list event) (w : World)
  : Prop :=
  unavailable (storage w) ∧ items (storage w) = m ∧ trace w = t.

Lemma failing_read m t E now :
  stable (failing m t) (localStorage (getStoredConsent E now)).
Proof.
  intros w (Hs & Hm & Ht). unfold localStorage.
  rewrite getStoredConsent_unavailable by done.
  split_and!; [by apply unavailable_next_op|done..].
Qed.

Lemma failing_snapshot m t : stable (failing m t) (localStorage getSnapshot).
Proof.
  intros w (Hs & Hm & Ht). unfold localStorage.
  rewrite getSnapshot_unavailable by done.
  split_and!; [by apply unavailable_next_op|done..].
Qed.

Lemma failing_banner_listener p m t :
  stable (failing m t) (banner_listener p).
Proof.
  apply (stable_banner_listener p); first [done | apply failing_read].
Qed.

Lemma failing_notify p m t ls : stable (failing m t) (notify p ls).
Proof.
  apply (stable_notify p);
    first [done | apply failing_read | apply failing_snapshot].
Qed.

Lemma exec_bind_ret {S A B} (m : js S A) (f : A → B) s :
  exec (let* a := m in ret (f a)) s = exec m s.
Proof. unfold exec, bind. by destruct (m s) as [[a|] s']. Qed.

(** On an unavailable store the banner's handler reads null. *)
Lemma banner_listener_unavailable p w :
  unavailable (storage w) →
  consent (pending (exec (banner_listener p) w)) = None.
Proof.
  intros Hs. unfold exec, banner_listener, bind, Date_now, gets, localStorage.
  rewrite getStoredConsent_unavailable by done.
  cbn [truthy negb andb st set_storage set_pending setConsentState modify
       fst snd].
  by destruct (showBanner (st w)).
Qed.

Lemma notify_unavailable p ls w :
  unavailable (storage w) →
  consent (pending w) = None ∨ LBanner ∈ ls →
  consent (pending (exec (notify p ls) w)) = None.
Proof.
  revert w. induction ls as [|[|e raw] ls IH]; intros w Hs Hc.
  - destruct Hc as [?|?%elem_of_nil]; done.
  - cbn [notify].
    rewrite exec_bind_total by apply total_banner_listener.
    rewrite exec_bind_ret. apply IH.
    + by apply (stable_exec _ _ _
        (failing_banner_listener p (items (storage w)) (trace w))).
    + left. by apply banner_listener_unavailable.
  - cbn [notify]. unfold exec, bind at 1, localStorage.
    rewrite getSnapshot_unavailable by done.
    pose proof (exec_bind_ret (notify p ls) (λ r', LHook e None :: r')
      (set_storage (next_op (storage w)) w)) as Hret.
    unfold exec in Hret. rewrite Hret. apply IH.
    + by apply unavailable_next_op.
    + destruct Hc as [?|Hin]; [by left|right].
      apply elem_of_cons in Hin as [|]; done.
Qed.

(** C9, what the code does.  On a store all of whose operations throw, in
    a banner subscribed to the change event: the decision handler records
    nothing, issues the "update" call when consent mode is on and [gtag]
    is defined, invokes the callback when there is one and dispatches the
    change event; the banner's own handler, run by that dispatch, reads
    the store back and queues the level null after the chosen level, so
    the consent state rendered next is null. *)
Theorem decision_on_failing_store (p : Props) (level : ConsentLevel)
    (w : World) :
  unavailable (storage w) → LBanner ∈ listeners w →
  let w' := exec (handleConsent p level) w in
  items (storage w') = items (storage w)
  ∧ trace w' = trace w ++ decision_events p level (gtag w)
               ++ [EvDispatch CONSENT_CHANGE_EVENT]
  ∧ consent (pending w') = None.
Proof.
  intros Hs Hin. cbv zeta.
  destruct (handleConsent_split p level w)
    as (w0 & w1 & Hw0 & Heq & Hst & Hls & _ & _ & _ & Htr).
  rewrite write_block_unavailable in Hw0 by done. injection Hw0 as <-.
  cbn [storage set_storage] in Hst.
  unfold exec at 1 2 3. rewrite Heq.
  fold (exec (dispatchEvent p CONSENT_CHANGE_EVENT >>
              modify (λ w, set_timers (timers w ++ [level]) w)) w1).
  rewrite exec_bind_total by apply total_dispatchEvent.
  rewrite dispatchEvent_exec.
  set (w1' := set_trace (trace w1 ++ [EvDispatch CONSENT_CHANGE_EVENT]) w1).
  destruct (total_notify p (listeners w1') w1') as (ls' & w2 & Hn).
  rewrite (fire_exec p w1' ls' w2 Hn).
  assert (Hf : failing (items (storage w))
                 (trace w ++ decision_events p level (gtag w)
                  ++ [EvDispatch CONSENT_CHANGE_EVENT]) w1').
  { split_and!.
    - cbn [storage w1' set_trace]. rewrite Hst. by apply unavailable_next_op.
    - cbn [storage w1' set_trace]. by rewrite Hst.
    - cbn [trace w1' set_trace]. by rewrite Htr, app_assoc. }
  pose proof (stable_exec _ _ _ (failing_notify p _ _ (listeners w1')) Hf)
    as (_ & Hitems & Htrace).
  pose proof (notify_unavailable p (listeners w1') w1' (proj1 Hf)) as Hnone.
  unfold exec in Hitems, Htrace, Hnone. rewrite Hn in Hitems, Htrace, Hnone.
  cbn [snd] in Hitems, Htrace, Hnone.
  split_and!; [done..|]. apply Hnone. right.
  cbn [listeners w1' set_trace]. by rewrite Hls.
Qed.

(** A store that throws, consent mode off, a callback, gated markup. *)
Definition callback_props : Props :=
  {| expiryDays := 365; showReconsent := true; onConsent := true;
     consentMode := false; adsDataRedaction := false;
     urlPassthrough := false; consentModeRegion := None;
     waitForUpdate := 500; scripts := "<script>track()</script>";
     reloadOnConsent := false |}.

Definition private_visit : World :=
  page 1700000000000 (broken_store ∅) None None [].

(** The page after the banner has mounted on the failing store and the
    user has accepted everything: the callback and the broadcast happened,
    the rendered level is null, and the gated markup is not injected. *)
Lemma decision_on_failing_store_witness :
  let w := run callback_props [ActMount] private_visit in
  let w' := exec (handleConsent callback_props all) w in
  items (storage w') = items (storage w)
  ∧ trace w' = trace w ++ decision_events callback_props all (gtag w)
               ++ [EvDispatch CONSENT_CHANGE_EVENT]
  ∧ consent (pending w') = None.
Proof.
  apply (decision_on_failing_store callback_props all
           (run callback_props [ActMount] private_visit)).
  - intros n. reflexivity.
  - vm_compute. by left.
Defined.

Example accept_on_failing_store :
  let w := run callback_props [ActMount; ActClick all; ActExitTimer]
             private_visit in
  trace w = [EvCallback all; EvDispatch CONSENT_CHANGE_EVENT]
  ∧ consent (st w) = None ∧ showBanner (st w) = false
  ∧ injections (trace w) = 0%nat.
Proof. vm_compute. split_and!; reflexivity. Qed.

(** ** C5 and C10: the generated script *)

(** Property lookup in an object literal. *)
Fixpoint obj_get (k : string) (o : jsobj) : option jsval :=
  match o with
  | [] => None
  | (k', v) :: r => if String.eqb k k' then Some v else obj_get k r
  end.


(** The test of the inline check, on the two entries read. *)
Definition check_passes (expiry : Z) (now : Z) (c d : option string) : bool :=
  truthy c && truthy d
  && (le (age_days now (default "" d)) (inject_Z expiry)
      && bool_decide (c = Some "all")).


(** The inline check on a working store: one "update" call, pushed on the
    queue, when the test passes, and nothing otherwise. *)
Lemma inline_check_eq expiry w :
  reliable (storage w) →
  inline_check expiry w =
    (if check_passes expiry (clock w)
          (items (storage w) !! STORAGE_KEY)
          (items (storage w) !! STORAGE_DATE_KEY)
     then call_gtag OwnGtag (update_signal "granted")
     else ret ())
      (set_storage (next_op (next_op (storage w))) w).
Proof.
  intros Hs.
  unfold inline_check, try_catch, bind at 1, localStorage at 1.
  rewrite getItem_reliable by done.
  unfold bind at 1, localStorage at 1. cbn [storage set_storage].
  rewrite getItem_reliable by by apply reliable_next_op.
  cbn [items next_op]. unfold check_passes.
  destruct (truthy (items (storage w) !! STORAGE_KEY)); cbn [andb]; [|done].
  destruct (truthy (items (storage w) !! STORAGE_DATE_KEY)); cbn [andb];
    [|done].
  unfold bind at 1, Date_now, gets. cbn [clock set_storage].
  by destruct (le _ _ && bool_decide _).
Qed.

Lemma inline_check_reliable expiry w :
  reliable (storage w) →
  let pass := check_passes expiry (clock w)
                (items (storage w) !! STORAGE_KEY)
                (items (storage w) !! STORAGE_DATE_KEY) in
  let calls := if pass then [update_signal "granted"] else [] in
  trace (exec (inline_check expiry) w) = trace w ++ (EvGtag <$> calls)
  ∧ dataLayer (exec (inline_check expiry) w)
    = (λ q, q ++ calls) <$> dataLayer w.
Proof.
  intros Hs. cbv zeta. unfold exec. rewrite inline_check_eq by done.
  destruct (check_passes _ _ _ _); cbn; [done|].
  rewrite app_nil_r. destruct (dataLayer w); cbn; by rewrite ?app_nil_r.
Qed.

(** On any store the inline check returns normally. *)
Lemma inline_check_total expiry : total (inline_check expiry).
Proof. apply total_try_catch, total_ret. Qed.

Lemma concat_cons_cons sep (a b : string) (l : list string) :
  String.concat sep (a :: b :: l) = a +:+ sep +:+ String.concat sep (b :: l).
Proof. done. Qed.

(** The calls the generated script issues when the page runs it. *)
Definition script_calls (options : option ConsentModeDefaults) (pass : bool)
  : list gcall :=
  let opts := default no_options options in
  [[AStr "consent"; AStr "default"; AObj (defaultObj opts)]]
  ++ (if default false (ads_data_redaction opts)
      then [set_signal "ads_data_redaction"] else [])
  ++ (if default false (url_passthrough opts)
      then [set_signal "url_passthrough"] else [])
  ++ (if pass then [update_signal "granted"] else []).

Lemma inline_check_gtag expiry w :
  gtag (exec (inline_check expiry) w) = gtag w.
Proof.
  apply (stable_exec (λ w', gtag w' = gtag w) (inline_check expiry)); [|done].
  unfold inline_check, call_gtag, emit.
  repeat first
    [ js_step
    | apply stable_localStorage; intros; assumption
    | apply stable_modify; intros; assumption ].
Qed.

(** The world in which the inline check runs. *)
Lemma script_prelude (a u : bool) d w :
  let w1 :=
    exec (if u then call_gtag OwnGtag [AStr "set"; AStr "url_passthrough"; ABool true]
          else ret ())
      (exec (if a then call_gtag OwnGtag
                         [AStr "set"; AStr "ads_data_redaction"; ABool true]
             else ret ())
         (exec (call_gtag OwnGtag d)
            (exec (modify (set_gtag (Some OwnGtag)))
               (exec (modify (λ w0, set_dataLayer
                                      (Some (default [] (dataLayer w0))) w0))
                  w)))) in
  let calls := [d] ++ (if a then [set_signal "ads_data_redaction"] else [])
               ++ (if u then [set_signal "url_passthrough"] else []) in
  storage w1 = storage w ∧ clock w1 = clock w
  ∧ trace w1 = trace w ++ (EvGtag <$> calls)
  ∧ dataLayer w1 = Some (default [] (dataLayer w) ++ calls)
  ∧ gtag w1 = Some OwnGtag.
Proof.
  cbv zeta. destruct a, u; cbn; rewrite <- ?app_assoc; by split_and!.
Qed.

Lemma run_script_reliable options w :
  reliable (storage w) →
  let expiry :=
    default DEFAULT_EXPIRY_DAYS (expiry_days (default no_options options)) in
  let calls :=
    script_calls options
      (check_passes expiry (clock w) (items (storage w) !! STORAGE_KEY)
         (items (storage w) !! STORAGE_DATE_KEY)) in
  gtag_calls (trace (exec (run_script options) w))
  = gtag_calls (trace w) ++ calls
  ∧ dataLayer (exec (run_script options) w)
    = Some (default [] (dataLayer w) ++ calls)
  ∧ gtag (exec (run_script options) w) = Some OwnGtag.
Proof.
  intros Hs. cbv zeta. unfold run_script, script_calls.
  rewrite !exec_bind_total;
    try first [ apply total_modify | apply total_call_gtag
              | apply total_if; first [apply total_call_gtag | apply total_ret] ].
  set (a := default false (ads_data_redaction (default no_options options))).
  set (u := default false (url_passthrough (default no_options options))).
  set (d := [AStr "consent"; AStr "default";
             AObj (defaultObj (default no_options options))]).
  destruct (script_prelude a u d w) as (Hst & Hclock & Htr & Hdl & Hg).
  match goal with
  | |- context [exec (inline_check ?e) ?w1] =>
      set (W1 := w1) in *;
      destruct (inline_check_reliable e W1) as [Htr2 Hdl2]; [by rewrite Hst|];
      pose proof (inline_check_gtag e W1) as Hg2
  end.
  rewrite Hst, Hclock in Htr2, Hdl2.
  split_and!.
  - rewrite Htr2, Htr, !gtag_calls_app, !gtag_calls_fmap.
    by rewrite <- !app_assoc.
  - rewrite Hdl2, Hdl. cbn [fmap option_fmap option_map].
    by rewrite <- !app_assoc.
  - by rewrite Hg2.
Qed.

(** *** The generated text as a program *)

Section GeneratedScript.
Import Script.

Lemma json_escape_quote_char a : json_escape a = quote_char a.
Proof. by destruct a as [[] [] [] [] [] [] [] []]. Qed.

Lemma json_string_quoted s : json_string s = quoted s.
Proof.
  unfold json_string, quoted. f_equal. f_equal.
  induction s as [|a s IH]; [done|]. cbn.
  by rewrite json_escape_quote_char, IH.
Qed.

Lemma serialized_array l :
  json_value (VArr l) = print_json (JArray (JString <$> l)).
Proof.
  cbn [json_value print_json]. do 3 f_equal.
  induction l as [|x l IH]; [done|]. cbn. by rewrite json_string_quoted, IH.
Qed.

Lemma serialized_payload opts :
  JSON_stringify (defaultObj opts) = print_json (payload opts).
Proof.
  unfold JSON_stringify, defaultObj, payload, settings, region_field.
  cbn [print_json].
  f_equal. f_equal. f_equal.
  rewrite !fmap_app. f_equal.
  - cbn. rewrite !json_string_quoted. unfold toString.
    by destruct (default denied (ad_storage opts)),
      (default denied (ad_user_data opts)),
      (default denied (ad_personalization opts)),
      (default denied (analytics_storage opts)),
      (default granted (functionality_storage opts)),
      (default granted (personalization_storage opts)),
      (default granted (security_storage opts)).
  - destruct (region opts) as [[|r rs]|]; [reflexivity| |reflexivity].
    change ([json_string "region" +:+ ":" +:+ json_value (VArr (r :: rs))]
            = [quoted "region" +:+ ":"
               +:+ print_json (JArray (JString <$> r :: rs))]).
    by rewrite serialized_array, json_string_quoted.
Qed.













(** The script for the default options, on a returning visitor. *)
Example default_script_calls :
  gtag_calls (trace (exec (run_script None) returning_visit))
  = [ default_signal 500 None; update_signal "granted" ].
Proof. vm_compute. reflexivity. Qed.

(** Replacing the region list. *)
Definition with_region (r : option (list string)) (o : ConsentModeDefaults)
  : ConsentModeDefaults :=
  {| analytics_storage := analytics_storage o; ad_storage := ad_storage o;
     ad_user_data := ad_user_data o;
     ad_personalization := ad_personalization o;
     functionality_storage := functionality_storage o;
     personalization_storage := personalization_storage o;
     security_storage := security_storage o;
     wait_for_update := wait_for_update o; region := r;
     ads_data_redaction := ads_data_redaction o;
     url_passthrough := url_passthrough o; expiry_days := expiry_days o |}.

Definition with_consentModeRegion (r : option (list string)) (p : Props)
  : Props :=
  {| expiryDays := expiryDays p; showReconsent := showReconsent p;
     onConsent := onConsent p; consentMode := consentMode p;
     adsDataRedaction := adsDataRedaction p;
     urlPassthrough := urlPassthrough p; consentModeRegion := r;
     waitForUpdate := waitForUpdate p; scripts := scripts p;
     reloadOnConsent := reloadOnConsent p |}.

(** C10.  In the object of the "default" signal of the banner and in the
    object the generator serializes, the [region] property is present,
    with the list as value, exactly when the list given is not empty; an
    empty list gives the same object, the same script text and the same
    calls at mount as no list.  In the generated text the data of the
    "default" call is the JSON text of the settings followed by the
    property [region], an array of the codes, exactly when the list is not
    empty (for a grace period that is a safe integer); for the codes CA-QC
    and US-CA and no other option that text is spelled out. *)
Theorem region_attached_iff_nonempty :
  (∀ p, obj_get "region" (defaultConsent p)
        = VArr <$> provided_region (consentModeRegion p))
  ∧ (∀ o, obj_get "region" (defaultObj o)
          = VArr <$> provided_region (region o))
  ∧ (∀ r, is_Some (provided_region r) ↔ ∃ l, r = Some l ∧ l ≠ [])
  ∧ (∀ p, defaultConsent (with_consentModeRegion (Some []) p)
          = defaultConsent (with_consentModeRegion None p))
  ∧ (∀ o, getConsentModeScript (Some (with_region (Some []) o))
          = getConsentModeScript (Some (with_region None o)))
  ∧ (∀ o r, safe_integer (default 500 (wait_for_update o)) →
       ∃ rest,
         getConsentModeScript (Some (with_region r o)) =
           "window.dataLayer=window.dataLayer||[];" +:+ newline
           +:+ "function gtag(){dataLayer.push(arguments);}" +:+ newline
           +:+ ("gtag('consent','default',"
                +:+ Script.print_json
                      (JObject
                         (Script.settings o
                          ++ match r with
                             | Some (x :: l) =>
                                 [("region", JArray (JString <$> x :: l))]
                             | _ => []
                             end))
                +:+ ");")
           +:+ newline +:+ rest)
  ∧ Script.print_json
      (JObject (Script.settings no_options
                ++ [("region", JArray [JString "CA-QC"; JString "US-CA"])]))
    = (let q s := dquote +:+ s +:+ dquote in
       "{" +:+ q "ad_storage" +:+ ":" +:+ q "denied" +:+ ","
       +:+ q "ad_user_data" +:+ ":" +:+ q "denied" +:+ ","
       +:+ q "ad_personalization" +:+ ":" +:+ q "denied" +:+ ","
       +:+ q "analytics_storage" +:+ ":" +:+ q "denied" +:+ ","
       +:+ q "functionality_storage" +:+ ":" +:+ q "granted" +:+ ","
       +:+ q "personalization_storage" +:+ ":" +:+ q "granted" +:+ ","
       +:+ q "security_storage" +:+ ":" +:+ q "granted" +:+ ","
       +:+ q "wait_for_update" +:+ ":500,"
       +:+ q "region" +:+ ":[" +:+ q "CA-QC" +:+ "," +:+ q "US-CA" +:+ "]}").
Proof.
  split_and!.
  - intros p. unfold defaultConsent.
    by destruct (consentModeRegion p) as [[|r rs]|].
  - intros o. unfold defaultObj. by destruct (region o) as [[|r rs]|].
  - intros [[|x l]|]; cbn; split.
    + by intros [? ?].
    + by intros (l & [= <-] & ?).
    + intros _. by eexists.
    + intros _. by eexists.
    + by intros [? ?].
    + by intros (l & ? & ?).
  - done.
  - done.
  - intros o r _.
    unfold getConsentModeScript, script_lines, setCalls, check_lines.
    cbv zeta. rewrite serialized_payload.
    change (payload (default no_options (Some (with_region r o))))
      with (JObject (settings o ++ region_field r)).
    unfold region_field.
    destruct (default false
                (ads_data_redaction
                   (default no_options (Some (with_region r o))))),
      (default false
         (url_passthrough (default no_options (Some (with_region r o)))));
      cbn [app]; rewrite 3!concat_cons_cons; eexists; reflexivity.
  - vm_compute. reflexivity.
Qed.

Lemma region_attached_iff_nonempty_witness :
  ∃ rest,
    getConsentModeScript (Some (with_region (Some ["CA-QC"]) no_options)) =
      "window.dataLayer=window.dataLayer||[];" +:+ newline
      +:+ "function gtag(){dataLayer.push(arguments);}" +:+ newline
      +:+ ("gtag('consent','default',"
           +:+ Script.print_json
                 (JObject (Script.settings no_options
                           ++ [("region", JArray [JString "CA-QC"])]))
           +:+ ");")
      +:+ newline +:+ rest.
Proof.
  refine (proj1 (proj2 (proj2 (proj2 (proj2 (proj2
    region_attached_iff_nonempty))))) no_options (Some ["CA-QC"]) _).
  vm_compute. discriminate.
Defined.

End GeneratedScript.
(** * Further properties of the sources *)

(** ** The readers of the store *)

Lemma isExpired_reliable E now s :
  reliable s →
  isExpired E now s =
    (Normal (match items s !! STORAGE_DATE_KEY with
             | Some d => if truthy (Some d) then gt (age_days now d) E else true
             | None => true
             end), next_op s).
Proof.
  intros H. run_store H.
  destruct (items s !! STORAGE_DATE_KEY) as [[|a d]|]; reflexivity.
Qed.

Lemma isExpired_items E now s : items (exec (isExpired E now) s) = items s.
Proof.
  unfold exec, isExpired, try_catch, bind, getItem, ret.
  destruct (throws s (ops s)); [done|]. cbn.
  by destruct (negb (truthy (items s !! STORAGE_DATE_KEY))).
Qed.

Lemma getSnapshot_eq s :
  ∃ r, getSnapshot s = (Normal r, next_op s)
       ∧ (r = None ∨ r = items s !! STORAGE_KEY).
Proof.
  unfold getSnapshot, try_catch, getItem, ret.
  destruct (throws s (ops s)); eexists; (split; [reflexivity|]); auto.
Qed.

Lemma useConsent_consent_items E now raw s :
  items (exec (useConsent_consent E now raw) s) = items s.
Proof.
  unfold exec, useConsent_consent, bind.
  destruct (negb (truthy raw)); [done|].
  pose proof (isExpired_items E now s) as Hi. unfold exec in Hi.
  destruct (isExpired_total E now s) as (b & s' & Heq).
  rewrite Heq in Hi |- *. done.
Qed.

Lemma useConsent_consent_total E now raw : total (useConsent_consent E now raw).
Proof.
  unfold useConsent_consent. apply total_bind; [|intros ?; apply total_ret].
  destruct (negb (truthy raw)); [apply total_ret|].
  apply total_bind; [apply isExpired_total|intros ?; apply total_ret].
Qed.

Lemma useConsent_total E now : total (useConsent E now).
Proof.
  unfold useConsent. apply total_bind; [apply getSnapshot_total|intros raw].
  apply total_bind; [apply useConsent_consent_total|intros ?; apply total_ret].
Qed.

(** The value a render of the hook computes on a working store. *)
Lemma useConsent_reliable E now s :
  reliable s →
  ∃ s', useConsent E now s =
    (Normal
       (let c := if truthy (items s !! STORAGE_KEY)
                 then (if fst (isExpired E now (next_op s)) is Normal false
                       then items s !! STORAGE_KEY else None)
                 else None in
        {| cs_consent := c; hasConsent := bool_decide (c ≠ None) |}), s').
Proof.
  intros H. unfold useConsent, bind at 1.
  rewrite getSnapshot_reliable by done.
  unfold bind at 1, useConsent_consent, bind at 1.
  destruct (truthy (items s !! STORAGE_KEY)) eqn:Ht; cbn [negb].
  - unfold bind at 1.
    rewrite (isExpired_reliable E now (next_op s)) by by apply reliable_next_op.
    cbn [fst]. unfold ret.
    match goal with |- context [negb ?b] => destruct b end; cbn [negb];
      by eexists.
  - unfold ret. by eexists.
Qed.

(** The value [getStoredConsent] computes on a working store. *)
Lemma getStoredConsent_value E now s :
  reliable s →
  fst (getStoredConsent E now s) =
    Normal (if truthy (items s !! STORAGE_KEY)
            then (if fst (isExpired E now (next_op s)) is Normal false
                  then items s !! STORAGE_KEY else None)
            else None).
Proof.
  intros H. unfold getStoredConsent at 1, try_catch, bind at 1.
  rewrite getItem_reliable by done.
  pose proof (reliable_next_op _ H) as H1.
  destruct (truthy (items s !! STORAGE_KEY)) eqn:Ht.
  - unfold bind at 1, bind at 1.
    rewrite (isExpired_reliable E now (next_op s)) by done.
    cbn [fst]. unfold ret at 1.
    match goal with |- context [negb ?b] => destruct b end; cbn [negb].
    + pose proof (reliable_next_op _ H1) as H2.
      unfold bind. rewrite removeItem_reliable by done.
      rewrite removeItem_reliable
        by by apply reliable_next_op, reliable_with_items.
      done.
    + done.
  - unfold bind, ret. cbn. done.
Qed.

(** On a working store the hook computes what the banner reads. *)
Lemma useConsent_like_banner E now s :
  reliable s →
  ∃ c, fst (useConsent E now s) = Normal c
       ∧ fst (getStoredConsent E now s) = Normal (cs_consent c)
       ∧ (hasConsent c = true ↔ cs_consent c ≠ None).
Proof.
  intros H. destruct (useConsent_reliable E now s H) as (s' & Heq).
  rewrite Heq. eexists. split; [reflexivity|]. cbn [cs_consent hasConsent].
  split; [by apply getStoredConsent_value|].
  by rewrite bool_decide_eq_true.
Qed.

(** X1 (useConsent, getSnapshot and isExpired of use-consent.ts;
    getStoredConsent of CookieConsent.tsx): on a store that works, a render of the hook and the
    banner's read return the same level; the hook reports [hasConsent]
    exactly when that level is not null; and on any store, failing or not,
    a render of the hook returns normally and leaves every entry in place
    (the banner's read removes a record it finds expired). *)
Theorem useConsent_agrees_with_getStoredConsent (E : Q) (now : Z)
    (s : Storage) :
  (reliable s →
     ∃ c, fst (useConsent E now s) = Normal c
          ∧ fst (getStoredConsent E now s) = Normal (cs_consent c)
          ∧ (hasConsent c = true ↔ cs_consent c ≠ None))
  ∧ (∃ c, fst (useConsent E now s) = Normal c)
  ∧ items (exec (useConsent E now) s) = items s.
Proof.
  split_and!.
  - apply useConsent_like_banner.
  - destruct (useConsent_total E now s) as (c & s' & ->). by eexists.
  - unfold exec, useConsent, bind at 1.
    destruct (getSnapshot_eq s) as (r & -> & _).
    unfold bind.
    pose proof (useConsent_consent_items E now r (next_op s)) as Hi.
    unfold exec in Hi.
    destruct (useConsent_consent_total E now r (next_op s)) as (c & s' & Heq).
    rewrite Heq in Hi |- *. done.
Qed.

Lemma useConsent_agrees_with_getStoredConsent_witness :
  ∃ c, fst (useConsent 365 1700000000000 (store_of sample_record)) = Normal c
       ∧ fst (getStoredConsent 365 1700000000000 (store_of sample_record))
         = Normal (cs_consent c)
       ∧ (hasConsent c = true ↔ cs_consent c ≠ None).
Proof.
  apply (proj1 (useConsent_agrees_with_getStoredConsent 365 1700000000000
                  (store_of sample_record))).
  intros n. reflexivity.
Defined.

(** ** Predicates on the store kept by every operation *)

Section StorePredicate.
Variable p : Props.
Variable J : Storage → Prop.
Hypothesis J_getItem : ∀ k, stable J (getItem k).
Hypothesis J_setItem : ∀ k v, stable J (setItem k v).
Hypothesis J_removeItem : ∀ k, stable J (removeItem k).

Let I (w : World) : Prop := J (storage w).

Lemma store_pred_isExpired E now : stable J (isExpired E now).
Proof. unfold isExpired. repeat first [apply J_getItem | js_step]. Qed.

Lemma store_pred_getStoredConsent E now : stable J (getStoredConsent E now).
Proof.
  unfold getStoredConsent.
  repeat first [ apply J_getItem | apply J_removeItem
               | apply store_pred_isExpired | js_step ].
Qed.

Lemma store_pred_getSnapshot : stable J getSnapshot.
Proof. unfold getSnapshot. repeat first [apply J_getItem | js_step]. Qed.

Lemma store_pred_read E now : stable I (localStorage (getStoredConsent E now)).
Proof. apply (stable_localStorage_store J), store_pred_getStoredConsent. Qed.

Lemma store_pred_snapshot : stable I (localStorage getSnapshot).
Proof. apply (stable_localStorage_store J), store_pred_getSnapshot. Qed.

Lemma store_pred_write level :
  stable I (try_catch
    (localStorage (setItem STORAGE_KEY (level_str level)) >>
     let* now := Date_now in
     localStorage (setItem STORAGE_DATE_KEY (toString now)))
    (ret ())).
Proof.
  repeat first [ apply (stable_localStorage_store J), J_setItem | js_step ].
Qed.

Lemma store_pred_clear :
  stable I (try_catch
    (localStorage (removeItem STORAGE_KEY) >>
     localStorage (removeItem STORAGE_DATE_KEY))
    (ret ())).
Proof.
  repeat first [ apply (stable_localStorage_store J), J_removeItem | js_step ].
Qed.

Lemma store_pred_effect_scripts : stable I (effect_scripts p).
Proof.
  apply stable_of_exec. intros w' Hw'.
  by destruct (effect_scripts_cases p w') as [->|(_ & _ & _ & _ & ->)].
Qed.

Lemma store_pred_handleConsent level : stable I (handleConsent p level).
Proof.
  apply (stable_handleConsent p I always);
    first [done | apply store_pred_read | apply store_pred_snapshot
          | apply store_pred_write].
Qed.

Lemma store_pred_setConsent level : stable I (setConsent p level).
Proof.
  apply (stable_setConsent p I always);
    first [done | apply store_pred_read | apply store_pred_snapshot
          | apply store_pred_write].
Qed.

Lemma store_pred_step a w :
  (∀ m s, a = ActStorageEvent m → J s → J (with_items m s)) →
  I w → I (step p a w).
Proof.
  intros Hforeign Hw.
  apply (step_invariant p I always);
    first [ done | apply store_pred_read | apply store_pred_snapshot
          | apply store_pred_write | apply store_pred_clear
          | apply store_pred_effect_scripts | idtac ].
  - apply (stable_effect_consentMode p I always); done.
  - intros m -> w' Hw'. by apply (Hforeign m).
Qed.

End StorePredicate.

(** Which operations of the store fail is not affected by the page. *)
Lemma faults_getItem f k : stable (λ s, throws s = f) (getItem k).
Proof. intros s Hs. unfold getItem. by destruct (throws s (ops s)). Qed.

Lemma faults_setItem f k v : stable (λ s, throws s = f) (setItem k v).
Proof. intros s Hs. unfold setItem. by destruct (throws s (ops s)). Qed.

Lemma faults_removeItem f k : stable (λ s, throws s = f) (removeItem k).
Proof. intros s Hs. unfold removeItem. by destruct (throws s (ops s)). Qed.

Lemma faults_step p a w : throws (storage (step p a w)) = throws (storage w).
Proof.
  apply (store_pred_step p (λ s, throws s = throws (storage w)));
    auto using faults_getItem, faults_setItem, faults_removeItem.
Qed.

Lemma reliable_step p a w : reliable (storage w) → reliable (storage (step p a w)).
Proof. intros H n. rewrite faults_step. apply H. Qed.

Lemma reliable_handleConsent p level w :
  reliable (storage w) → reliable (storage (exec (handleConsent p level) w)).
Proof.
  intros H n.
  rewrite (stable_exec (λ w', throws (storage w') = throws (storage w))
             (handleConsent p level) w); [apply H| |done].
  apply (store_pred_handleConsent p (λ s, throws s = throws (storage w)));
    auto using faults_getItem, faults_setItem, faults_removeItem.
Qed.

Lemma reliable_setConsent p level w :
  reliable (storage w) → reliable (storage (exec (setConsent p level) w)).
Proof.
  intros H n.
  rewrite (stable_exec (λ w', throws (storage w') = throws (storage w))
             (setConsent p level) w); [apply H| |done].
  apply (store_pred_setConsent p (λ s, throws s = throws (storage w)));
    auto using faults_getItem, faults_setItem, faults_removeItem.
Qed.

(** ** Writing a decision and reading it back *)

(** The entries after a decision or a programmatic write, on a working
    store and with a clock and an expiry window that are not negative. *)
Lemma handleConsent_items p level w :
  reliable (storage w) → (0 ≤ clock w)%Z → (0 <= expiryDays p)%Q →
  items (storage (exec (handleConsent p level) w))
  = written level (clock w) (items (storage w)).
Proof.
  intros Hs Hnow HE.
  destruct (handleConsent_split p level w)
    as (w0 & w1 & Hw0 & Heq & Hst & Hls & Hck & _).
  rewrite write_block_reliable in Hw0 by done.
  injection Hw0 as <-. cbn [storage set_storage] in Hst.
  unfold exec. rewrite Heq. fold (exec (dispatchEvent p CONSENT_CHANGE_EVENT >>
         modify (λ w, set_timers (timers w ++ [level]) w)) w1).
  rewrite exec_bind_total by apply total_dispatchEvent.
  unfold exec at 1, modify. cbn [snd storage set_timers].
  destruct (broadcast_written p level (clock w) w1) as (_ & _ & Hb).
  - rewrite Hst. by repeat apply reliable_next_op, reliable_with_items.
  - rewrite Hst. cbn. apply written_level.
  - rewrite Hst. cbn. apply written_date.
  - done.
  - destruct (Hb Hnow HE) as [_ ->]. by rewrite Hst.
Qed.

Lemma setConsent_items p level w :
  reliable (storage w) → (0 ≤ clock w)%Z → (0 <= expiryDays p)%Q →
  items (storage (exec (setConsent p level) w))
  = written level (clock w) (items (storage w)).
Proof.
  intros Hs Hnow HE. unfold exec, setConsent, bind at 1.
  rewrite write_block_reliable by done.
  match goal with
  | |- items (storage (snd (dispatchEvent p _ ?w1))) = _ => set (W1 := w1)
  end.
  destruct (broadcast_written p level (clock w) W1) as (_ & _ & Hb).
  - by repeat apply reliable_next_op, reliable_with_items.
  - cbn. apply written_level.
  - cbn. apply written_date.
  - done.
  - destruct (Hb Hnow HE) as [_ Hi]. unfold exec in Hi. by rewrite Hi.
Qed.

(** A record written at [t0], read at [t1]. *)
Lemma record_read E t1 s lv t0 :
  reliable s → lv ≠ "" → (0 ≤ t0)%Z →
  items s !! STORAGE_KEY = Some lv →
  items s !! STORAGE_DATE_KEY = Some (toString t0) →
  ((days_since t1 t0 <= E)%Q →
     fst (getStoredConsent E t1 s) = Normal (Some lv)
     ∧ items (exec (getStoredConsent E t1) s) = items s)
  ∧ ((E < days_since t1 t0)%Q →
     fst (getStoredConsent E t1 s) = Normal None
     ∧ items (exec (getStoredConsent E t1) s) = cleared (items s)).
Proof.
  intros Hs Hlv Ht0 Hk Hd. split.
  - intros Hle. unfold exec.
    rewrite (getStoredConsent_within E t1 s lv (toString t0) t0);
      auto using parseInt_toString.
  - intros Hlt.
    destruct (getStoredConsent_expired E t1 s lv) as (s' & Heq & _ & Hs');
      [done..| |by unfold exec; rewrite Heq].
    rewrite Hd. right. unfold age_days.
    rewrite parseInt_toString by done. cbn.
    apply negb_true_iff, not_true_iff_false.
    rewrite Qle_bool_iff. by apply Qlt_not_le.
Qed.

(** X2 (handleConsent, setConsent, getStoredConsent, isExpired): round trip
    of a decision through the store.  On a working store, with a clock
    that is a time value not below zero and an expiry window that is not
    negative, a level written at the instant [clock w] by the banner or by
    the hook is read back at any instant [t1] and for any window [E] as
    that level, the entries staying in place, when the age is at most [E],
    and as null, both entries being removed, when the age exceeds [E]; the
    age is the double the code computes for [(t1 - clock w) / 86400000],
    so that a record read an hour after it was written, with the double
    nearest to 1/24 as window, is still valid. *)
Theorem written_consent_read_back (p : Props) (level : ConsentLevel)
    (w w' : World) (E : Q) (t1 : Z) :
  reliable (storage w) → (0 ≤ clock w)%Z → safe_integer (clock w) →
  (0 <= expiryDays p)%Q →
  w' = exec (handleConsent p level) w ∨ w' = exec (setConsent p level) w →
  ((days_since t1 (clock w) <= E)%Q →
     fst (getStoredConsent E t1 (storage w')) = Normal (Some (level_str level))
     ∧ items (exec (getStoredConsent E t1) (storage w')) = items (storage w'))
  ∧ ((E < days_since t1 (clock w))%Q →
     fst (getStoredConsent E t1 (storage w')) = Normal None
     ∧ items (exec (getStoredConsent E t1) (storage w'))
       = cleared (items (storage w'))).
Proof.
  intros Hs Hnow _ HE Hw'.
  assert (reliable (storage w')
          ∧ items (storage w') = written level (clock w) (items (storage w)))
    as [Hs' Hi].
  { destruct Hw' as [-> | ->].
    - split; [by apply reliable_handleConsent|by apply handleConsent_items].
    - split; [by apply reliable_setConsent|by apply setConsent_items]. }
  apply (record_read E t1 (storage w') (level_str level) (clock w));
    [done|apply level_str_nonempty|done|..].
  - rewrite Hi. apply written_level.
  - rewrite Hi. apply written_date.
Qed.

Lemma written_consent_read_back_witness :
  fst (getStoredConsent 365 1710000000000
         (storage (exec (setConsent sample_props all) first_visit)))
  = Normal (Some "all").
Proof.
  refine (proj1 (proj1 (written_consent_read_back sample_props all first_visit
    _ 365 1710000000000 _ _ _ _ (or_intror eq_refl)) _)).
  - intros n. reflexivity.
  - vm_compute. discriminate.
  - vm_compute. discriminate.
  - vm_compute. discriminate.
  - vm_compute. discriminate.
Defined.

(** ** What the listeners and the effects leave alone *)

(** The state update of the banner's handler when it has read [stored], in
    a render whose state is [cur], on the queued state [b]. *)
Definition listener_update (stored : option string) (cur b : BannerState)
  : BannerState :=
  if negb (truthy stored) && negb (showBanner cur)
  then {| mounted := mounted b; showBanner := true; isVisible := false;
          consent := stored |}
  else {| mounted := mounted b; showBanner := showBanner b;
          isVisible := isVisible b; consent := stored |}.

Lemma banner_listener_eq p w r s' :
  getStoredConsent (expiryDays p) (clock w) (storage w) = (Normal r, s') →
  banner_listener p w =
    (Normal (),
     set_pending (listener_update r (st w) (pending w)) (set_storage s' w)).
Proof.
  intros Heq.
  unfold banner_listener, bind, Date_now, gets, localStorage,
    setConsentState, setIsVisible, setShowBanner, modify, ret.
  rewrite Heq. cbn [st set_pending set_storage pending]. unfold listener_update.
  by destruct (negb (truthy r) && negb (showBanner (st w))).
Qed.

Lemma set_pending_storage_twice b1 s1 b2 s2 w :
  set_pending b2 (set_storage s2 (set_pending b1 (set_storage s1 w)))
  = set_pending b2 (set_storage s2 w).
Proof. done. Qed.

Lemma set_pending_storage_id w :
  set_pending (pending w) (set_storage (storage w) w) = w.
Proof. by destruct w. Qed.

(** A subscriber after a run of the listeners: the banner's handler is
    the same, a [useConsent] consumer holds a new snapshot. *)
Definition observed (Rh : option string → Prop) (l l' : listener) : Prop :=
  match l, l' with
  | LBanner, LBanner => True
  | LHook e _, LHook e' raw => e' = e ∧ Rh raw
  | _, _ => False
  end.

Lemma observed_shape Rh ls ls' :
  Forall2 (observed Rh) ls ls' → is_banner <$> ls' = is_banner <$> ls.
Proof.
  induction 1 as [|[|e r] [|e' r'] ls ls' Ho _ IH]; cbn; try done;
    by rewrite IH.
Qed.

(** A run of the listeners changes the store and the queued state only.
    [J] is a predicate the reads keep on the store, [Rh] and [Rd] hold of
    the values the consumers and the banner's handler read under [J]; the
    queued state has gone through one update of the banner's handler for
    each of its subscriptions. *)
Lemma notify_frame p (J : Storage → Prop) (Rd Rh : option string → Prop)
    ls w :
  (∀ s, J s → ∃ r, getSnapshot s = (Normal r, next_op s)
                   ∧ J (next_op s) ∧ Rh r) →
  (∀ s, J s → ∃ r s', getStoredConsent (expiryDays p) (clock w) s
                      = (Normal r, s') ∧ J s' ∧ Rd r) →
  J (storage w) →
  ∃ ls' s b,
    notify p ls w = (Normal ls', set_pending b (set_storage s w))
    ∧ Forall2 (observed Rh) ls ls'
    ∧ J s
    ∧ (∀ P0 P1 : BannerState → Prop,
         (∀ r x, Rd r → P0 x → P1 (listener_update r (st w) x)) →
         (∀ r x, Rd r → P1 x → P1 (listener_update r (st w) x)) →
         P0 (pending w) →
         if existsb is_banner ls then P1 b else P0 b).
Proof.
  intros Hsnap Hread. revert w Hread.
  induction ls as [|[|e raw] ls IH]; intros w Hread HJ.
  - exists [], (storage w), (pending w).
    rewrite set_pending_storage_id. split_and!; [done|constructor|done|].
    by intros P0 P1 _ _ H0.
  - cbn [notify]. unfold bind at 1.
    destruct (Hread (storage w) HJ) as (r & s' & Heq & HJ' & Hr).
    rewrite (banner_listener_eq p w r s' Heq). cbv beta iota.
    destruct (IH (set_pending (listener_update r (st w) (pending w))
                    (set_storage s' w)) Hread HJ')
      as (ls' & s & b & Hn & Hsh & HJs & Hb).
    unfold bind. rewrite Hn. rewrite set_pending_storage_twice.
    exists (LBanner :: ls'), s, b. split_and!; [done|by constructor|done|].
    intros P0 P1 H01 H11 H0. cbn [existsb is_banner orb].
    specialize (Hb P1 P1 H11 H11). cbn [pending set_pending st set_storage] in Hb.
    specialize (Hb (H01 r _ Hr H0)).
    by destruct (existsb is_banner ls).
  - cbn [notify]. unfold bind at 1, localStorage at 1.
    destruct (Hsnap (storage w) HJ) as (r & Heq & HJ' & Hr). rewrite Heq.
    destruct (IH (set_storage (next_op (storage w)) w) Hread HJ')
      as (ls' & s & b & Hn & Hsh & HJs & Hb).
    unfold bind. rewrite Hn.
    exists (LHook e r :: ls'), s, b.
    split_and!; [done|by constructor|done|exact Hb].
Qed.

Lemma fire_frame p (J : Storage → Prop) (Rd Rh : option string → Prop) w :
  (∀ s, J s → ∃ r, getSnapshot s = (Normal r, next_op s)
                   ∧ J (next_op s) ∧ Rh r) →
  (∀ s, J s → ∃ r s', getStoredConsent (expiryDays p) (clock w) s
                      = (Normal r, s') ∧ J s' ∧ Rd r) →
  J (storage w) →
  ∃ ls' s b,
    fire p w = (Normal (), set_listeners ls' (set_pending b (set_storage s w)))
    ∧ Forall2 (observed Rh) (listeners w) ls'
    ∧ J s
    ∧ (∀ P0 P1 : BannerState → Prop,
         (∀ r x, Rd r → P0 x → P1 (listener_update r (st w) x)) →
         (∀ r x, Rd r → P1 x → P1 (listener_update r (st w) x)) →
         P0 (pending w) →
         if existsb is_banner (listeners w) then P1 b else P0 b).
Proof.
  intros Hsnap Hread HJ.
  destruct (notify_frame p J Rd Rh (listeners w) w Hsnap Hread HJ)
    as (ls' & s & b & Hn & H).
  exists ls', s, b. split; [|exact H].
  unfold fire, bind, gets, modify. by rewrite Hn.
Qed.

Lemma dispatchEvent_frame p (J : Storage → Prop)
    (Rd Rh : option string → Prop) w :
  (∀ s, J s → ∃ r, getSnapshot s = (Normal r, next_op s)
                   ∧ J (next_op s) ∧ Rh r) →
  (∀ s, J s → ∃ r s', getStoredConsent (expiryDays p) (clock w) s
                      = (Normal r, s') ∧ J s' ∧ Rd r) →
  J (storage w) →
  ∃ ls' s b,
    dispatchEvent p CONSENT_CHANGE_EVENT w =
      (Normal (),
       set_listeners ls' (set_pending b (set_storage s
         (set_trace (trace w ++ [EvDispatch CONSENT_CHANGE_EVENT]) w))))
    ∧ Forall2 (observed Rh) (listeners w) ls'
    ∧ J s
    ∧ (∀ P0 P1 : BannerState → Prop,
         (∀ r x, Rd r → P0 x → P1 (listener_update r (st w) x)) →
         (∀ r x, Rd r → P1 x → P1 (listener_update r (st w) x)) →
         P0 (pending w) →
         if existsb is_banner (listeners w) then P1 b else P0 b).
Proof.
  intros Hsnap Hread HJ.
  destruct (fire_frame p J Rd Rh
    (set_trace (trace w ++ [EvDispatch CONSENT_CHANGE_EVENT]) w)
    Hsnap Hread HJ) as (ls' & s & b & Hn & H).
  exists ls', s, b. split; [|exact H].
  unfold dispatchEvent, bind, emit, modify.
  rewrite bool_decide_eq_true_2 by done. exact Hn.
Qed.

(** The reads on any store: nothing is known of their values, and the
    failing operations stay the same. *)
Lemma any_snapshot f s :
  throws s = f →
  ∃ r, getSnapshot s = (Normal r, next_op s) ∧ throws (next_op s) = f ∧ True.
Proof.
  intros Hf. destruct (getSnapshot_eq s) as (r & Heq & _). by exists r.
Qed.

Lemma any_read E now f s :
  throws s = f →
  ∃ r s', getStoredConsent E now s = (Normal r, s') ∧ throws s' = f ∧ True.
Proof.
  intros Hf. destruct (getStoredConsent_total E now s) as (r & s' & Heq).
  exists r, s'. split_and!; [done| |done].
  pose proof (stable_exec (λ s0, throws s0 = f) (getStoredConsent E now) s)
    as Hs.
  unfold exec in Hs. rewrite Heq in Hs. apply Hs; [|done].
  apply store_pred_getStoredConsent;
    auto using faults_getItem, faults_removeItem.
Qed.

(** Conditions under which a predicate is kept by the effects that run
    after the first render. *)
Record rerender_closed (cleanup : bool) (I : World → Prop) : Prop := {
  rr_listeners : ∀ w, I w →
    I (set_listeners ((if cleanup then unsubscribe (listeners w)
                       else listeners w)
                      ++ (if mounted (st w) then [LBanner] else [])) w);
  rr_dataLayer : ∀ w v, I w → I (set_dataLayer v w);
  rr_gtag : ∀ w v, I w → I (set_gtag v w);
  rr_gtag_call : ∀ w c, I w → I (set_trace (trace w ++ [EvGtag c]) w);
  rr_inject : ∀ w m, I w → I (set_trace (trace w ++ [EvInject m]) w);
  rr_initRef : ∀ w, I w → I (set_consentModeInitRef true w);
  rr_injectedRef : ∀ w, I w → I (set_scriptsInjectedRef true w)
}.

Lemma rerender_effect_sync I first prev :
  rerender_closed (negb first && mounted prev) I →
  stable I (effect_sync first prev).
Proof.
  intros HI w Hw. rewrite effect_sync_eq. by apply (rr_listeners _ I HI).
Qed.

Lemma rerender_effect_consentMode p c I :
  rerender_closed c I → stable I (effect_consentMode p).
Proof.
  intros HI.
  apply (stable_effect_consentMode p I is_gtag);
    first [ exact (rr_dataLayer c I HI) | exact (rr_gtag c I HI)
          | exact (rr_initRef c I HI) | done | idtac ].
  intros w [g| | | |] He Hw; try done. by apply (rr_gtag_call c I HI).
Qed.

Lemma rerender_effect_scripts p c I :
  rerender_closed c I → stable I (effect_scripts p).
Proof.
  intros HI. apply stable_of_exec. intros w Hw.
  destruct (effect_scripts_cases p w) as [->|(_ & _ & _ & _ & ->)]; [done|].
  by apply (rr_inject c I HI (set_scriptsInjectedRef true w)),
    (rr_injectedRef c I HI).
Qed.

Lemma rerender_run_effects p I prev :
  rerender_closed (mounted prev) I → stable I (run_effects p false prev).
Proof.
  intros HI. unfold run_effects. cbn [orb].
  repeat first
    [ apply rerender_effect_sync; exact HI
    | apply (rerender_effect_consentMode p (mounted prev)); exact HI
    | apply (rerender_effect_scripts p (mounted prev)); exact HI
    | js_step ].
Qed.

Lemma set_st_id w : set_st (st w) w = w.
Proof. by destruct w. Qed.

(** A commit renders the queued state and runs effects. *)
Lemma rerender_commit p I w :
  rerender_closed (mounted (st w)) I →
  I (set_st (pending w) w) → I (exec (commit p) w).
Proof.
  intros HI Hw. destruct (decide (st w = pending w)) as [Heq|Hne].
  - unfold exec. rewrite commit_same by done. cbn [snd].
    rewrite <- Heq, set_st_id in Hw. exact Hw.
  - unfold exec. rewrite commit_eq by done.
    apply (stable_exec I (run_effects p false (st w))); [|exact Hw].
    by apply rerender_run_effects.
Qed.

(** Fields no effect of a re-render touches. *)
Lemma commit_fields p w :
  let w' := exec (commit p) w in
  st w' = pending w ∧ pending w' = pending w ∧ storage w' = storage w
  ∧ clock w' = clock w ∧ timers w' = timers w.
Proof.
  cbv zeta.
  apply (rerender_commit p
    (λ w', st w' = pending w ∧ pending w' = pending w
           ∧ storage w' = storage w ∧ clock w' = clock w
           ∧ timers w' = timers w)); [|done].
  by split.
Qed.

Lemma step_exec p a w :
  enabled p a w = true → step p a w = exec (commit p) (exec (handle p a) w).
Proof.
  intros He. unfold step. rewrite He.
  apply exec_bind_total, total_handle.
Qed.

(** ** The handlers, up to their broadcast *)

(** The write block of [handleConsent] and [setConsent] changes the store
    only. *)
Lemma write_block_eq level w :
  ∃ s0,
    try_catch
      (localStorage (setItem STORAGE_KEY (level_str level)) >>
       let* now := Date_now in
       localStorage (setItem STORAGE_DATE_KEY (toString now)))
      (ret ()) w = (Normal (), set_storage s0 w)
    ∧ throws s0 = throws (storage w).
Proof.
  destruct (storage_only_write level w) as (s0 & Hs0).
  destruct (total_try_catch
    (localStorage (setItem STORAGE_KEY (level_str level)) >>
     let* now := Date_now in
     localStorage (setItem STORAGE_DATE_KEY (toString now)))
    (ret ()) (total_ret ()) w) as ([] & w0 & Hw0).
  pose proof (store_pred_write (λ s, throws s = throws (storage w))
    (faults_setItem _) level w eq_refl) as Hf.
  rewrite Hw0 in Hs0, Hf. cbn [snd] in Hs0. subst w0.
  exists s0. by split.
Qed.

(** The clear block of [handleReconsent] and [resetConsent]. *)
Lemma clear_block_eq w :
  ∃ s0,
    try_catch
      (localStorage (removeItem STORAGE_KEY) >>
       localStorage (removeItem STORAGE_DATE_KEY))
      (ret ()) w = (Normal (), set_storage s0 w)
    ∧ throws s0 = throws (storage w).
Proof.
  destruct (storage_only_clear w) as (s0 & Hs0).
  destruct (total_try_catch
    (localStorage (removeItem STORAGE_KEY) >>
     localStorage (removeItem STORAGE_DATE_KEY))
    (ret ()) (total_ret ()) w) as ([] & w0 & Hw0).
  pose proof (store_pred_clear (λ s, throws s = throws (storage w))
    (faults_removeItem _) w eq_refl) as Hf.
  rewrite Hw0 in Hs0, Hf. cbn [snd] in Hs0. subst w0.
  exists s0. by split.
Qed.

(** The page when [handleConsent] reaches its broadcast, [s0] being the
    store the write block has left. *)
Definition decided (p : Props) (level : ConsentLevel) (s0 : Storage)
    (w : World) : World :=
  {| clock := clock w; storage := s0;
     dataLayer :=
       if consentMode p
       then match gtag w with
            | Some OwnGtag =>
                (λ q, q ++ [consent_update (bool_decide (level = all))])
                  <$> dataLayer w
            | _ => dataLayer w
            end
       else dataLayer w;
     gtag := gtag w; listeners := listeners w; timers := timers w;
     trace := trace w ++ decision_events p level (gtag w);
     st := st w;
     pending := {| mounted := mounted (pending w);
                   showBanner := showBanner (pending w);
                   isVisible := false;
                   consent := Some (level_str level) |};
     scriptsInjectedRef := scriptsInjectedRef w;
     consentModeInitRef := consentModeInitRef w |}.

Lemma handleConsent_eq p level w s0 :
  try_catch
    (localStorage (setItem STORAGE_KEY (level_str level)) >>
     let* now := Date_now in
     localStorage (setItem STORAGE_DATE_KEY (toString now)))
    (ret ()) w = (Normal (), set_storage s0 w) →
  handleConsent p level w =
    (dispatchEvent p CONSENT_CHANGE_EVENT >>
     modify (λ w, set_timers (timers w ++ [level]) w)) (decided p level s0 w).
Proof.
  intros Hw0. unfold decided, decision_events.
  destruct (consentMode p) eqn:Hcm, (gtag w) as [[|]|] eqn:Hg,
    (onConsent p) eqn:Hcb;
    unfold handleConsent; rewrite Hcm, Hcb;
    unfold bind at 1; rewrite Hw0;
    cbv [bind setConsentState setIsVisible modify gets emit call_gtag ret];
    cbn [gtag set_pending set_storage set_trace set_dataLayer fst snd];
    rewrite ?Hg; cbn [fst snd];
    unfold set_trace, set_pending, set_storage, set_dataLayer;
    cbn [clock storage dataLayer gtag listeners timers trace st pending
         scriptsInjectedRef consentModeInitRef
         mounted showBanner isVisible consent];
    rewrite ?Hg, ?app_nil_r, <- ?app_assoc; reflexivity.
Qed.

(** The page when [handleReconsent] reaches its broadcast. *)
Definition reopened (s0 : Storage) (w : World) : World :=
  set_scriptsInjectedRef false
    (set_pending {| mounted := mounted (pending w); showBanner := true;
                    isVisible := false; consent := None |}
       (set_storage s0 w)).

Lemma handleReconsent_eq p w s0 :
  try_catch
    (localStorage (removeItem STORAGE_KEY) >>
     localStorage (removeItem STORAGE_DATE_KEY))
    (ret ()) w = (Normal (), set_storage s0 w) →
  handleReconsent p w = dispatchEvent p CONSENT_CHANGE_EVENT (reopened s0 w).
Proof.
  intros Hw0. unfold handleReconsent, bind at 1. rewrite Hw0.
  reflexivity.
Qed.

Lemma resetConsent_eq p w s0 :
  try_catch
    (localStorage (removeItem STORAGE_KEY) >>
     localStorage (removeItem STORAGE_DATE_KEY))
    (ret ()) w = (Normal (), set_storage s0 w) →
  resetConsent p w = dispatchEvent p CONSENT_CHANGE_EVENT (set_storage s0 w).
Proof. intros Hw0. unfold resetConsent, bind at 1. by rewrite Hw0. Qed.

Lemma setConsent_eq p level w s0 :
  try_catch
    (localStorage (setItem STORAGE_KEY (level_str level)) >>
     let* now := Date_now in
     localStorage (setItem STORAGE_DATE_KEY (toString now)))
    (ret ()) w = (Normal (), set_storage s0 w) →
  setConsent p level w = dispatchEvent p CONSENT_CHANGE_EVENT (set_storage s0 w).
Proof. intros Hw0. unfold setConsent, bind at 1. by rewrite Hw0. Qed.

Lemma dispatchEvent_trace p w :
  trace (exec (dispatchEvent p CONSENT_CHANGE_EVENT) w)
  = trace w ++ [EvDispatch CONSENT_CHANGE_EVENT].
Proof. rewrite dispatchEvent_exec, fire_trace. done. Qed.

(** ** The events of a step *)

(** Whether the exit timeout of a decision reloads the page. *)
Definition reloads_after (p : Props) (level : ConsentLevel) : bool :=
  reloadOnConsent p && bool_decide (level = all) && truthy (Some (scripts p)).

(** The events a handler issues itself, in order. *)
Definition handler_events (p : Props) (a : action) (w : World) : list event :=
  match a with
  | ActClick level =>
      decision_events p level (gtag w) ++ [EvDispatch CONSENT_CHANGE_EVENT]
  | ActEscape =>
      decision_events p necessary (gtag w) ++ [EvDispatch CONSENT_CHANGE_EVENT]
  | ActReconsent | ActHookSet _ | ActHookReset =>
      [EvDispatch CONSENT_CHANGE_EVENT]
  | ActExitTimer =>
      match timers w with
      | level :: _ => if reloads_after p level then [EvReload] else []
      | [] => []
      end
  | _ => []
  end.

(** Events of the effects: calls of [gtag] and script injections. *)
Definition effect_event (e : event) : bool := is_gtag e || is_inject e.

Lemma handleConsent_trace p level w :
  trace (exec (handleConsent p level) w)
  = trace w ++ decision_events p level (gtag w)
    ++ [EvDispatch CONSENT_CHANGE_EVENT].
Proof.
  destruct (write_block_eq level w) as (s0 & Hw0 & _).
  unfold exec. rewrite (handleConsent_eq p level w s0 Hw0).
  fold (exec (dispatchEvent p CONSENT_CHANGE_EVENT >>
         modify (λ w, set_timers (timers w ++ [level]) w))
         (decided p level s0 w)).
  rewrite exec_bind_total by apply total_dispatchEvent.
  unfold exec at 1, modify. cbn [snd trace set_timers].
  rewrite dispatchEvent_trace. cbn [trace decided]. by rewrite <- app_assoc.
Qed.

Lemma handle_trace p a w :
  a ≠ ActMount →
  trace (exec (handle p a) w) = trace w ++ handler_events p a w.
Proof.
  intros Ha. destruct a; try (by destruct Ha); cbn [handle handler_events].
  - apply handleConsent_trace.
  - apply handleConsent_trace.
  - destruct (clear_block_eq w) as (s0 & Hw0 & _).
    unfold exec. rewrite (handleReconsent_eq p w s0 Hw0).
    apply (dispatchEvent_trace p (reopened s0 w)).
  - unfold exec, bind, gets.
    destruct (timers w) as [|level rest]; cbn [fst snd].
    + cbn. by rewrite app_nil_r.
    + unfold reloads_after, exit_timeout, bind, setShowBanner, modify.
      cbn [fst snd].
      destruct (reloadOnConsent p && bool_decide (level = all)
                && truthy (Some (scripts p)));
        unfold emit, modify, ret; cbn [snd trace set_trace set_pending
                                         set_timers];
        by rewrite ?app_nil_r.
  - cbn. by rewrite app_nil_r.
  - cbn. by rewrite app_nil_r.
  - unfold exec, bind, modify. cbn [snd fst].
    fold (exec (fire p) (set_storage (with_items m (storage w)) w)).
    rewrite fire_trace. cbn. by rewrite app_nil_r.
  - unfold exec, subscribe, bind, localStorage, modify.
    destruct (getSnapshot (storage w)) as [[r|] s']; cbn;
      by rewrite app_nil_r.
  - destruct (write_block_eq level w) as (s0 & Hw0 & _).
    unfold exec. rewrite (setConsent_eq p level w s0 Hw0).
    apply (dispatchEvent_trace p (set_storage s0 w)).
  - destruct (clear_block_eq w) as (s0 & Hw0 & _).
    unfold exec. rewrite (resetConsent_eq p w s0 Hw0).
    apply (dispatchEvent_trace p (set_storage s0 w)).
Qed.

(** Effects append calls of [gtag] and injections only. *)
Definition effects_only (t : list event) (w : World) : Prop :=
  ∃ evs, trace w = t ++ evs ∧ Forall (λ e, effect_event e = true) evs.

Lemma effects_only_snoc t w e :
  effect_event e = true → effects_only t w →
  effects_only t (set_trace (trace w ++ [e]) w).
Proof.
  intros He (evs & Ht & Hevs). exists (evs ++ [e]). cbn [trace set_trace].
  rewrite Ht, app_assoc. split; [done|].
  apply Forall_app. split; [done|]. by constructor.
Qed.

Lemma effects_only_closed cl t : rerender_closed cl (effects_only t).
Proof.
  split; try done.
  - intros w c Hw. by apply effects_only_snoc.
  - intros w m Hw. by apply effects_only_snoc.
Qed.

Lemma effects_only_mount p t : stable (effects_only t) (run_effects p true initial_state).
Proof.
  pose proof (effects_only_closed false t) as HI.
  apply (stable_run_effects p (effects_only t)); try done.
  - intros E now. by apply stable_localStorage.
  - by apply (rerender_effect_consentMode p false).
  - by apply (rerender_effect_scripts p false).
Qed.

Lemma step_effects_only p a w :
  enabled p a w = true →
  effects_only (trace w ++ handler_events p a w) (step p a w).
Proof.
  intros He. rewrite step_exec by done.
  apply rerender_commit; [apply effects_only_closed|].
  assert (a = ActMount ∨ a ≠ ActMount) as [->|Ha]
    by (destruct a; first [by left | by right]).
  - cbn [handler_events handle]. rewrite app_nil_r.
    apply (stable_exec (effects_only (trace w)) _ w
             (effects_only_mount p (trace w))).
    exists []. by rewrite app_nil_r.
  - exists []. cbn [trace set_st]. rewrite (handle_trace p a w Ha).
    by rewrite app_nil_r.
Qed.

(** X3 (every handler and effect of CookieConsent.tsx, setConsent and
    resetConsent of use-consent.ts): the events of a step.  A step that can
    happen appends to the trace the events of its handler, in this order:
    for a decision the "update" call (when consent mode is on and [gtag] is
    defined), the callback (when the host supplied one) and the broadcast;
    for a reset or a write of the hook, and for the reconsent button, the
    broadcast alone; for an exit timeout the reload, when
    [reloadOnConsent] is set, the decision was "all" and [scripts] is not
    empty; for any other action nothing.  The effects of the renders it
    triggers follow, and add only calls of [gtag] and script injections.
    This holds on any store. *)
Theorem step_events (p : Props) (a : action) (w : World) :
  enabled p a w = true →
  ∃ evs, trace (step p a w) = trace w ++ handler_events p a w ++ evs
         ∧ Forall (λ e, effect_event e = true) evs.
Proof.
  intros He. destruct (step_effects_only p a w He) as (evs & Ht & Hevs).
  exists evs. split; [|exact Hevs]. by rewrite Ht, <- app_assoc.
Qed.

Lemma step_events_witness :
  ∃ evs,
    trace (step sample_props (ActClick all)
             (run sample_props [ActMount] first_visit))
    = trace (run sample_props [ActMount] first_visit)
      ++ [EvGtag (consent_update true); EvCallback all;
          EvDispatch CONSENT_CHANGE_EVENT] ++ evs
    ∧ Forall (λ e, effect_event e = true) evs.
Proof.
  apply (step_events sample_props (ActClick all)
           (run sample_props [ActMount] first_visit)).
  vm_compute. reflexivity.
Defined.

(** ** The first render *)

(** The page after the mount effect and the render it triggers, before the
    consent-mode and script effects of that render run. *)
Definition mounted_page (w : World) (r : option string) (s' : Storage)
  : World :=
  set_st (rendered r)
    (set_pending (rendered r)
       (set_listeners (listeners w ++ [LBanner]) (set_storage s' w))).

(** The first render of a banner on any page. *)
Lemma mount_world p w r s' :
  st w = initial_state → pending w = initial_state →
  getStoredConsent (expiryDays p) (clock w) (storage w) = (Normal r, s') →
  step p ActMount w =
    exec (effect_scripts p) (exec (effect_consentMode p) (mounted_page w r s')).
Proof.
  intros Hst Hp Heq.
  match goal with |- _ = exec _ (exec _ ?w0) => set (W := w0) end.
  unfold step. cbn [enabled]. rewrite Hst. cbn [mounted initial_state negb].
  unfold exec at 1. unfold bind at 1. cbn [handle].
  unfold run_effects at 1. unfold bind, gets. cbn [orb fst snd].
  rewrite (effect_init_eq p _ r s') by exact Heq.
  rewrite effect_sync_eq. cbn [st set_pending set_storage mounted].
  rewrite Hst. cbn [mounted initial_state].
  rewrite effect_consentMode_unmounted by (cbn; by rewrite Hst).
  rewrite effect_scripts_unmounted_eq by (cbn; by rewrite Hst).
  rewrite commit_eq
    by (cbn; rewrite Hst; by intros H; apply (f_equal mounted) in H).
  unfold run_effects, bind, gets, ret.
  cbn [st pending set_st set_listeners set_pending set_storage mounted
       initial_state showBanner isVisible fst snd].
  rewrite Hst, Hp.
  assert (Hch : changed mounted initial_state
                  {| mounted := true;
                     showBanner := if truthy r then showBanner initial_state
                                   else true;
                     isVisible := isVisible initial_state; consent := r |}
                = true)
    by by apply bool_decide_eq_true_2.
  rewrite Hch. rewrite !orb_true_r. cbn [orb].
  rewrite effect_sync_eq.
  cbn [st pending set_st set_listeners set_pending set_storage mounted
       listeners app initial_state showBanner isVisible].
  rewrite app_nil_r. unfold exec.
  match goal with
  | |- (let (_, _) := effect_consentMode p ?w0 in _).2 = _ =>
      replace w0 with W
  end.
  - destruct (total_effect_consentMode p W) as ([] & w1 & ->).
    cbn [fst snd].
    by destruct (effect_scripts p w1) as [[[]|] w2].
  - unfold W, mounted_page, rendered.
    replace (negb (truthy r)) with (if truthy r then false else true)
      by by destruct (truthy r).
    reflexivity.
Qed.

(** What the consent-mode and script effects leave alone. *)
Definition same_instance (w w' : World) : Prop :=
  st w' = st w ∧ pending w' = pending w ∧ listeners w' = listeners w
  ∧ storage w' = storage w ∧ clock w' = clock w ∧ timers w' = timers w.

Lemma effects_same_instance p w :
  same_instance w (exec (effect_scripts p) (exec (effect_consentMode p) w)).
Proof.
  pose (I := λ w', st w' = st w ∧ pending w' = pending w
                   ∧ listeners w' = listeners w ∧ storage w' = storage w
                   ∧ clock w' = clock w ∧ timers w' = timers w).
  assert (HI1 : stable I (effect_consentMode p)).
  { apply (stable_effect_consentMode p I always); done. }
  assert (HI2 : stable I (effect_scripts p)).
  { apply stable_of_exec. intros w' Hw'.
    by destruct (effect_scripts_cases p w') as [->|(_ & _ & _ & _ & ->)]. }
  apply (stable_exec I _ _ HI2), (stable_exec I _ _ HI1). by unfold I.
Qed.

(** Injections of the script effect, as a function of the state it sees. *)
Lemma effect_scripts_injections p w :
  injections (trace (exec (effect_scripts p) w))
  = (injections (trace w)
     + (if truthy (Some (scripts p)) && bool_decide (consent (st w) = Some "all")
           && mounted (st w) && negb (scriptsInjectedRef w)
        then 1 else 0))%nat.
Proof.
  unfold exec, effect_scripts, bind, gets. cbn [fst snd].
  destruct (truthy (Some (scripts p))), (bool_decide (consent (st w) = Some "all")),
    (mounted (st w)), (scriptsInjectedRef w); cbn [negb orb andb];
    unfold emit, ret, bind, modify; cbn [snd fst trace set_trace
      set_scriptsInjectedRef];
    rewrite ?injections_app; cbn; lia.
Qed.

Lemma effect_consentMode_injections p w :
  injections (trace (exec (effect_consentMode p) w)) = injections (trace w)
  ∧ scriptsInjectedRef (exec (effect_consentMode p) w) = scriptsInjectedRef w.
Proof.
  pose (I := λ w', injections (trace w') = injections (trace w)
                   ∧ scriptsInjectedRef w' = scriptsInjectedRef w).
  apply (stable_exec I (effect_consentMode p) w); [|done].
  apply (stable_effect_consentMode p I is_gtag); try done.
  intros w' [c| | | |] He [Hw1 Hw2]; try done.
  split; [|done]. cbn [trace set_trace]. by rewrite injections_snoc_other.
Qed.

(** The banner's state and subscription after its first render. *)
Lemma mount_state p w r s' :
  st w = initial_state → pending w = initial_state →
  getStoredConsent (expiryDays p) (clock w) (storage w) = (Normal r, s') →
  let w' := step p ActMount w in
  st w' = rendered r ∧ pending w' = rendered r
  ∧ listeners w' = listeners w ++ [LBanner].
Proof.
  intros Hst Hp Heq. cbv zeta.
  rewrite (mount_world p w r s' Hst Hp Heq).
  by destruct (effects_same_instance p (mounted_page w r s'))
    as (-> & -> & -> & _).
Qed.

(** X4 (the mount effect, the subscription effect and the script effect of
    CookieConsent.tsx): the first render.  Whatever the page and the store,
    mounting a banner reads the stored consent [r] once (null when the
    store fails); the banner is then mounted with consent [r], it is shown
    exactly when [r] is null, not yet visible; one handler of the banner
    is subscribed, after the subscribers the page already has, which all
    stay subscribed; and the gated scripts are injected at once exactly
    when [r] is "all", [scripts] is not empty and they had not been
    injected. *)
Theorem first_render (p : Props) (w : World) :
  st w = initial_state → pending w = initial_state →
  let r := stored_at_mount p (clock w) (storage w) in
  let w' := step p ActMount w in
  st w' = rendered r ∧ pending w' = rendered r
  ∧ listeners w' = listeners w ++ [LBanner]
  ∧ injections (trace w')
    = (injections (trace w)
       + (if truthy (Some (scripts p)) && bool_decide (r = Some "all")
             && negb (scriptsInjectedRef w)
          then 1 else 0))%nat.
Proof.
  intros Hst Hp. cbv zeta. unfold stored_at_mount.
  destruct (getStoredConsent_total (expiryDays p) (clock w) (storage w))
    as (r & s' & Heq).
  destruct (mount_state p w r s' Hst Hp Heq) as (H1 & H2 & H3).
  rewrite Heq. cbn [fst]. split_and!; [done..|].
  rewrite (mount_world p w r s' Hst Hp Heq).
  rewrite effect_scripts_injections.
  destruct (effect_consentMode_injections p (mounted_page w r s'))
    as [-> ->].
  pose (I := λ w', st w' = rendered r).
  assert (Hst' : st (exec (effect_consentMode p) (mounted_page w r s'))
                 = rendered r).
  { apply (stable_exec I (effect_consentMode p)); [|done].
    apply (stable_effect_consentMode p I always); done. }
  rewrite Hst'. cbn [consent mounted rendered trace mounted_page set_st
    set_pending set_listeners set_storage scriptsInjectedRef].
  by rewrite andb_true_r.
Qed.

Lemma first_render_witness :
  st (step sample_props ActMount returning_visit) = rendered (Some "all")
  ∧ injections (trace (step sample_props ActMount returning_visit)) = 1%nat.
Proof.
  pose proof (first_render sample_props returning_visit eq_refl eq_refl)
    as (H1 & _ & _ & H4).
  split; [exact H1|exact H4].
Defined.

(** ** The bootstrap script and the banner *)


(** The script changes the queue, the binding of [gtag] and the trace; it
    reads the store and writes nothing to it. *)
Definition script_frame (w w' : World) : Prop :=
  st w' = st w ∧ pending w' = pending w ∧ listeners w' = listeners w
  ∧ timers w' = timers w ∧ clock w' = clock w
  ∧ scriptsInjectedRef w' = scriptsInjectedRef w
  ∧ consentModeInitRef w' = consentModeInitRef w
  ∧ throws (storage w') = throws (storage w)
  ∧ items (storage w') = items (storage w).

Lemma script_frame_getItem w k : stable (script_frame w) (localStorage (getItem k)).
Proof.
  intros w' Hw'. unfold localStorage, getItem.
  destruct (throws (storage w') (ops (storage w'))); exact Hw'.
Qed.

Lemma script_frame_call_gtag w c : stable (script_frame w) (call_gtag OwnGtag c).
Proof. by apply (stable_call_gtag (script_frame w) always). Qed.

Lemma run_script_frame options w : script_frame w (exec (run_script options) w).
Proof.
  apply (stable_exec (script_frame w) (run_script options)).
  - unfold run_script, inline_check.
    repeat first
      [ apply script_frame_getItem | apply script_frame_call_gtag
      | apply stable_modify; intros w' Hw'; exact Hw'
      | js_step ].
  - by unfold script_frame.
Qed.

Lemma run_script_total options : total (run_script options).
Proof.
  unfold run_script.
  repeat first
    [ apply inline_check_total | apply total_call_gtag | js_step ].
Qed.

Lemma inline_check_unavailable expiry w :
  unavailable (storage w) → trace (exec (inline_check expiry) w) = trace w.
Proof.
  intros Hs. unfold exec, inline_check, try_catch, bind at 1, localStorage at 1.
  by rewrite getItem_unavailable.
Qed.

(** X5 (getConsentModeScript, consent-mode.ts): the emitted script only
    reads the store.  Run on any page, whatever fails in the store, it
    returns normally, leaves every entry in place, even those of a record
    that has expired, and leaves the banner's state and the subscribers
    alone; where every operation of the store throws it issues the
    "default" call and the "set" calls and no "update". *)
Theorem run_script_reads_only (options : option ConsentModeDefaults)
    (w : World) :
  (∃ w', run_script options w = (Normal (), w'))
  ∧ items (storage (exec (run_script options) w)) = items (storage w)
  ∧ st (exec (run_script options) w) = st w
  ∧ pending (exec (run_script options) w) = pending w
  ∧ listeners (exec (run_script options) w) = listeners w
  ∧ (unavailable (storage w) →
     gtag_calls (trace (exec (run_script options) w))
     = gtag_calls (trace w) ++ script_calls options false).
Proof.
  destruct (run_script_frame options w)
    as (H1 & H2 & H3 & _ & _ & _ & _ & _ & H9).
  split_and!; try done.
  - destruct (run_script_total options w) as ([] & w' & ->). by eexists.
  - intros Hs. unfold run_script, script_calls.
    rewrite !exec_bind_total;
      try first [ apply total_modify | apply total_call_gtag
                | apply total_if; first [apply total_call_gtag | apply total_ret] ].
    set (a := default false (ads_data_redaction (default no_options options))).
    set (u := default false (url_passthrough (default no_options options))).
    set (d := [AStr "consent"; AStr "default";
               AObj (defaultObj (default no_options options))]).
    destruct (script_prelude a u d w) as (Hst & Hclock & Htr & Hdl & Hg).
    rewrite inline_check_unavailable by by rewrite Hst.
    rewrite Htr, gtag_calls_app, gtag_calls_fmap.
    by rewrite app_nil_r, <- ?app_assoc.
Qed.

Lemma run_script_reads_only_witness :
  gtag_calls (trace (exec (run_script None) private_visit))
  = gtag_calls (trace private_visit) ++ script_calls None false.
Proof.
  apply (run_script_reads_only None private_visit).
  intros n. reflexivity.
Defined.

(** The check of the script and the read of the banner agree on a record
    whose timestamp is absent, empty or parses. *)
Lemma check_passes_stored (e : Z) now s :
  reliable s →
  match items s !! STORAGE_DATE_KEY with
  | Some d => d = "" ∨ is_Some (parseInt d)
  | None => True
  end →
  check_passes e now (items s !! STORAGE_KEY) (items s !! STORAGE_DATE_KEY)
  = bool_decide (match fst (getStoredConsent (inject_Z e) now s) with
                 | Normal r => r
                 | Thrown => None
                 end = Some "all").
Proof.
  intros Hs Hd.
  rewrite getStoredConsent_value by done.
  rewrite isExpired_reliable by by apply reliable_next_op.
  cbn [items next_op fst]. unfold check_passes.
  destruct (items s !! STORAGE_KEY) as [lv|] eqn:Hk; cbn [truthy andb];
    [|by rewrite bool_decide_eq_false_2].
  destruct lv as [|a lv']; cbn [truthy andb];
    [by rewrite bool_decide_eq_false_2|].
  destruct (items s !! STORAGE_DATE_KEY) as [d|] eqn:HD; cbn [truthy andb];
    [|by rewrite bool_decide_eq_false_2].
  destruct d as [|b d']; cbn [truthy andb default from_option id];
    [by rewrite bool_decide_eq_false_2|].
  destruct Hd as [?|[T HT]]; [done|].
  unfold age_days. rewrite HT. cbn [fmap option_fmap option_map gt le].
  destruct (Qle_bool (days_since now T) (inject_Z e)); cbn [negb andb].
  - apply bool_decide_ext. split; congruence.
  - by rewrite bool_decide_eq_false_2.
Qed.

(** X6 (getConsentModeScript of consent-mode.ts and getStoredConsent of
    CookieConsent.tsx): the script and the banner decide alike.  On a
    working store whose timestamp entry is absent, empty or parses, and for
    the same expiry window, the script issues its "update" call exactly
    when the banner, reading the store at that instant, finds the level
    "all". *)
Theorem script_update_iff_banner_reads_all
    (options : option ConsentModeDefaults) (p : Props) (w : World) :
  reliable (storage w) →
  match items (storage w) !! STORAGE_DATE_KEY with
  | Some d => d = "" ∨ is_Some (parseInt d)
  | None => True
  end →
  expiryDays p
  = inject_Z (default DEFAULT_EXPIRY_DAYS
                (expiry_days (default no_options options))) →
  gtag_calls (trace (exec (run_script options) w))
  = gtag_calls (trace w)
    ++ script_calls options
         (bool_decide (stored_at_mount p (clock w) (storage w) = Some "all")).
Proof.
  intros Hs Hd HE.
  destruct (run_script_reliable options w Hs) as (-> & _).
  rewrite (check_passes_stored _ _ _ Hs Hd). rewrite <- HE.
  reflexivity.
Qed.

Lemma script_update_iff_banner_reads_all_witness :
  gtag_calls (trace (exec (run_script None) returning_visit))
  = gtag_calls (trace returning_visit)
    ++ script_calls None
         (bool_decide (stored_at_mount sample_props (clock returning_visit)
                         (storage returning_visit) = Some "all")).
Proof.
  apply (script_update_iff_banner_reads_all None sample_props returning_visit).
  - intros n. reflexivity.
  - vm_compute. right. by eexists.
  - reflexivity.
Defined.



(** ** What a handler does to the banner's state and subscriptions *)

(** The queued state after the state updates a handler makes itself,
    before any listener runs. *)
Definition own_update (a : action) (w : World) : BannerState :=
  let b := pending w in
  match a with
  | ActClick level =>
      {| mounted := mounted b; showBanner := showBanner b;
         isVisible := false; consent := Some (level_str level) |}
  | ActEscape =>
      {| mounted := mounted b; showBanner := showBanner b;
         isVisible := false; consent := Some (level_str necessary) |}
  | ActReconsent =>
      {| mounted := mounted b; showBanner := true; isVisible := false;
         consent := None |}
  | ActExitTimer =>
      match timers w with
      | _ :: _ => {| mounted := mounted b; showBanner := false;
                     isVisible := isVisible b; consent := consent b |}
      | [] => b
      end
  | ActAnimFrame =>
      {| mounted := mounted b; showBanner := showBanner b;
         isVisible := true; consent := consent b |}
  | _ => b
  end.

Lemma any_frame p w0 w :
  ∃ ls' s b,
    dispatchEvent p CONSENT_CHANGE_EVENT w =
      (Normal (),
       set_listeners ls' (set_pending b (set_storage s
         (set_trace (trace w ++ [EvDispatch CONSENT_CHANGE_EVENT]) w))))
    ∧ is_banner <$> ls' = is_banner <$> listeners w
    ∧ (throws (storage w) = throws (storage w0) →
       throws s = throws (storage w0))
    ∧ (∀ P : BannerState → Prop,
         (∀ r x, P x → P (listener_update r (st w) x)) →
         P (pending w) → P b).
Proof.
  destruct (fire_frame p (λ s, throws s = throws (storage w))
              (λ _, True) (λ _, True)
              (set_trace (trace w ++ [EvDispatch CONSENT_CHANGE_EVENT]) w))
    as (ls' & s & b & Hn & Hsh & HJ & Hb).
  - intros s. apply any_snapshot.
  - intros s. apply any_read.
  - done.
  - exists ls', s, b. split_and!.
    + unfold dispatchEvent, bind, emit, modify.
      rewrite bool_decide_eq_true_2 by done. exact Hn.
    + by apply observed_shape in Hsh.
    + intros <-. exact HJ.
    + intros P HP H0. specialize (Hb P P). cbn [st pending set_trace] in Hb.
      specialize (Hb (λ r x _, HP r x) (λ r x _, HP r x) H0).
      by destruct (existsb is_banner _).
Qed.

(** The queue after the call of [gtag] a handler makes itself. *)
Definition own_dataLayer (p : Props) (a : action) (w : World)
  : option (list gcall) :=
  match a with
  | ActClick level => dataLayer (decided p level (storage w) w)
  | ActEscape => dataLayer (decided p necessary (storage w) w)
  | _ => dataLayer w
  end.

Lemma handle_frame p a w :
  a ≠ ActMount →
  let w' := exec (handle p a) w in
  st w' = st w
  ∧ (gtag w' = gtag w ∧ dataLayer w' = own_dataLayer p a w)
  ∧ (if a is ActStorageEvent _ then True
     else throws (storage w') = throws (storage w))
  ∧ is_banner <$> listeners w'
    = (is_banner <$> listeners w)
      ++ (if a is ActHookSubscribe _ then [false] else [])
  ∧ (∀ P : BannerState → Prop,
       (∀ r x, P x → P (listener_update r (st w) x)) →
       P (own_update a w) → P (pending w')).
Proof.
  intros Ha. cbv zeta.
  destruct a; try (by destruct Ha); cbn [handle own_update].
  - destruct (write_block_eq level w) as (s0 & Hw0 & Hf).
    unfold exec. rewrite (handleConsent_eq p level w s0 Hw0).
    unfold bind.
    destruct (any_frame p w (decided p level s0 w))
      as (ls' & s & b & -> & Hsh & Hth & Hb).
    cbn. rewrite app_nil_r. split_and!; [done|done|done|by apply Hth|done|done].
  - destruct (write_block_eq necessary w) as (s0 & Hw0 & Hf).
    unfold exec. rewrite (handleConsent_eq p necessary w s0 Hw0).
    unfold bind.
    destruct (any_frame p w (decided p necessary s0 w))
      as (ls' & s & b & -> & Hsh & Hth & Hb).
    cbn. rewrite app_nil_r. split_and!; [done|done|done|by apply Hth|done|done].
  - destruct (clear_block_eq w) as (s0 & Hw0 & Hf).
    unfold exec. rewrite (handleReconsent_eq p w s0 Hw0).
    destruct (any_frame p w (reopened s0 w))
      as (ls' & s & b & -> & Hsh & Hth & Hb).
    cbn. rewrite app_nil_r. split_and!; [done|done|done|by apply Hth|done|done].
  - unfold exec, bind, gets. cbn [fst snd].
    destruct (timers w) as [|level rest]; cbn [fst snd].
    + cbn. rewrite app_nil_r. by split_and!.
    + unfold exit_timeout, bind, setShowBanner, modify. cbn [fst snd].
      destruct (reloadOnConsent p && bool_decide (level = all)
                && truthy (Some (scripts p)));
        cbn; rewrite app_nil_r; by split_and!.
  - cbn. rewrite app_nil_r. by split_and!.
  - cbn. rewrite app_nil_r. by split_and!.
  - unfold exec, bind, modify. cbn [fst snd].
    destruct (fire_frame p
                (λ s, throws s = throws (storage w)) (λ _, True) (λ _, True)
                (set_storage (with_items m (storage w)) w))
      as (ls' & s & b & -> & Hsh & HJ & Hb).
    + intros s. apply any_snapshot.
    + intros s. apply any_read.
    + done.
    + cbn. rewrite app_nil_r.
      split_and!; [done..|by apply observed_shape in Hsh|].
      intros P HP H0. specialize (Hb P P). cbn [st pending set_storage] in Hb.
      specialize (Hb (λ r x _, HP r x) (λ r x _, HP r x) H0).
      by destruct (existsb is_banner _).
  - unfold exec, subscribe, bind, localStorage, modify.
    destruct (getSnapshot_eq (storage w)) as (r & -> & _).
    cbn. rewrite fmap_app. by split_and!.
  - destruct (write_block_eq level w) as (s0 & Hw0 & Hf).
    unfold exec. rewrite (setConsent_eq p level w s0 Hw0).
    destruct (any_frame p w (set_storage s0 w))
      as (ls' & s & b & -> & Hsh & Hth & Hb).
    cbn. rewrite app_nil_r. split_and!; [done|done|done|by apply Hth|done|done].
  - destruct (clear_block_eq w) as (s0 & Hw0 & Hf).
    unfold exec. rewrite (resetConsent_eq p w s0 Hw0).
    destruct (any_frame p w (set_storage s0 w))
      as (ls' & s & b & -> & Hsh & Hth & Hb).
    cbn. rewrite app_nil_r. split_and!; [done|done|done|by apply Hth|done|done].
Qed.

(** ** The subscription of the banner's handler *)

(** Number of handlers of the banner among the subscribers. *)
Definition banner_handlers (ls : list listener) : nat :=
  length (List.filter is_banner ls).

Lemma banner_handlers_app ls1 ls2 :
  banner_handlers (ls1 ++ ls2)
  = (banner_handlers ls1 + banner_handlers ls2)%nat.
Proof. unfold banner_handlers. by rewrite List.filter_app, length_app. Qed.

Lemma banner_handlers_none ls :
  existsb is_banner ls = false → banner_handlers ls = 0%nat.
Proof.
  unfold banner_handlers. induction ls as [|l r IH]; [done|]. cbn.
  by destruct (is_banner l).
Qed.

(** The cleanup removes one handler of the banner, if there is one. *)
Lemma banner_handlers_unsubscribe ls :
  banner_handlers (unsubscribe ls) = pred (banner_handlers ls).
Proof.
  induction ls as [|l r IH]; [done|]. cbn [unsubscribe].
  destruct (is_banner l) eqn:Hl; cbn [andb].
  - destruct (existsb is_banner r) eqn:Hr; cbn [negb].
    + unfold banner_handlers in *. cbn. rewrite Hl. cbn. rewrite IH.
      destruct (List.filter is_banner r) eqn:Hf; [|done].
      apply existsb_exists in Hr as (x & Hx & Hb).
      assert (In x (List.filter is_banner r)) as Hin
        by by apply List.filter_In.
      by rewrite Hf in Hin.
    + unfold banner_handlers. cbn. by rewrite Hl.
  - unfold banner_handlers in *. cbn. by rewrite Hl.
Qed.

(** The banner is mounted and the page holds [n] handlers of the banner
    besides the one it subscribed. *)
Definition subscribed (n : nat) (w : World) : Prop :=
  mounted (st w) = true ∧ mounted (pending w) = true
  ∧ banner_handlers (listeners w) = S n.

Lemma subscribed_closed n : rerender_closed true (subscribed n).
Proof.
  split; try done.
  intros w (Hm & Hp & Hc). split_and!; [done..|].
  cbn [listeners set_listeners]. rewrite Hm, banner_handlers_app.
  rewrite banner_handlers_unsubscribe, Hc. cbn. lia.
Qed.

Lemma listener_update_mounted r cur x :
  mounted (listener_update r cur x) = mounted x.
Proof. unfold listener_update. by destruct (_ && _). Qed.

Lemma own_update_mounted a w : mounted (own_update a w) = mounted (pending w).
Proof. destruct a; try done. cbn. by destruct (timers w). Qed.

Lemma step_subscribed p n a w :
  subscribed n w → subscribed n (step p a w).
Proof.
  intros (Hm & Hp & Hc).
  destruct (enabled p a w) eqn:He; [|by unfold step; rewrite He].
  rewrite step_exec by done.
  assert (Ha : a ≠ ActMount).
  { intros ->. cbn in He. by rewrite Hm in He. }
  destruct (handle_frame p a w Ha) as (Hst & _ & _ & Hsh & Hb).
  apply rerender_commit; [rewrite Hst, Hm; apply subscribed_closed|].
  split_and!; cbn [st pending listeners set_st].
  - apply (Hb (λ x, mounted x = true)).
    + intros r x Hx. by rewrite listener_update_mounted.
    + by rewrite own_update_mounted.
  - apply (Hb (λ x, mounted x = true)).
    + intros r x Hx. by rewrite listener_update_mounted.
    + by rewrite own_update_mounted.
  - unfold banner_handlers in *.
    rewrite <- Hc.
    transitivity (length (List.filter id (is_banner <$> listeners (exec (handle p a) w)))).
    { generalize (listeners (exec (handle p a) w)). intros l.
      induction l as [|x l IH]; [done|]. cbn.
      destruct (is_banner x); cbn; by rewrite IH. }
    rewrite Hsh. rewrite List.filter_app.
    replace (List.filter id (if a is ActHookSubscribe _ then [false] else []))
      with (@nil bool) by by destruct a.
    rewrite app_nil_r.
    generalize (listeners w). intros l.
    induction l as [|x l IH]; [done|]. cbn.
    destruct (is_banner x); cbn; by rewrite IH.
Qed.

(** X8 (the subscription effect of CookieConsent.tsx): the banner's handler
    is subscribed once.  After a banner is mounted on a page, and whatever
    happens afterwards, the page holds exactly one handler more than before
    the mount on the consent-change and "storage" events: the effect that
    subscribes the handler again on every change of [mounted] or
    [showBanner] first removes the one it subscribed before.  On a page
    that held no handler of the banner, exactly one is subscribed. *)
Theorem banner_subscribed_once (p : Props) (w : World)
    (acts : list action) :
  st w = initial_state → pending w = initial_state →
  let w' := run p (ActMount :: acts) w in
  banner_handlers (listeners w') = S (banner_handlers (listeners w))
  ∧ (existsb is_banner (listeners w) = false →
     List.filter is_banner (listeners w') = [LBanner]).
Proof.
  intros Hst Hp. cbv zeta. rewrite run_cons.
  assert (subscribed (banner_handlers (listeners w))
            (run p acts (step p ActMount w))) as (_ & _ & H).
  { apply (run_invariant p (subscribed (banner_handlers (listeners w)))).
    - intros a w' _. apply step_subscribed.
    - destruct (getStoredConsent_total (expiryDays p) (clock w) (storage w))
        as (r & s' & Heq).
      destruct (mount_state p w r s' Hst Hp Heq) as (H1 & H2 & H3).
      unfold subscribed. rewrite H1, H2, H3, banner_handlers_app. cbn.
      split_and!; [done..|lia]. }
  split; [exact H|]. intros Hno.
  rewrite (banner_handlers_none _ Hno) in H. unfold banner_handlers in H.
  destruct (List.filter is_banner _) as [|l [|l' ls]] eqn:Hf; try done.
  assert (In l (List.filter is_banner
                  (listeners (run p acts (step p ActMount w))))) as Hin
    by (rewrite Hf; by left).
  apply List.filter_In in Hin as [_ Hl]. by destruct l.
Qed.

Lemma banner_subscribed_once_witness :
  banner_handlers
    (listeners (run sample_props
       (ActMount :: [ActClick all; ActExitTimer; ActReconsent])
       first_visit))
  = 1%nat.
Proof.
  refine (proj1 (banner_subscribed_once sample_props first_visit
    [ActClick all; ActExitTimer; ActReconsent] _ _)).
  - reflexivity.
  - reflexivity.
Defined.

(** ** When the record disappears *)

(** A working store that holds no level entry. *)
Definition no_record (s : Storage) : Prop :=
  reliable s ∧ items s !! STORAGE_KEY = None.

Lemma no_record_snapshot s :
  no_record s →
  ∃ r, getSnapshot s = (Normal r, next_op s) ∧ no_record (next_op s) ∧ r = None.
Proof.
  intros [Hs Hk]. exists None. rewrite getSnapshot_reliable, Hk by done.
  split; [done|]. split; [|done]. split; [by apply reliable_next_op|done].
Qed.

Lemma no_record_read E now s :
  no_record s →
  ∃ r s', getStoredConsent E now s = (Normal r, s') ∧ no_record s' ∧ r = None.
Proof.
  intros [Hs Hk]. exists None, (next_op s).
  rewrite getStoredConsent_absent by (by rewrite ?Hk).
  split; [done|]. split; [|done]. split; [by apply reliable_next_op|done].
Qed.

Lemma no_record_cleared s :
  reliable s →
  no_record (next_op (next_op (with_items (cleared (items s)) s))).
Proof.
  intros Hs. split.
  - by repeat apply reliable_next_op, reliable_with_items.
  - cbn. unfold cleared. rewrite lookup_delete_ne by done.
    apply lookup_delete_eq.
Qed.

(** No [useConsent] consumer holds a level. *)
Definition hooks_see_none (ls : list listener) : Prop :=
  Forall (λ l, if l is LHook _ raw then raw = None else True) ls.

Lemma observed_none ls ls' :
  Forall2 (observed (λ r, r = None)) ls ls' → hooks_see_none ls'.
Proof.
  induction 1 as [|[|e r] [|e' r'] ls ls' Ho _ IH]; try done;
    constructor; try done. by destruct Ho.
Qed.

(** The state of a banner that asks again. *)
Definition prompting : BannerState :=
  {| mounted := true; showBanner := true; isVisible := false;
     consent := None |}.

Lemma dispatchEvent_fire p w :
  dispatchEvent p CONSENT_CHANGE_EVENT w
  = fire p (set_trace (trace w ++ [EvDispatch CONSENT_CHANGE_EVENT]) w).
Proof.
  unfold dispatchEvent, bind, emit, modify.
  by rewrite bool_decide_eq_true_2.
Qed.

Lemma reprompt_frame p w :
  no_record (storage w) →
  mounted (pending w) = true → showBanner (st w) = false →
  existsb is_banner (listeners w) = true →
  ∃ ls' s,
    fire p w =
      (Normal (), set_listeners ls' (set_pending prompting (set_storage s w)))
    ∧ hooks_see_none ls' ∧ no_record s.
Proof.
  intros HJ Hm Hsb Hex.
  destruct (fire_frame p no_record (λ r, r = None) (λ r, r = None) w)
    as (ls' & s & b & Heq & Hsh & HJs & Hb).
  - apply no_record_snapshot.
  - intros s. apply no_record_read.
  - done.
  - assert (b = prompting) as ->.
    { specialize (Hb (λ x, mounted x = true) (λ x, x = prompting)).
      rewrite Hex in Hb. apply Hb.
      + intros r x -> Hx. unfold listener_update.
        rewrite Hsb. cbn. by rewrite Hx.
      + intros r x -> ->. unfold listener_update. by rewrite Hsb.
      + done. }
    exists ls', s. split_and!; [done|by eapply observed_none|done].
Qed.

(** X9 (handleReconsent and the sync handler of CookieConsent.tsx,
    resetConsent of use-consent.ts): every way of losing the record asks
    again.  On a working store, when a mounted banner is dismissed and its
    handler is subscribed, the reconsent button, [resetConsent] of the hook
    and a change by another tab that leaves no level entry all end in the
    same state: no level entry in the store, the banner shown again, not
    yet visible, with consent null, and every [useConsent] consumer holding
    a null snapshot. *)
Theorem losing_the_record_asks_again (p : Props) (a : action) (w : World) :
  reliable (storage w) →
  mounted (st w) = true → showBanner (st w) = false → pending w = st w →
  existsb is_banner (listeners w) = true →
  enabled p a w = true →
  a = ActReconsent ∨ a = ActHookReset
  ∨ (∃ m, a = ActStorageEvent m ∧ m !! STORAGE_KEY = None) →
  let w' := step p a w in
  st w' = prompting ∧ pending w' = prompting
  ∧ items (storage w') !! STORAGE_KEY = None
  ∧ hooks_see_none (listeners w').
Proof.
  intros Hs Hm Hsb Hp Hex He Ha. cbv zeta. rewrite step_exec by done.
  apply (rerender_commit p
    (λ w', st w' = prompting ∧ pending w' = prompting
           ∧ items (storage w') !! STORAGE_KEY = None
           ∧ hooks_see_none (listeners w'))).
  { split; try done.
    intros w0 (H1 & H2 & H3 & H4). split_and!; try done.
    cbn [listeners set_listeners]. apply Forall_app. split.
    - destruct (mounted (st (exec _ w))); [by apply Forall_unsubscribe|done].
    - by destruct (mounted (st w0)); repeat constructor. }
  assert (Hmp : mounted (pending w) = true) by by rewrite Hp.
  destruct Ha as [->|[->|(m & -> & Hk)]]; cbn [handle]; unfold exec.
  - rewrite (handleReconsent_eq p w _ (clear_block_reliable w Hs)).
    rewrite dispatchEvent_fire.
    match goal with |- context [fire p ?w0] =>
      destruct (reprompt_frame p w0) as (ls' & s & -> & Hh & [_ Hn])
    end; try done.
    apply no_record_cleared, Hs.
  - rewrite (resetConsent_eq p w _ (clear_block_reliable w Hs)).
    rewrite dispatchEvent_fire.
    match goal with |- context [fire p ?w0] =>
      destruct (reprompt_frame p w0) as (ls' & s & -> & Hh & [_ Hn])
    end; try done.
    apply no_record_cleared, Hs.
  - unfold bind, modify.
    match goal with |- context [fire p ?w0] =>
      destruct (reprompt_frame p w0) as (ls' & s & -> & Hh & [_ Hn])
    end; try done.
Qed.

Lemma losing_the_record_asks_again_witness :
  st (step sample_props ActHookReset
        (run sample_props [ActMount; ActClick all; ActExitTimer] first_visit))
  = prompting.
Proof.
  refine (proj1 (losing_the_record_asks_again sample_props ActHookReset
    (run sample_props [ActMount; ActClick all; ActExitTimer] first_visit)
    _ _ _ _ _ _ _)).
  - intros n. vm_compute. reflexivity.
  - vm_compute. reflexivity.
  - vm_compute. reflexivity.
  - vm_compute. reflexivity.
  - vm_compute. reflexivity.
  - reflexivity.
  - right. by left.
Defined.

(** ** A decision, then its exit timeout *)

Lemma exit_timer_fields p w level rest :
  timers w = level :: rest →
  let w' := exec (handle p ActExitTimer) w in
  pending w' = {| mounted := mounted (pending w); showBanner := false;
                  isVisible := isVisible (pending w);
                  consent := consent (pending w) |}
  ∧ timers w' = rest ∧ st w' = st w ∧ storage w' = storage w.
Proof.
  intros Ht. cbv zeta. unfold exec. cbn [handle]. unfold bind, gets.
  rewrite Ht. cbn [fst snd].
  unfold exit_timeout, bind, setShowBanner, modify. cbn [fst snd].
  by destruct (reloadOnConsent p && bool_decide (level = all)
               && truthy (Some (scripts p))).
Qed.

(** The store after the write block of a decision, as the listeners find
    it: the same operations fail, and when the store works and the clock
    and the expiry window are not negative it holds the record just
    written. *)
Definition just_written (p : Props) (level : ConsentLevel) (w : World)
    (s : Storage) : Prop :=
  throws s = throws (storage w)
  ∧ (reliable (storage w) → (0 ≤ clock w)%Z → (0 <= expiryDays p)%Q →
     items s !! STORAGE_KEY = Some (level_str level)
     ∧ items s !! STORAGE_DATE_KEY = Some (toString (clock w))).

Lemma just_written_snapshot p level w s :
  just_written p level w s →
  ∃ r, getSnapshot s = (Normal r, next_op s)
       ∧ just_written p level w (next_op s) ∧ True.
Proof.
  intros [Hf Hi]. destruct (getSnapshot_eq s) as (r & Heq & _).
  exists r. by split_and!.
Qed.

Lemma just_written_read p level w s :
  just_written p level w s →
  ∃ r s', getStoredConsent (expiryDays p) (clock w) s = (Normal r, s')
          ∧ just_written p level w s'
          ∧ (reliable (storage w) → (0 ≤ clock w)%Z → (0 <= expiryDays p)%Q →
             r = Some (level_str level)).
Proof.
  intros [Hf Hi].
  destruct (any_read (expiryDays p) (clock w) _ s Hf) as (r & s' & Heq & Hf' & _).
  exists r, s'. split; [done|].
  enough (reliable (storage w) → (0 ≤ clock w)%Z → (0 <= expiryDays p)%Q →
          r = Some (level_str level) ∧ items s' = items s) as H.
  { split; [split; [done|]|].
    - intros H1 H2 H3. destruct (H H1 H2 H3) as [_ ->]. by apply Hi.
    - intros H1 H2 H3. by destruct (H H1 H2 H3). }
  intros Hs Hnow HE. destruct (Hi Hs Hnow HE) as [Hk Hd].
  assert (Hrs : reliable s) by (intros n; rewrite Hf; apply Hs).
  rewrite (getStoredConsent_within _ _ s (level_str level)
             (toString (clock w)) (clock w)) in Heq;
    auto using level_str_nonempty, parseInt_toString.
  - by injection Heq as <- <-.
  - by apply days_since_same.
Qed.

Lemma just_written_block p level w s0 :
  try_catch
    (localStorage (setItem STORAGE_KEY (level_str level)) >>
     let* now := Date_now in
     localStorage (setItem STORAGE_DATE_KEY (toString now)))
    (ret ()) w = (Normal (), set_storage s0 w) →
  just_written p level w s0.
Proof.
  intros Hw0. split.
  - destruct (write_block_eq level w) as (s1 & Hw1 & Hf).
    rewrite Hw0 in Hw1. injection Hw1 as Hw1. by subst s1.
  - intros Hs _ _. rewrite write_block_reliable in Hw0 by done.
    injection Hw0 as Hw0.
    subst s0. cbn. split; [apply written_level|apply written_date].
Qed.

(** X10 (handleConsent and its exit timeout, CookieConsent.tsx): a decision
    dismisses the banner.  When a mounted banner is shown and no exit
    timeout is pending, a click on one of its buttons leaves it in the
    document, no longer visible, with one exit timeout pending; when that
    timeout fires the banner is removed from the document.  This holds on
    any store.  On a working store, with a clock and an expiry window that
    are not negative, the consent rendered from then on is the level
    chosen, and the reconsent button is offered exactly when
    [showReconsent] is set. *)
Theorem decision_then_exit (p : Props) (level : ConsentLevel) (w : World) :
  mounted (st w) = true → showBanner (st w) = true → pending w = st w →
  timers w = [] →
  let w1 := step p (ActClick level) w in
  let w2 := step p ActExitTimer w1 in
  (showBanner (st w1) = true ∧ isVisible (st w1) = false
   ∧ timers w1 = [level])
  ∧ (mounted (st w2) = true ∧ showBanner (st w2) = false
     ∧ isVisible (st w2) = false ∧ timers w2 = []
     ∧ consent (st w2) = consent (st w1))
  ∧ (reliable (storage w) → (0 ≤ clock w)%Z → (0 <= expiryDays p)%Q →
     consent (st w2) = Some (level_str level)
     ∧ enabled p ActReconsent w2 = showReconsent p).
Proof.
  intros Hm Hsb Hp Ht. cbv zeta.
  assert (He1 : enabled p (ActClick level) w = true)
    by (cbn; by rewrite Hm, Hsb).
  set (P := λ x : BannerState,
         mounted x = true ∧ showBanner x = true ∧ isVisible x = false
         ∧ (reliable (storage w) → (0 ≤ clock w)%Z → (0 <= expiryDays p)%Q →
            consent x = Some (level_str level))).
  assert (H1 : P (st (step p (ActClick level) w))
               ∧ pending (step p (ActClick level) w)
                 = st (step p (ActClick level) w)
               ∧ timers (step p (ActClick level) w) = [level]).
  { rewrite step_exec by done.
    destruct (commit_fields p (exec (handle p (ActClick level)) w))
      as (-> & -> & _ & _ & ->).
    cbn [handle]. unfold exec.
    destruct (write_block_eq level w) as (s0 & Hw0 & Hf).
    rewrite (handleConsent_eq p level w s0 Hw0). unfold bind.
    destruct (dispatchEvent_frame p (just_written p level w)
                (λ r, reliable (storage w) → (0 ≤ clock w)%Z →
                      (0 <= expiryDays p)%Q → r = Some (level_str level))
                (λ _, True) (decided p level s0 w))
      as (ls' & s & b & -> & _ & _ & Hb).
    - apply just_written_snapshot.
    - intros s HJ. exact (just_written_read p level w s HJ).
    - by apply just_written_block.
    - cbn [fst snd modify pending timers set_timers set_listeners
           set_pending set_storage set_trace decided].
      rewrite Ht. split_and!; [|done..].
      specialize (Hb P P). cbn [st pending decided] in Hb.
      enough (P b) by done.
      assert (HPP : ∀ r x,
                (reliable (storage w) → (0 ≤ clock w)%Z →
                 (0 <= expiryDays p)%Q → r = Some (level_str level)) →
                P x → P (listener_update r (st w) x)).
      { intros r x Hr (Hx1 & Hx2 & Hx3 & Hx4). unfold listener_update.
        rewrite Hsb, andb_false_r. by split_and!. }
      specialize (Hb HPP HPP).
      destruct (existsb is_banner _); apply Hb;
        (split_and!; [by rewrite Hp|by rewrite Hp|done|done]). }
  destruct H1 as ((Ha & Hb & Hc & Hd) & Hpend & Htm).
  set (w1 := step p (ActClick level) w) in *.
  assert (He2 : enabled p ActExitTimer w1 = true)
    by (cbn; rewrite Htm; by apply bool_decide_eq_true_2).
  rewrite (step_exec p ActExitTimer w1 He2).
  destruct (commit_fields p (exec (handle p ActExitTimer) w1))
    as (Hst2 & _ & _ & _ & Htm2).
  destruct (exit_timer_fields p w1 level [] Htm) as (Hp2 & Ht2 & _ & _).
  rewrite Hst2, Htm2, Hp2, Ht2, Hpend.
  cbn [mounted showBanner isVisible consent].
  split_and!; try done.
  intros Hs Hnow HE. split; [by apply Hd|].
  cbn [enabled]. rewrite Hst2, Hp2, Hpend.
  cbn [mounted showBanner isVisible consent]. rewrite Ha, Hd by done.
  reflexivity.
Qed.

Lemma decision_then_exit_witness :
  showBanner (st (step sample_props ActExitTimer
                    (step sample_props (ActClick necessary)
                       (run sample_props [ActMount] first_visit)))) = false.
Proof.
  refine (proj1 (proj2 (proj1 (proj2 (decision_then_exit sample_props
    necessary (run sample_props [ActMount] first_visit) _ _ _ _))))).
  - vm_compute. reflexivity.
  - vm_compute. reflexivity.
  - vm_compute. reflexivity.
  - vm_compute. reflexivity.
Defined.

(** ** A reset while the banner is closing *)

Lemma listener_update_none_twice cur b :
  listener_update None cur (listener_update None cur b)
  = listener_update None cur b.
Proof. unfold listener_update. by destruct (negb (showBanner cur)). Qed.

(** The listeners on a working store without level entry: the banner's
    handler sets the consent to null, and shows the banner when the render
    that subscribed it did not. *)
Lemma cleared_frame p w :
  no_record (storage w) → existsb is_banner (listeners w) = true →
  ∃ ls' s,
    fire p w =
      (Normal (),
       set_listeners ls'
         (set_pending (listener_update None (st w) (pending w))
            (set_storage s w)))
    ∧ hooks_see_none ls' ∧ no_record s.
Proof.
  intros HJ Hex.
  destruct (fire_frame p no_record (λ r, r = None) (λ r, r = None) w)
    as (ls' & s & b & Heq & Hsh & HJs & Hb).
  - apply no_record_snapshot.
  - intros s. apply no_record_read.
  - done.
  - assert (b = listener_update None (st w) (pending w)) as ->.
    { specialize (Hb (λ x, x = pending w)
                     (λ x, x = listener_update None (st w) (pending w))).
      rewrite Hex in Hb. apply Hb.
      + by intros r x -> ->.
      + intros r x -> ->. apply listener_update_none_twice.
      + done. }
    exists ls', s. split_and!; [done|by eapply observed_none|done].
Qed.

(** X11 (handleConsent, its exit timeout, the sync handler and the render of
    CookieConsent.tsx; resetConsent of use-consent.ts): a reset while the
    banner is closing.  On a working store, when the exit timeout of a
    decision is pending, the banner still being shown, and the record is
    removed in the meantime, by [resetConsent] of the hook or by another
    tab, the banner's handler sets the consent to null but leaves the
    banner as it is, since the render that subscribed it was showing it;
    when the timeout fires the banner is removed.  The page then renders
    neither the banner nor the reconsent button: no click and no reconsent
    can happen. *)
Theorem reset_while_closing (p : Props) (a : action) (w : World)
    (level : ConsentLevel) (rest : list ConsentLevel) :
  reliable (storage w) →
  mounted (st w) = true → showBanner (st w) = true → pending w = st w →
  timers w = level :: rest →
  existsb is_banner (listeners w) = true →
  a = ActHookReset ∨ (∃ m, a = ActStorageEvent m ∧ m !! STORAGE_KEY = None) →
  let w1 := step p a w in
  let w2 := step p ActExitTimer w1 in
  (consent (st w1) = None ∧ showBanner (st w1) = true)
  ∧ consent (st w2) = None ∧ showBanner (st w2) = false
  ∧ (∀ l, enabled p (ActClick l) w2 = false)
  ∧ enabled p ActEscape w2 = false
  ∧ enabled p ActReconsent w2 = false.
Proof.
  intros Hs Hm Hsb Hp Ht Hex Ha. cbv zeta.
  assert (He : enabled p a w = true) by by destruct Ha as [->|(m & -> & _)].
  assert (H1 : st (step p a w) = listener_update None (st w) (st w)
               ∧ pending (step p a w) = listener_update None (st w) (st w)
               ∧ timers (step p a w) = level :: rest).
  { rewrite step_exec by done.
    destruct (commit_fields p (exec (handle p a) w))
      as (-> & -> & _ & _ & ->).
    destruct Ha as [->|(m & -> & Hk)]; cbn [handle]; unfold exec.
    - rewrite (resetConsent_eq p w _ (clear_block_reliable w Hs)).
      rewrite dispatchEvent_fire.
      match goal with |- context [fire p ?w0] =>
        destruct (cleared_frame p w0) as (ls' & s & -> & _ & _)
      end; try done.
      + apply no_record_cleared, Hs.
      + cbn. by rewrite Hp.
    - unfold bind, modify.
      match goal with |- context [fire p ?w0] =>
        destruct (cleared_frame p w0) as (ls' & s & -> & _ & _)
      end; try done.
      cbn. by rewrite Hp. }
  destruct H1 as (Hst1 & Hp1 & Ht1).
  unfold listener_update in Hst1, Hp1. rewrite Hsb in Hst1, Hp1.
  cbn [negb andb] in Hst1, Hp1.
  set (w1 := step p a w) in *.
  assert (He2 : enabled p ActExitTimer w1 = true)
    by (cbn; rewrite Ht1; by apply bool_decide_eq_true_2).
  rewrite (step_exec p ActExitTimer w1 He2).
  destruct (commit_fields p (exec (handle p ActExitTimer) w1))
    as (Hst2 & _).
  destruct (exit_timer_fields p w1 level rest Ht1) as (Hp2 & _).
  cbn [enabled]. rewrite Hst2, Hp2, Hst1, Hp1.
  cbn [mounted showBanner isVisible consent].
  rewrite ?andb_false_r. by split_and!.
Qed.

Lemma reset_while_closing_witness :
  let w2 := run sample_props
              [ActMount; ActClick all; ActHookReset; ActExitTimer]
              first_visit in
  enabled sample_props (ActClick all) w2 = false
  ∧ enabled sample_props ActReconsent w2 = false.
Proof.
  pose proof (reset_while_closing sample_props ActHookReset
    (run sample_props [ActMount; ActClick all] first_visit) all []) as H.
  destruct H as (_ & _ & _ & H1 & _ & H2).
  - intros n. vm_compute. reflexivity.
  - vm_compute. reflexivity.
  - vm_compute. reflexivity.
  - vm_compute. reflexivity.
  - vm_compute. reflexivity.
  - vm_compute. reflexivity.
  - by left.
  - split; [exact (H1 all)|exact H2].
Defined.

(** ** A decision taken in another tab *)










(** ** Callbacks and reloads over a run *)

(** The levels handed to [onConsent], in order. *)
Definition callbacks (tr : list event) : list ConsentLevel :=
  omap (λ e, if e is EvCallback l then Some l else None) tr.

(** Number of reloads of the page. *)
Definition reloads (tr : list event) : nat :=
  length (List.filter (λ e, if e is EvReload then true else false) tr).

Lemma callbacks_app tr1 tr2 :
  callbacks (tr1 ++ tr2) = callbacks tr1 ++ callbacks tr2.
Proof. apply omap_app. Qed.

Lemma reloads_app tr1 tr2 : reloads (tr1 ++ tr2) = (reloads tr1 + reloads tr2)%nat.
Proof. unfold reloads. by rewrite List.filter_app, length_app. Qed.

Lemma callbacks_effects evs :
  Forall (λ e, effect_event e = true) evs → callbacks evs = [].
Proof.
  induction 1 as [|e evs He _ IH]; [done|].
  destruct e; try done; exact IH.
Qed.

Lemma reloads_effects evs :
  Forall (λ e, effect_event e = true) evs → reloads evs = 0%nat.
Proof.
  induction 1 as [|e evs He _ IH]; [done|].
  destruct e; try done; exact IH.
Qed.

(** The level a step decides, when it is a decision the banner accepts. *)
Definition decision_of (p : Props) (a : action) (w : World)
  : list ConsentLevel :=
  if enabled p a w
  then match a with
       | ActClick level => [level]
       | ActEscape => [necessary]
       | _ => []
       end
  else [].

(** The decisions taken along a run. *)
Fixpoint decisions (p : Props) (acts : list action) (w : World)
  : list ConsentLevel :=
  match acts with
  | [] => []
  | a :: rest => decision_of p a w ++ decisions p rest (step p a w)
  end.

Lemma callbacks_decision_events p level g :
  callbacks (decision_events p level g ++ [EvDispatch CONSENT_CHANGE_EVENT])
  = if onConsent p then [level] else [].
Proof.
  unfold decision_events.
  by destruct (consentMode p), g, (onConsent p).
Qed.

Lemma step_callbacks p a w :
  callbacks (trace (step p a w))
  = callbacks (trace w) ++ (if onConsent p then decision_of p a w else []).
Proof.
  unfold decision_of. destruct (enabled p a w) eqn:He.
  - destruct (step_effects_only p a w He) as (evs & -> & Hevs).
    rewrite !callbacks_app, (callbacks_effects evs Hevs), app_nil_r.
    f_equal. destruct a; cbn [handler_events];
      rewrite ?callbacks_decision_events; try by destruct (onConsent p).
    destruct (timers w) as [|l ?]; [by destruct (onConsent p)|].
    destruct (reloads_after p l); by destruct (onConsent p).
  - unfold step. rewrite He. destruct (onConsent p); by rewrite app_nil_r.
Qed.

(** X13 (handleConsent and every other handler of CookieConsent.tsx and
    use-consent.ts): the callback reports the decisions, and nothing else.
    Over any run from any page, [onConsent] is invoked once for each click
    on a button and each Escape the banner accepts, with the level chosen
    and in the order of the decisions; no reconsent, reset, write of the
    hook, change by another tab, timer or effect invokes it.  Without
    [onConsent] nothing is invoked. *)
Theorem callbacks_are_decisions (p : Props) (acts : list action) (w : World) :
  callbacks (trace (run p acts w))
  = callbacks (trace w) ++ (if onConsent p then decisions p acts w else []).
Proof.
  revert w. induction acts as [|a acts IH]; intros w.
  - cbn. destruct (onConsent p); by rewrite app_nil_r.
  - rewrite run_cons, IH, step_callbacks. cbn [decisions].
    destruct (onConsent p); by rewrite <- ?app_assoc, ?app_nil_r.
Qed.

Lemma step_reloads p a w :
  reloadOnConsent p && truthy (Some (scripts p)) = false →
  reloads (trace (step p a w)) = reloads (trace w).
Proof.
  intros Hcfg. destruct (enabled p a w) eqn:He.
  - destruct (step_effects_only p a w He) as (evs & -> & Hevs).
    rewrite !reloads_app, (reloads_effects evs Hevs).
    enough (reloads (handler_events p a w) = 0%nat) as -> by lia.
    destruct a; cbn [handler_events]; try done.
    + unfold decision_events.
      by destruct (consentMode p), (gtag w), (onConsent p).
    + unfold decision_events.
      by destruct (consentMode p), (gtag w), (onConsent p).
    + destruct (timers w) as [|l ?]; [done|].
      unfold reloads_after.
      destruct (reloadOnConsent p), (truthy (Some (scripts p)));
        try done; by rewrite ?andb_false_r.
  - unfold step. by rewrite He.
Qed.

(** X14 (the exit timeout of handleConsent, CookieConsent.tsx): no reload
    unless it is asked for.  When [reloadOnConsent] is not set, or
    [scripts] is empty, no run from any page ever reloads the page. *)
Theorem reload_only_when_configured (p : Props) (acts : list action)
    (w : World) :
  reloadOnConsent p && truthy (Some (scripts p)) = false →
  reloads (trace (run p acts w)) = reloads (trace w).
Proof.
  intros Hcfg.
  apply (run_invariant p (λ w', reloads (trace w') = reloads (trace w)));
    [|done].
  intros a w' _ <-. by apply step_reloads.
Qed.

Lemma reload_only_when_configured_witness :
  reloads (trace (run sample_props accept_twice first_visit))
  = reloads (trace first_visit).
Proof.
  apply (reload_only_when_configured sample_props accept_twice first_visit).
  reflexivity.
Defined.

(** ** Reading twice *)

(** The entries a read leaves on a working store. *)
Lemma getStoredConsent_items E now s :
  reliable s →
  items (exec (getStoredConsent E now) s)
  = if truthy (items s !! STORAGE_KEY)
    then (if fst (isExpired E now (next_op s)) is Normal false
          then items s else cleared (items s))
    else items s.
Proof.
  intros H. unfold exec, getStoredConsent at 1, try_catch, bind at 1.
  rewrite getItem_reliable by done.
  pose proof (reliable_next_op _ H) as H1.
  destruct (truthy (items s !! STORAGE_KEY)) eqn:Ht.
  - unfold bind at 1, bind at 1.
    rewrite (isExpired_reliable E now (next_op s)) by done.
    cbn [fst]. unfold ret at 1.
    match goal with |- context [negb ?b] => destruct b end; cbn [negb].
    + pose proof (reliable_next_op _ H1) as H2.
      unfold bind. rewrite removeItem_reliable by done.
      rewrite removeItem_reliable
        by by apply reliable_next_op, reliable_with_items.
      done.
    + done.
  - unfold bind, ret. cbn. done.
Qed.

Lemma getStoredConsent_keeps_reliable E now s :
  reliable s → reliable (exec (getStoredConsent E now) s).
Proof.
  intros H n.
  rewrite (stable_exec (λ s', throws s' = throws s) (getStoredConsent E now) s);
    [apply H| |done].
  apply store_pred_getStoredConsent;
    auto using faults_getItem, faults_removeItem.
Qed.

(** X15 (getStoredConsent, CookieConsent.tsx): reading is idempotent.  On a
    working store a second read at the same instant returns what the first
    returned and changes no entry: the cleanup of an expired record is done
    by the first read, and a valid record is left alone by both. *)
Theorem getStoredConsent_idempotent (E : Q) (now : Z) (s : Storage) :
  reliable s →
  let s1 := exec (getStoredConsent E now) s in
  fst (getStoredConsent E now s1) = fst (getStoredConsent E now s)
  ∧ items (exec (getStoredConsent E now) s1) = items s1.
Proof.
  intros H. cbv zeta.
  pose proof (getStoredConsent_keeps_reliable E now s H) as H1.
  rewrite (getStoredConsent_value E now _ H1),
    (getStoredConsent_value E now s H),
    (getStoredConsent_items E now _ H1), (getStoredConsent_items E now s H).
  rewrite !isExpired_reliable
    by first [by apply reliable_next_op | done].
  cbn [fst items next_op].
  rewrite (getStoredConsent_items E now s H).
  rewrite !isExpired_reliable by by apply reliable_next_op.
  cbn [fst items next_op].
  destruct (truthy (items s !! STORAGE_KEY)) eqn:Ht; [|by rewrite Ht].
  match goal with
  | |- context [if ?e then cleared (items s) else items s] =>
      destruct e eqn:He
  end.
  - assert (Hk : cleared (items s) !! STORAGE_KEY = None).
    { unfold cleared. rewrite lookup_delete_ne by done.
      apply lookup_delete_eq. }
    by rewrite Hk.
  - by rewrite Ht, He.
Qed.

Lemma getStoredConsent_idempotent_witness :
  let s1 := exec (getStoredConsent 365 1700000000000)
              (store_of unparsable_record) in
  fst (getStoredConsent 365 1700000000000 s1)
  = fst (getStoredConsent 365 1700000000000 (store_of unparsable_record))
  ∧ items (exec (getStoredConsent 365 1700000000000) s1) = items s1.
Proof.
  apply (getStoredConsent_idempotent 365 1700000000000
           (store_of unparsable_record)).
  intros n. reflexivity.
Defined.

(** ** Language and texts *)

(** X16 (detectLanguage and the resolution of the language,
    CookieConsent.tsx):
    English is chosen only for a browser language that begins with "en" in
    lower case; where [navigator] or its [language] is not defined, and for
    any other language, the banner is French.  The resolved language is
    never "auto", and with [lang = "auto"] a render before the mount is
    French whatever the browser. *)
Theorem detectLanguage_en_iff (navigator : option (option string)) :
  (detectLanguage navigator = en
   ↔ ∃ rest, navigator = Some (Some ("en" +:+ rest)))
  ∧ (detectLanguage navigator = en ∨ detectLanguage navigator = fr)
  ∧ (∀ lang mounted,
       resolvedLang lang mounted navigator ≠ auto
       ∧ (lang = auto → mounted = false →
          resolvedLang lang mounted navigator = fr)).
Proof.
  assert (Hsub : ∀ l, String.substring 0 2 l = "en" ↔ ∃ rest, l = "en" +:+ rest).
  { intros [|a [|b l]]; cbn.
    - split; [done|]. by intros [? ?].
    - split; [done|]. by intros [? ?].
    - split.
      + intros H. injection H as -> ->. by exists l.
      + intros [rest H]. injection H as -> -> _. by destruct l. }
  assert (Hen : detectLanguage navigator = en
                ↔ ∃ rest, navigator = Some (Some ("en" +:+ rest))).
  { unfold detectLanguage. destruct navigator as [[l|]|]; cbn.
    - case_bool_decide as Hd.
      + split; [intros _|done]. injection Hd as Hd.
        apply Hsub in Hd as [rest ->]. by exists rest.
      + split; [done|]. intros [rest H]. injection H as ->.
        destruct Hd. f_equal. apply Hsub. by exists rest.
    - split; [done|]. by intros [? ?].
    - split; [done|]. by intros [? ?]. }
  assert (Hor : detectLanguage navigator = en ∨ detectLanguage navigator = fr).
  { unfold detectLanguage. destruct navigator as [l|]; [|by right].
    case_bool_decide; [by left|by right]. }
  split; [exact Hen|]. split; [exact Hor|].
  intros lang mounted. unfold resolvedLang. split.
  - case_bool_decide as Hl; [|done].
    destruct mounted; [|done]. by destruct Hor as [-> | ->].
  - intros -> ->. done.
Qed.

Lemma or_else_nonempty a b : b ≠ "" → or_else a b ≠ "".
Proof.
  intros Hb. unfold or_else. destruct a as [[|c a]|]; cbn; try done.
Qed.

(** The texts of a render, field by field. *)
Definition texts_list {F} (t : TextsOf F) : list F :=
  [title t; message t; accept t; reject t; privacy t; powered t].

(** The text [t] is the override [custom] when that is a non-empty string,
    and the default [d] otherwise. *)
Definition chosen (custom : option string) (d t : string) : Prop :=
  match custom with
  | Some (String a v) => t = String a v
  | _ => t = d
  end.

Lemma or_else_chosen custom d : chosen custom d (or_else custom d).
Proof. by destruct custom as [[|a v]|]. Qed.

(** X17 (the resolution of the texts, CookieConsent.tsx; DEFAULT_TEXTS,
    defaults.ts): no text of the banner is ever empty.  Whatever the
    language and the overrides, each of the six texts is the override given
    for that language when there is one and it is not empty, and the
    default of that language otherwise, an empty override counting as
    none; without overrides for that language the texts are its defaults,
    and the overrides given for the other language are not used. *)
Theorem resolve_texts_nonempty (l : Language)
    (textsFr textsEn : option ConsentTexts) :
  let texts := resolve_texts l textsFr textsEn in
  let custom := if bool_decide (l = fr) then textsFr else textsEn in
  let defaults := if bool_decide (l = en) then DEFAULT_TEXTS_en
                  else DEFAULT_TEXTS_fr in
  Forall (λ s, s ≠ "") (texts_list texts)
  ∧ (∀ c, custom = Some c →
       Forall2 (λ cd t, chosen cd.1 cd.2 t)
         (zip (texts_list c) (texts_list defaults)) (texts_list texts))
  ∧ (custom = None → texts = defaults)
  ∧ (∀ other, l = fr →
       resolve_texts l textsFr other = resolve_texts l textsFr textsEn)
  ∧ (∀ other, l ≠ fr →
       resolve_texts l other textsEn = resolve_texts l textsFr textsEn).
Proof.
  cbv zeta.
  assert (Hd : default DEFAULT_TEXTS_fr (DEFAULT_TEXTS l)
               = if bool_decide (l = en) then DEFAULT_TEXTS_en
                 else DEFAULT_TEXTS_fr) by by destruct l.
  split_and!.
  - unfold texts_list, resolve_texts. cbn [title message accept reject
      privacy powered].
    repeat apply Forall_cons_2; try apply Forall_nil_2;
      apply or_else_nonempty; by destruct l.
  - intros c Hc. unfold resolve_texts. rewrite Hc, Hd.
    unfold texts_list.
    cbn [title message accept reject privacy powered zip zip_with
         mbind option_bind].
    repeat apply Forall2_cons_2; try apply Forall2_nil_2;
      apply or_else_chosen.
  - intros Hc. unfold resolve_texts. rewrite Hc, Hd.
    cbn [mbind option_bind or_else truthy].
    by destruct (if bool_decide (l = en) then _ else _).
  - intros other ->. reflexivity.
  - intros other Hl. unfold resolve_texts.
    by rewrite !bool_decide_eq_false_2.
Qed.

(** ** The injected style sheet *)

Lemma append_cons x (a b : string) : String x a +:+ b = String x (a +:+ b).
Proof. reflexivity. Qed.

Lemma trim_end_cons x (s : string) :
  trim_end (String x s)
  = match trim_end s with
    | EmptyString => if is_space x then EmptyString else String x EmptyString
    | r => String x r
    end.
Proof. reflexivity. Qed.

Lemma trim_end_app (a b : string) :
  trim_end (a +:+ b)
  = if trim_end b is EmptyString then trim_end a else a +:+ trim_end b.
Proof.
  induction a as [|x a IH].
  - change ("" +:+ b) with b. by destruct (trim_end b).
  - rewrite append_cons, !trim_end_cons, IH.
    destruct (trim_end b) as [|y b']; [done|].
    rewrite append_cons. by destruct a.
Qed.

Lemma trim_end_nonblank (a b : string) :
  trim_end b ≠ "" → trim_end (a +:+ b) = a +:+ trim_end b.
Proof. intros Hb. rewrite trim_end_app. by destruct (trim_end b). Qed.

(** Strings [trim] leaves as they are at their end. *)
Definition kept (s : string) : Prop := trim_end s = s ∧ s ≠ "".

Lemma kept_app (a b : string) : kept b → kept (a +:+ b).
Proof.
  intros [Hb Hne]. split.
  - rewrite trim_end_nonblank; by rewrite Hb.
  - destruct a; [done|]. by rewrite append_cons.
Qed.

Lemma css_rules_kept brandColor glassmorphism :
  kept (css_rules brandColor glassmorphism).
Proof.
  unfold css_rules.
  repeat match goal with |- kept (_ +:+ _) => apply kept_app end.
  by split.
Qed.

Lemma skip_space_newline (s : string) :
  skip_space (newline +:+ s) = skip_space s.
Proof. reflexivity. Qed.

Lemma css_rules_head brandColor glassmorphism :
  ∃ rest, css_rules brandColor glassmorphism = String "#" rest.
Proof. unfold css_rules. by eexists. Qed.

(** X18 (buildInjectCss, CookieConsent.tsx): the custom rules come last.  The
    style sheet is the built-in rules, followed, when [customCss] holds
    something else than white space, by a line break and [customCss]
    without its trailing white space: custom rules are later in the
    cascade than every built-in rule.  A blank [customCss] adds nothing:
    the style sheet is then the built-in rules alone. *)
Theorem buildInjectCss_layout (brandColor : string) (glassmorphism : bool)
    (customCss : string) :
  buildInjectCss brandColor glassmorphism customCss
  = css_rules brandColor glassmorphism
    +:+ (if trim_end customCss is EmptyString then ""
         else newline +:+ trim_end customCss).
Proof.
  unfold buildInjectCss, trim. rewrite skip_space_newline.
  destruct (css_rules_kept brandColor glassmorphism) as [Ht Hne].
  destruct (css_rules_head brandColor glassmorphism) as [rest Hr].
  assert (skip_space (css_rules brandColor glassmorphism
                      +:+ newline +:+ customCss)
          = css_rules brandColor glassmorphism +:+ newline +:+ customCss)
    as -> by by rewrite Hr.
  rewrite trim_end_app, (trim_end_app newline customCss).
  destruct (trim_end customCss) as [|c r] eqn:Hc.
  - change (trim_end newline) with "". cbv iota. rewrite Ht.
    generalize (css_rules brandColor glassmorphism).
    intros s. induction s as [|x s IH]; [done|].
    rewrite append_cons. by rewrite <- IH.
  - reflexivity.
Qed.

(** ** The expiry window, in milliseconds *)

Section Boundary.
Local Open Scope Z_scope.


End Boundary.



(** ** The host's [gtag] and queue *)









